(** * ReachCraftAI: the batch mailer, embedded and verified

    A shallow embedding of the five Python modules of the repository
    ([excel_processor.py], [email_generator.py], [email_sender.py],
    [app.py], and the settings object of [config.py]) together with the
    properties of the per-contact pipeline.

    Conventions of the embedding.
    - Python [str] is [string], and a character is a Unicode code point
      below 256: [ascii_of_nat n] is the code point [n], so
      [ascii_of_nat 160] is the no-break space and [ascii_of_nat 201] the
      capital E with acute (a character is not a byte of an encoding).  On
      these code points [strip], [lower] and [repr] are those of Python.
      Text with a code point from 256 on is outside the model; a [str]
      with a lone surrogate is met in one place only, the body handed to
      [send_email], and has a constructor of its own there.
    - The Python values that can sit in a contact dictionary are [value]:
      [None], a [str] or an [int].
    - A [dict] keeps insertion order (it is printed by the generator), so
      it is an association list.
    - Code that can raise runs in the monad [M]: a state monad over
      [world] whose results are [Val a] or [Exn e].
    - The world outside the process (generation service, mail transport,
      wall clock, disk) is an [Env] of oracles.  Each oracle receives the
      history of calls made so far, so that it may answer differently every
      time.
    - The [csv] module is taken at the level of rows: a file read or
      written through [csv.reader] / [csv.writer] is a list of rows, each a
      list of cells.  As [csv.reader] does, reading refuses a cell of more
      than 131072 characters; writing has no such limit.
    - [app.py] is modelled with the three real collaborators it imports;
      the stand-ins it defines for a failed import are not.  Only
      subclasses of [Exception] are raised. *)

From Stdlib Require Import String Ascii List ZArith Bool Arith Lia.
From Stdlib Require Import Numbers.DecimalString.
Import ListNotations.

Open Scope list_scope.
Open Scope string_scope.

(** ** Python strings *)

Module PyStr.

Definition quote : ascii := ascii_of_nat 39.
Definition dquote : ascii := ascii_of_nat 34.
Definition backslash : ascii := ascii_of_nat 92.

(** [str.isspace] on one character: TAB, LF, VT, FF, CR, the four
    separators FS, GS, RS, US, the space, and the two white-space
    characters above 127, NEL (U+0085) and the no-break space (U+00A0). *)
Definition is_space (c : ascii) : bool :=
  let n := nat_of_ascii c in
  ((9 <=? n) && (n <=? 13) || (28 <=? n) && (n <=? 32)
   || (n =? 133) || (n =? 160))%nat.

(** [str.lower] on one character: the capitals A to Z, and the capitals
    of the Latin-1 supplement, U+00C0 to U+00DE without the multiplication
    sign U+00D7, move up by 32. *)
Definition lower_char (c : ascii) : ascii :=
  let n := nat_of_ascii c in
  if ((65 <=? n) && (n <=? 90)
      || (192 <=? n) && (n <=? 222) && negb (n =? 215))%nat
  then ascii_of_nat (n + 32) else c.

(** [s.lower()] *)
Fixpoint lower (s : string) : string :=
  match s with
  | EmptyString => EmptyString
  | String c r => String (lower_char c) (lower r)
  end.

(** [s.lstrip()] *)
Fixpoint lstrip (s : string) : string :=
  match s with
  | EmptyString => EmptyString
  | String c r => if is_space c then lstrip r else s
  end.

(** [s.rstrip()]: a character is dropped when it is white space and all
    that follows it has been dropped. *)
Fixpoint rstrip (s : string) : string :=
  match s with
  | EmptyString => EmptyString
  | String c r =>
      match rstrip r with
      | EmptyString => if is_space c then EmptyString else String c EmptyString
      | r' => String c r'
      end
  end.

(** [s.strip()] *)
Definition strip (s : string) : string := rstrip (lstrip s).

(** [s.startswith(p)] *)
Fixpoint startswith (p s : string) : bool :=
  match p, s with
  | EmptyString, _ => true
  | String a p', String b s' => Ascii.eqb a b && startswith p' s'
  | String _ _, EmptyString => false
  end.

(** [sub in s] *)
Fixpoint contains (sub s : string) : bool :=
  startswith sub s ||
  match s with
  | EmptyString => false
  | String _ r => contains sub r
  end.

(** [s.endswith(p)] *)
Fixpoint endswith (p s : string) : bool :=
  String.eqb p s ||
  match s with
  | EmptyString => false
  | String _ r => endswith p r
  end.

(** [c in s] for a single character. *)
Fixpoint mem_char (c : ascii) (s : string) : bool :=
  match s with
  | EmptyString => false
  | String a r => Ascii.eqb a c || mem_char c r
  end.

(** [str(z)] for an [int]. *)
Definition of_Z (z : Z) : string := NilEmpty.string_of_int (Z.to_int z).

Definition hex_digit (n : nat) : ascii :=
  if (n <? 10)%nat then ascii_of_nat (48 + n) else ascii_of_nat (87 + n).

(** [str.isprintable] on one character: not a control character (below
    32, or from 127 to 159), not the no-break space, not the soft hyphen
    (U+00AD). *)
Definition is_printable (c : ascii) : bool :=
  let n := nat_of_ascii c in
  negb ((n <? 32) || (127 <=? n) && (n <=? 160) || (n =? 173))%nat.

(** One character of [repr(s)] between quotes [q]. *)
Definition repr_char (q c : ascii) : string :=
  let n := nat_of_ascii c in
  if Ascii.eqb c backslash then String backslash (String backslash EmptyString)
  else if Ascii.eqb c q then String backslash (String c EmptyString)
  else if (n =? 10)%nat then String backslash "n"
  else if (n =? 13)%nat then String backslash "r"
  else if (n =? 9)%nat then String backslash "t"
  else if negb (is_printable c) then
    String backslash (String "x" (String (hex_digit (n / 16))
                                         (String (hex_digit (n mod 16)) EmptyString)))
  else String c EmptyString.

Fixpoint repr_body (q : ascii) (s : string) : string :=
  match s with
  | EmptyString => EmptyString
  | String c r => repr_char q c ++ repr_body q r
  end.

(** [repr(s)]: single quotes, unless the text has a single quote and no
    double quote. *)
Definition repr (s : string) : string :=
  let q := if mem_char quote s && negb (mem_char dquote s) then dquote else quote in
  String q (repr_body q s ++ String q EmptyString).

End PyStr.

(** ** Python values and dictionaries *)

Inductive value : Type :=
| VNone
| VStr (s : string)
| VInt (z : Z).

(** [bool(v)] *)
Definition truthy (v : value) : bool :=
  match v with
  | VNone => false
  | VStr s => negb (String.eqb s "")
  | VInt z => negb (Z.eqb z 0)
  end.

(** [isinstance(v, str)] *)
Definition is_str (v : value) : bool :=
  match v with VStr _ => true | _ => false end.

(** [str(v)], also what an f-string and [format] print. *)
Definition py_str (v : value) : string :=
  match v with
  | VNone => "None"
  | VStr s => s
  | VInt z => PyStr.of_Z z
  end.

(** [repr(v)] *)
Definition py_repr (v : value) : string :=
  match v with
  | VNone => "None"
  | VStr s => PyStr.repr s
  | VInt z => PyStr.of_Z z
  end.

(** [a or b] *)
Definition py_or (a b : value) : value := if truthy a then a else b.

(** [bool(o)] and [str(o)] for a setting that is a string or [None]. *)
Definition truthy_opt (o : option string) : bool :=
  match o with Some s => negb (String.eqb s "") | None => false end.

Definition str_opt (o : option string) : string :=
  match o with Some s => s | None => "None" end.

(** A [dict] with [str] keys, in insertion order. *)
Definition pydict (V : Type) : Type := list (string * V).

Definition dict : Type := pydict value.

(** [k in d], with the value found. *)
Fixpoint dict_lookup {V} (d : pydict V) (k : string) : option V :=
  match d with
  | [] => None
  | (k', v) :: r => if String.eqb k' k then Some v else dict_lookup r k
  end.

(** [d.get(k, default)]; [d.get(k)] is [dict_get d k VNone]. *)
Definition dict_get {V} (d : pydict V) (k : string) (default : V) : V :=
  match dict_lookup d k with Some v => v | None => default end.

(** [d[k] = v]: an existing key keeps its place. *)
Fixpoint dict_set {V} (d : pydict V) (k : string) (v : V) : pydict V :=
  match d with
  | [] => [(k, v)]
  | (k', v') :: r =>
      if String.eqb k' k then (k', v) :: r else (k', v') :: dict_set r k v
  end.

(** [repr(d)] *)
Fixpoint dict_repr_items (d : dict) : string :=
  match d with
  | [] => ""
  | [(k, v)] => PyStr.repr k ++ ": " ++ py_repr v
  | (k, v) :: r => PyStr.repr k ++ ": " ++ py_repr v ++ ", " ++ dict_repr_items r
  end.

Definition dict_repr (d : dict) : string := "{" ++ dict_repr_items d ++ "}".

(** ** Exceptions, the world and the monad of effects *)

(** The exception classes the code tells apart.  The argument is what
    [str(e)] prints, except for [KeyError], which carries the missing key
    and prints its [repr]. *)
Inductive exn : Type :=
| SMTPAuthenticationError (text : string)
| SMTPServerDisconnected (text : string)
| SMTPConnectError (text : string)
| KeyError (key : string)
| ValueError (text : string)
| AttributeError (text : string)
| OtherException (text : string).

(** [str(e)] *)
Definition exn_str (e : exn) : string :=
  match e with
  | SMTPAuthenticationError t | SMTPServerDisconnected t | SMTPConnectError t
  | ValueError t | AttributeError t | OtherException t => t
  | KeyError k => PyStr.repr k
  end.

Inductive result (A : Type) : Type :=
| Val (a : A)
| Exn (e : exn).
Arguments Val {A} a.
Arguments Exn {A} e.

(** The body handed to [send_email]: text that [MIMEText] encodes, or
    text it refuses, a [str] with a lone surrogate.  Of the latter the
    model keeps what can be shown of it and what the [UnicodeEncodeError]
    prints. *)
Inductive mail_body : Type :=
| Encodable (text : string)
| Unencodable (shown error : string).

Definition body_text (body : mail_body) : string :=
  match body with
  | Encodable text => text
  | Unencodable shown _ => shown
  end.

(** The [email.mime] message assembled by [send_email]. *)
Record mime_message : Type := {
  mime_subject : string;
  mime_from : string;
  mime_to : string;
  mime_html : string
}.

(** The calls [send_email] makes on [smtplib]. *)
Inductive smtp_action : Type :=
| SmtpOpen (host : string) (port timeout : Z)       (* smtplib.SMTP(...) *)
| SmtpOpenSSL (host : string) (port timeout : Z)    (* smtplib.SMTP_SSL(...) *)
| SmtpEhlo
| SmtpStartTls
| SmtpLogin (username password : string)
| SmtpSendmail (sender recipient data : string)
| SmtpQuit.

(** What happens, in program order.  The [EvCall...] events mark the entry
    of the three collaborators of the orchestrator; the others are calls
    that leave the process. *)
Inductive event : Type :=
| EvCallGenerate (company_data : dict) (user_prompt : string)
| EvGenaiConfigure (api_key : string)
| EvGenaiModel (model_name : string)
| EvGenaiGenerate (full_prompt : string)
| EvCallSend (recipient_email subject body : string)
| EvMimeAsString (message : mime_message)
| EvSmtp (a : smtp_action)
| EvCallLog (recipient : value) (subject status message : string).

(** What [csv.reader] makes of a file on disk. *)
Inductive csv_source : Type :=
| FileMissing                          (* open raises FileNotFoundError *)
| FileUnreadable (why : string)        (* any other error while reading *)
| FileRows (rows : list (list string)).

(** The state of the process and of the disk.  [trace] has the latest
    event first.  [log_file] is the content of [sent_emails.log.csv]:
    [None] when the file does not exist, [Some []] when it is empty. *)
Record world : Type := {
  trace : list event;
  log_file : option (list (list string));
  files : list (string * csv_source)
}.

(** The rows of a log, none when the file is absent. *)
Definition rows_of (log : option (list (list string))) : list (list string) :=
  match log with
  | Some rows => rows
  | None => []
  end.

Definition M (A : Type) : Type := world -> result A * world.

Definition ret {A} (a : A) : M A := fun w => (Val a, w).

Definition raise {A} (e : exn) : M A := fun w => (Exn e, w).

Definition bind {A B} (m : M A) (f : A -> M B) : M B :=
  fun w =>
    match m w with
    | (Val a, w') => f a w'
    | (Exn e, w') => (Exn e, w')
    end.

(** [try: m  except Exception as e: handler e] *)
Definition try_except {A} (m : M A) (handler : exn -> M A) : M A :=
  fun w =>
    match m w with
    | (Val a, w') => (Val a, w')
    | (Exn e, w') => handler e w'
    end.

Definition lift {A} (r : result A) : M A := fun w => (r, w).

Declare Scope monad_scope.
Delimit Scope monad_scope with monad.
Notation "x <- m ;; k" := (bind m (fun x => k))
  (at level 61, m at next level, right associativity) : monad_scope.
Notation "m ;; k" := (bind m (fun _ => k))
  (at level 61, right associativity) : monad_scope.
Notation "' pat <- m ;; k" := (bind m (fun x => match x with pat => k end))
  (at level 61, pat pattern, m at next level, right associativity) : monad_scope.
Open Scope monad_scope.

Definition emit (e : event) : M unit :=
  fun w => (Val tt, {| trace := e :: trace w;
                       log_file := log_file w;
                       files := files w |}).

(** ** Settings and environment *)

(** The attributes of [config.settings] the three modules read. *)
Record Settings : Type := {
  GEMINI_API_KEY : option string;
  SMTP_HOST : option string;
  SMTP_PORT : Z;
  SMTP_USERNAME : option string;
  SMTP_PASSWORD : option string;
  SMTP_SENDER_EMAIL : option string;
  SMTP_USE_TLS : bool
}.

(** The answer of [model.generate_content]: the exception that reading
    [response.parts] raises, if it raises (the client does so for some
    blocked prompts); whether [response.parts] is non-empty when it can be
    read; what reading [response.text] gives; and, when
    [response.prompt_feedback] is set, the printed block reason and safety
    ratings. *)
Record gen_response : Type := {
  parts_raises : option exn;
  parts_nonempty : bool;
  response_text : result string;
  prompt_feedback : option (string * string)
}.

(** Everything outside the program.  Every oracle is given the history. *)
Record Env : Type := {
  settings : Settings;
  (** [import google.generativeai] succeeded *)
  genai_available : bool;
  genai_configure : list event -> string -> option exn;
  genai_GenerativeModel : list event -> string -> option exn;
  genai_generate_content : list event -> string -> result gen_response;
  (** what [str.format] does from a replacement field on that is not a
      plain name (empty or numeric name, attribute or index access,
      conversion, format specification, unclosed brace) *)
  format_field_other : string -> dict -> result string;
  mime_as_string : list event -> mime_message -> result string;
  smtp : list event -> smtp_action -> option exn;
  (** [datetime.now().strftime("%Y-%m-%d %H:%M:%S")] *)
  now : list event -> string;
  (** opening the log file for appending fails *)
  log_open_fails : list event -> option exn;
  (** [werkzeug.utils.secure_filename] *)
  secure_filename : string -> string;
  (** [file.save(path)] fails *)
  save_fails : list event -> string -> option exn
}.

(** ** csv.reader and its field size limit *)

Module Csv.

(** [csv.field_size_limit()], never changed by the program. *)
Definition field_limit : N := 131072.

(** The reader adds the characters of a cell one by one, and refuses the
    one that comes when the cell already has as many as the limit. *)
Fixpoint add_chars (field_len : N) (s : string) : bool :=
  match s with
  | EmptyString => true
  | String _ r =>
      if (field_limit <=? field_len)%N then false else add_chars (N.succ field_len) r
  end.

(** The reader accepts the cell: it has no more characters than the
    limit. *)
Definition field_ok (cell : string) : bool := add_chars 0 cell.

Definition row_ok (row : list string) : bool := forallb field_ok row.

Definition rows_ok (rows : list (list string)) : bool := forallb row_ok rows.

(** What [str(e)] prints for the [csv.Error] of a longer cell. *)
Definition field_error : exn :=
  OtherException "field larger than field limit (131072)".

End Csv.

(** ** csv.DictReader, on the rows of csv.reader *)

Module DictReader.

(** [reader.fieldnames]: the first row of the file, [None] when there is
    no row at all. *)
Definition fieldnames (rows : list (list string)) : option (list string) :=
  match rows with
  | [] => None
  | h :: _ => Some h
  end.

(** [dict(zip(fieldnames, row))] *)
Fixpoint zip_into (d : dict) (names row : list string) : dict :=
  match names, row with
  | k :: names', v :: row' => zip_into (dict_set d k (VStr v)) names' row'
  | _, _ => d
  end.

(** One row as a dictionary, on its [str] keys: the cells under their
    column names, and [None] ([restval]) under the names a short row does
    not reach.  The surplus cells of a long row go under the key [None]
    ([restkey]); no [get] of the program reads that key, and [has_restkey]
    says whether the dictionary has it. *)
Definition row_dict (names row : list string) : dict :=
  fold_left (fun d k => dict_set d k VNone)
            (skipn (length row) names)
            (zip_into [] names row).

(** [None in row_dict]: the row has more cells than the header. *)
Definition has_restkey (names row : list string) : bool :=
  (length names <? length row)%nat.

Definition is_blank (row : list string) : bool :=
  match row with [] => true | _ => false end.

(** [list(reader)]: the rows after the header, blank rows skipped. *)
Definition entries (rows : list (list string)) : list dict :=
  match rows with
  | [] => []
  | names :: data => map (row_dict names) (filter (fun r => negb (is_blank r)) data)
  end.

(** Some entry among the last [n] of [list(reader)] has the key [None]. *)
Definition restkey_in_last (n : nat) (rows : list (list string)) : bool :=
  match rows with
  | [] => false
  | names :: data =>
      let kept := filter (fun r => negb (is_blank r)) data in
      existsb (has_restkey names) (skipn (length kept - n) kept)
  end.

End DictReader.

(** ** excel_processor.py *)

(** The two optional arguments of [extract_data_from_csv]: absent, one
    name, or a list of names. *)
Inductive col_options : Type :=
| ColDefault
| ColOne (name : string)
| ColMany (names : list string).

Definition default_email_cols : list string :=
  ["Email"; "Email Address"; "E-mail"; "email"; "Contact Email"; "EmailID";
   "CONTACT_EMAIL"].

Definition default_company_cols : list string :=
  ["Company Name"; "Company"; "Organization"; "company_name"; "Account Name";
   "CompanyName"; "COMPANY_NAME"].

Definition resolve_options (default : list string) (o : col_options) : list string :=
  match o with
  | ColDefault => default
  | ColOne name => [name]
  | ColMany names => names
  end.

(** [{name.strip().lower(): name for name in reader.fieldnames}] *)
Definition normalized_fieldnames_map (names : list string) : pydict string :=
  fold_left (fun d name => dict_set d (PyStr.lower (PyStr.strip name)) name) names [].

(** The loop over the candidate names: the first candidate found in the
    header wins. *)
Fixpoint find_column (nmap : pydict string) (options : list string) : option string :=
  match options with
  | [] => None
  | option :: rest =>
      match dict_lookup nmap (PyStr.lower (PyStr.strip option)) with
      | Some name => Some name
      | None => find_column nmap rest
      end
  end.

(** The body of the loop over the rows: [None] when the row is skipped. *)
Definition extract_row (actual_email_col : string) (actual_company_col : option string)
           (row : dict) : option dict :=
  let email := dict_get row actual_email_col VNone in
  let company_name_to_store :=
    if truthy_opt actual_company_col then
      match dict_get row (str_opt actual_company_col) VNone with
      | VNone => "N/A"
      | company_name_from_row =>
          if String.eqb (PyStr.strip (py_str company_name_from_row)) "" then "N/A"
          else PyStr.strip (py_str company_name_from_row)
      end
    else "N/A" in
  match email with
  | VStr e =>
      if negb (truthy email) || String.eqb (PyStr.strip e) "" then None
      else Some [("Email", VStr (PyStr.strip e));
                 ("Company Name", VStr company_name_to_store)]
  | _ => None
  end.

Fixpoint extract_rows (actual_email_col : string) (actual_company_col : option string)
         (rows : list dict) : list dict :=
  match rows with
  | [] => []
  | row :: rest =>
      match extract_row actual_email_col actual_company_col row with
      | Some data_entry => data_entry :: extract_rows actual_email_col actual_company_col rest
      | None => extract_rows actual_email_col actual_company_col rest
      end
  end.

(** What the function returns for each state of the file. *)
Definition extract_from_source (src : csv_source)
           (email_col_options company_col_options : col_options) : list dict :=
  let email_col_options := resolve_options default_email_cols email_col_options in
  let company_col_options := resolve_options default_company_cols company_col_options in
  match src with
  | FileMissing => []
  | FileUnreadable _ => []
  | FileRows rows =>
      match DictReader.fieldnames rows with
      | None | Some [] => []
      | Some names =>
          let nmap := normalized_fieldnames_map names in
          let actual_email_col := find_column nmap email_col_options in
          let actual_company_col := find_column nmap company_col_options in
          if negb (truthy_opt actual_email_col) then []
          else if negb (Csv.rows_ok rows) then []     (* csv.Error, caught *)
          else extract_rows (str_opt actual_email_col) actual_company_col
                            (DictReader.entries rows)
      end
  end.

Definition read_file (w : world) (file_path : string) : csv_source :=
  dict_get (files w) file_path FileMissing.

Definition extract_data_from_csv (file_path : string)
           (email_col_options company_col_options : col_options) : M (list dict) :=
  fun w => (Val (extract_from_source (read_file w file_path)
                                     email_col_options company_col_options), w).

(** ** str.format with keyword arguments only *)

Module Format.

Inductive mode : Type :=
| InText
| InField (name : string).

Definition is_digit (c : ascii) : bool :=
  let n := nat_of_ascii c in ((48 <=? n) && (n <=? 57))%nat.

Fixpoint all_digits (s : string) : bool :=
  match s with
  | EmptyString => true
  | String c r => is_digit c && all_digits r
  end.

(** The characters that end a plain name before the closing brace. *)
Definition special (c : ascii) : bool :=
  PyStr.mem_char c "{[.!:".

Definition prepend (p : string) (r : result string) : result string :=
  match r with
  | Val s => Val (p ++ s)
  | Exn e => Exn e
  end.

Section WithOther.

(** [other rest d]: the outcome of formatting [rest], a suffix of the
    template that starts at the brace of a field that is not a plain
    name. *)
Variable other : string -> dict -> result string.
Variable d : dict.

(** A scan from left to right.  Doubled braces are literal braces, a
    closing brace alone is an error, a field [{name}] is replaced by
    [str(d[name])], and the first error is the one raised. *)
Fixpoint scan (m : mode) (t : string) : result string :=
  match m, t with
  | InText, EmptyString => Val ""
  | InText, String c r =>
      if Ascii.eqb c "{" then
        match r with
        | String c' r' =>
            if Ascii.eqb c' "{" then prepend "{" (scan InText r')
            else scan (InField "") r
        | EmptyString => scan (InField "") r
        end
      else if Ascii.eqb c "}" then
        match r with
        | String c' r' =>
            if Ascii.eqb c' "}" then prepend "}" (scan InText r')
            else Exn (ValueError "Single '}' encountered in format string")
        | EmptyString => Exn (ValueError "Single '}' encountered in format string")
        end
      else prepend (String c "") (scan InText r)
  | InField name, EmptyString => other ("{" ++ name) d
  | InField name, String c r =>
      if Ascii.eqb c "}" then
        if String.eqb name "" || all_digits name then other ("{" ++ name ++ t) d
        else match dict_lookup d name with
             | None => Exn (KeyError name)
             | Some v => prepend (py_str v) (scan InText r)
             end
      else if special c then other ("{" ++ name ++ t) d
      else scan (InField (name ++ String c "")) r
  end.

(** [template.format] applied to the entries of [d] as keyword arguments. *)
Definition format (template : string) : result string := scan InText template.

End WithOther.

End Format.

Section Program.

Variable E : Env.

Local Abbreviation cfg := (settings E).

(** A call that leaves the process: it is recorded, and the oracle says
    whether it raises. *)
Definition external (ev : event) (answer : list event -> option exn) : M unit :=
  fun w =>
    match answer (trace w) with
    | None => emit ev w
    | Some e => (Exn e, snd (emit ev w))
    end.

Definition external_value {A} (ev : event) (answer : list event -> result A) : M A :=
  fun w => (answer (trace w), snd (emit ev w)).

(** ** email_generator.py *)

Definition nl : string := String (ascii_of_nat 10) "".

Definition full_prompt (company_data : dict) (prompt_for_api : string) : string :=
  nl ++
  "        Generate a professional and personalized email based on the following information and instructions:" ++ nl ++
  nl ++
  "        Company Information:" ++ nl ++
  "        - Company Name: " ++ py_str (dict_get company_data "Company Name" (VStr "N/A")) ++ nl ++
  "        - Other Details: " ++ dict_repr company_data ++ nl ++
  nl ++
  "        User Instructions:" ++ nl ++
  "        " ++ prompt_for_api ++ nl ++
  nl ++
  "        Please generate only the body of the email." ++ nl ++
  "        ".

(** The branch taken when [response.parts] is empty. *)
Definition blocked_message (response : gen_response) : string :=
  let '(block_reason, safety_ratings_str) :=
    match prompt_feedback response with
    | Some (reason, ratings) => (reason, ratings)
    | None => ("Unknown", "N/A")
    end in
  "Error: Failed to generate content. Block Reason: " ++ block_reason ++
  ". Safety Ratings: " ++ safety_ratings_str.

Definition generate_email_content (company_data : dict) (user_prompt : string)
  : M string :=
  emit (EvCallGenerate company_data user_prompt) ;;
  if negb (genai_available E) then
    ret "Error: google-generativeai library is not installed or loaded."
  else if negb (truthy_opt (GEMINI_API_KEY cfg)) then
    ret "Error: GEMINI_API_KEY is not configured in settings."
  else
    try_except
      (external (EvGenaiConfigure (str_opt (GEMINI_API_KEY cfg)))
                (fun h => genai_configure E h (str_opt (GEMINI_API_KEY cfg))) ;;
       external (EvGenaiModel "gemini-1.0-pro")
                (fun h => genai_GenerativeModel E h "gemini-1.0-pro") ;;
       prompt_for_api <-
         lift (Format.format (format_field_other E) company_data user_prompt) ;;
       response <-
         external_value (EvGenaiGenerate (full_prompt company_data prompt_for_api))
           (fun h => genai_generate_content E h (full_prompt company_data prompt_for_api)) ;;
       match parts_raises response with
       | Some e => raise e
       | None =>
           if parts_nonempty response then lift (response_text response)
           else ret (blocked_message response)
       end)
      (fun e => ret ("Error generating email content: " ++ exn_str e)).

(** ** email_sender.py *)

Definition smtp_call (a : smtp_action) : M unit :=
  external (EvSmtp a) (fun h => smtp E h a).

Definition smtp_incomplete_msg : string :=
  "Error: SMTP configuration (HOST, PORT, SENDER_EMAIL) is incomplete in settings.".

(** [all([settings.SMTP_HOST, settings.SMTP_PORT, settings.SMTP_SENDER_EMAIL])] *)
Definition smtp_configured : bool :=
  truthy_opt (SMTP_HOST cfg) && negb (Z.eqb (SMTP_PORT cfg) 0)
  && truthy_opt (SMTP_SENDER_EMAIL cfg).

(** The [try] block of [send_email]. *)
Definition smtp_session (recipient_email : string) (message : mime_message)
  : M (bool * string) :=
  let host := str_opt (SMTP_HOST cfg) in
  let port := SMTP_PORT cfg in
  let sender := str_opt (SMTP_SENDER_EMAIL cfg) in
  (if SMTP_USE_TLS cfg then
     smtp_call (SmtpOpen host port 10) ;;
     smtp_call SmtpEhlo ;;
     smtp_call SmtpStartTls ;;
     smtp_call SmtpEhlo
   else smtp_call (SmtpOpenSSL host port 10)) ;;
  (if truthy_opt (SMTP_USERNAME cfg) && truthy_opt (SMTP_PASSWORD cfg) then
     smtp_call (SmtpLogin (str_opt (SMTP_USERNAME cfg)) (str_opt (SMTP_PASSWORD cfg)))
   else ret tt) ;;
  data <- external_value (EvMimeAsString message)
                         (fun h => mime_as_string E h message) ;;
  smtp_call (SmtpSendmail sender recipient_email data) ;;
  smtp_call SmtpQuit ;;
  ret (true, "Email sent successfully to " ++ recipient_email ++ ".").

(** The four [except] clauses, in their order. *)
Definition smtp_failure (e : exn) : bool * string :=
  let host := str_opt (SMTP_HOST cfg) in
  let port := PyStr.of_Z (SMTP_PORT cfg) in
  match e with
  | SMTPAuthenticationError _ =>
      (false, "SMTP Authentication Error for user "
              ++ str_opt (SMTP_USERNAME cfg) ++ ": " ++ exn_str e)
  | SMTPServerDisconnected _ =>
      (false, "SMTP Server Disconnected: " ++ exn_str e
              ++ ". Check server address (" ++ host ++ ") and port (" ++ port ++ ").")
  | SMTPConnectError _ =>
      (false, "SMTP Connection Error: Could not connect to " ++ host
              ++ ":" ++ port ++ ". Error: " ++ exn_str e)
  | _ =>
      (false, "An unexpected error occurred while sending email via "
              ++ host ++ ": " ++ exn_str e)
  end.

(** [send_email] on any body.  The message is assembled after the check
    of the configuration and before the [try]: what [MIMEText] raises
    reaches the caller. *)
Definition send_email_body (recipient_email subject : string) (body : mail_body)
  : M (bool * string) :=
  emit (EvCallSend recipient_email subject (body_text body)) ;;
  if negb smtp_configured then ret (false, smtp_incomplete_msg)
  else
    match body with
    | Unencodable _ error => raise (OtherException error)
    | Encodable text =>
        let message := {| mime_subject := subject;
                          mime_from := str_opt (SMTP_SENDER_EMAIL cfg);
                          mime_to := recipient_email;
                          mime_html := text |} in
        try_except (smtp_session recipient_email message)
                   (fun e => ret (smtp_failure e))
    end.

(** [send_email] on a body of the model, which [MIMEText] accepts. *)
Definition send_email (recipient_email subject body : string) : M (bool * string) :=
  send_email_body recipient_email subject (Encodable body).

(** ** app.py *)

Definition LOG_FILE_PATH : string := "sent_emails.log.csv".
Definition UPLOAD_FOLDER : string := "uploads".

Definition log_fieldnames : list string :=
  ["timestamp"; "recipient"; "subject"; "status"; "message"].

(** What [csv.writer] writes for a cell: nothing for [None], [str(v)]
    otherwise. *)
Definition csv_cell (v : value) : string :=
  match v with
  | VNone => ""
  | _ => py_str v
  end.

Definition set_log (w : world) (rows : list (list string)) : world :=
  {| trace := trace w; log_file := Some rows; files := files w |}.

(** Opening for append creates the file; the header goes in when the
    file did not exist or has size zero; then the row.  A failure to
    open is printed and swallowed. *)
Definition log_email_attempt (recipient : value) (subject status message : string)
  : M unit :=
  fun w =>
    let file_exists := match log_file w with Some _ => true | None => false end in
    let now := now E (trace w) in
    let w1 := snd (emit (EvCallLog recipient subject status message) w) in
    match log_open_fails E (trace w) with
    | Some _ => (Val tt, w1)
    | None =>
        let old := match log_file w with Some rows => rows | None => [] end in
        let header :=
          if negb file_exists || (length old =? 0)%nat then [log_fieldnames] else [] in
        (Val tt,
         set_log w1 (old ++ header
                         ++ [[now; csv_cell recipient; subject; status; message]])%list)
    end.

(** One entry of the [details] list of the summary; the last field is
    stored under ["reason"] or under ["message"]. *)
Inductive detail_note : Type :=
| Reason (text : string)
| Message (text : string).

Record detail : Type := {
  d_recipient : value;
  d_company : value;
  d_status : string;
  d_note : detail_note
}.

(** [results], [emails_sent_count] and [emails_failed_count]. *)
Record tally : Type := {
  results : list detail;
  emails_sent_count : nat;
  emails_failed_count : nat
}.

Definition tally_start : tally :=
  {| results := []; emails_sent_count := 0; emails_failed_count := 0 |}.

Definition add_failed (t : tally) (d : detail) : tally :=
  {| results := (results t ++ [d])%list;
     emails_sent_count := emails_sent_count t;
     emails_failed_count := emails_failed_count t + 1 |}.

Definition add_sent (t : tally) (d : detail) : tally :=
  {| results := (results t ++ [d])%list;
     emails_sent_count := emails_sent_count t + 1;
     emails_failed_count := emails_failed_count t |}.

(** [not recipient_email or not isinstance(recipient_email, str)
     or "@" not in recipient_email] *)
Definition invalid_email (recipient_email : value) : bool :=
  negb (truthy recipient_email)
  || match recipient_email with
     | VStr s => negb (PyStr.contains "@" s)
     | _ => true
     end.

(** [except KeyError as e_key: ...] around a computation: other
    exceptions pass through. *)
Definition try_except_KeyError {A} (m : M A) (handler : exn -> M A) : M A :=
  try_except m (fun e => match e with KeyError _ => handler e | _ => raise e end).

Definition generation_failed (email_body : string) : bool :=
  PyStr.contains "Error:" email_body
  || (PyStr.contains "Dummy email content" email_body
      && PyStr.contains "dummy_generator" email_body).

(** The body of the loop of [process_emails_route]. *)
Definition process_contact (prompt_template : string) (t : tally) (contact_data : dict)
  : M tally :=
  let recipient_email := dict_get contact_data "Email" VNone in
  let company_name :=
    if truthy (dict_get contact_data "Company Name" VNone)
    then dict_get contact_data "Company Name" VNone
    else VStr "Valued Partner" in
  let subject := "Regarding Your Business, " ++ py_str company_name in
  if invalid_email recipient_email then
    let reason := "Missing or invalid email address in CSV row." in
    log_email_attempt (py_or recipient_email (VStr "N/A")) subject "Failed" reason ;;
    ret (add_failed t {| d_recipient := py_or recipient_email (VStr "N/A");
                         d_company := company_name;
                         d_status := "Failed";
                         d_note := Reason reason |})
  else
    generated <-
      try_except_KeyError
        (email_body <- generate_email_content contact_data prompt_template ;;
         ret (inl email_body))
        (fun e_key =>
           let reason := "Prompt formatting error: Missing key " ++ exn_str e_key
                         ++ ". Ensure all prompt placeholders match CSV headers." in
           log_email_attempt recipient_email subject "Failed" reason ;;
           ret (inr (add_failed t {| d_recipient := recipient_email;
                                     d_company := company_name;
                                     d_status := "Failed";
                                     d_note := Reason reason |}))) ;;
    match generated with
    | inr t' => ret t'
    | inl email_body =>
        if generation_failed email_body then
          let reason := "Email content generation issue: " ++ email_body in
          log_email_attempt recipient_email subject "Failed" reason ;;
          ret (add_failed t {| d_recipient := recipient_email;
                               d_company := company_name;
                               d_status := "Failed";
                               d_note := Reason reason |})
        else
          '(success, message) <-
            send_email (py_str recipient_email) subject email_body ;;
          let log_status := if success : bool then "Sent" else "Failed" in
          log_email_attempt recipient_email subject log_status message ;;
          if success then
            ret (add_sent t {| d_recipient := recipient_email;
                               d_company := company_name;
                               d_status := "Sent";
                               d_note := Message message |})
          else
            ret (add_failed t {| d_recipient := recipient_email;
                                 d_company := company_name;
                                 d_status := "Failed";
                                 d_note := Reason message |})
    end.

(** [for contact_data in contacts: ...] *)
Fixpoint process_contacts (prompt_template : string) (contacts : list dict) (t : tally)
  : M tally :=
  match contacts with
  | [] => ret t
  | contact_data :: rest =>
      t' <- process_contact prompt_template t contact_data ;;
      process_contacts prompt_template rest t'
  end.

(** The uploaded file: its name and what [csv.reader] will make of its
    bytes once saved. *)
Record upload : Type := {
  filename : string;
  content : csv_source
}.

Record request : Type := {
  csv_file : option upload;      (* request.files.get('csv_file') *)
  prompt : string                (* request.form.get('prompt', '') *)
}.

Inductive response : Type :=
| JsonError (code : Z) (error : string)
| JsonSummary (message : string)
              (total_contacts_processed emails_sent emails_failed : nat)
              (details : list detail).

(** [os.path.join(folder, name)] *)
Definition path_join (folder name : string) : string :=
  if PyStr.startswith "/" name then name else folder ++ "/" ++ name.

(** [file.save(path)] *)
Definition save_upload (file : upload) (path : string) : M unit :=
  fun w =>
    match save_fails E (trace w) path with
    | Some e => (Exn e, w)
    | None => (Val tt, {| trace := trace w;
                          log_file := log_file w;
                          files := dict_set (files w) path (content file) |})
    end.

Definition no_data_msg (name : string) : string :=
  "No data extracted from " ++ name ++ ". Check file content or column names.".

Definition process_emails_route (req : request) : M response :=
  match csv_file req with
  | None => ret (JsonError 400 "No file part")
  | Some file =>
      if String.eqb (filename file) "" then ret (JsonError 400 "No selected file")
      else if String.eqb (prompt req) "" then
        ret (JsonError 400 "Prompt template required")
      else if PyStr.endswith ".csv" (filename file) then
        try_except
          (let name := secure_filename E (filename file) in
           let uploaded_filepath := path_join UPLOAD_FOLDER name in
           save_upload file uploaded_filepath ;;
           contacts <- extract_data_from_csv uploaded_filepath ColDefault ColDefault ;;
           match contacts with
           | [] =>
               log_email_attempt (VStr "N/A") "Batch Processing Error" "Failed"
                                 (no_data_msg name) ;;
               ret (JsonError 400 (no_data_msg name))
           | _ =>
               t <- process_contacts (prompt req) contacts tally_start ;;
               ret (JsonSummary "Email processing complete."
                                (length contacts)
                                (emails_sent_count t)
                                (emails_failed_count t)
                                (results t))
           end)
          (fun e =>
             let error_str := exn_str e in
             log_email_attempt (VStr "N/A") "Batch Processing Error" "Failed" error_str ;;
             ret (JsonError 500 ("An unexpected error occurred during processing: "
                                 ++ error_str)))
      else ret (JsonError 400 "Invalid file type. Please upload a CSV file.")
  end.

(** *** The stats route *)

Record stats : Type := {
  total_attempts : nat;
  successful_sends : nat;
  failed_sends : nat;
  recent_entries : list dict
}.

Definition stats_zero : stats :=
  {| total_attempts := 0; successful_sends := 0; failed_sends := 0;
     recent_entries := [] |}.

Inductive stats_response : Type :=
| StatsError (code : Z) (error : string)
| StatsEmpty (message : string) (s : stats)
| StatsOk (s : stats).

(** [row.get('status', '').strip().lower() == 'sent']; [strip] on the
    [None] of a short row raises. *)
Definition status_is_sent (row : dict) : result bool :=
  match dict_get row "status" (VStr "") with
  | VStr s => Val (String.eqb (PyStr.lower (PyStr.strip s)) "sent")
  | VNone => Exn (AttributeError "'NoneType' object has no attribute 'strip'")
  | VInt _ => Exn (AttributeError "'int' object has no attribute 'strip'")
  end.

(** The counting loop, on the two counters. *)
Fixpoint count_sends (log_entries : list dict) (successful failed : nat)
  : result (nat * nat) :=
  match log_entries with
  | [] => Val (successful, failed)
  | row :: rest =>
      match status_is_sent row with
      | Val true => count_sends rest (successful + 1) failed
      | Val false => count_sends rest successful (failed + 1)
      | Exn e => Exn e
      end
  end.

(** [l[-n:]] for a positive [n] *)
Definition last_n {A} (n : nat) (l : list A) : list A :=
  skipn (length l - n) l.

(** The body of [stats_route] up to the end of its [try]. *)
Definition read_stats (log : option (list (list string))) : stats_response :=
  match log with
  | None =>
      StatsError 404 "Log file not found. No emails processed yet or logging failed."
  | Some rows =>
      let unreadable (e : exn) :=
        StatsError 500 ("Could not read or parse log file: " ++ exn_str e) in
      match DictReader.fieldnames rows with
      | None => StatsEmpty "Log file is empty." stats_zero
      | Some names =>
          if negb (Csv.row_ok names) then unreadable Csv.field_error
          else
            match names with
            | [] => StatsEmpty "Log file is empty." stats_zero
            | _ =>
                let normalized_log_headers :=
                  map (fun name => PyStr.lower (PyStr.strip name)) names in
                if negb (existsb (String.eqb "status") normalized_log_headers) then
                  StatsError 500
                    "Log file has incorrect format (missing 'status' column)."
                else if negb (Csv.rows_ok rows) then unreadable Csv.field_error
                else
                  let log_entries := DictReader.entries rows in
                  match count_sends log_entries 0 0 with
                  | Val (successful, failed) =>
                      StatsOk {| total_attempts := length log_entries;
                                 successful_sends := successful;
                                 failed_sends := failed;
                                 recent_entries := last_n 10 log_entries |}
                  | Exn e => unreadable e
                  end
            end
      end
  end.

(** What [jsonify] raises when it sorts the keys of an entry that has
    the key [None] beside its [str] keys. *)
Definition unsortable_keys : exn :=
  OtherException "'<' not supported between instances of 'NoneType' and 'str'".

(** The route: the reading above, then [jsonify(stats)], which is outside
    the [try]. *)
Definition stats_route : M stats_response :=
  fun w =>
    match read_stats (log_file w) with
    | StatsOk s =>
        if DictReader.restkey_in_last 10 (rows_of (log_file w))
        then (Exn unsortable_keys, w)
        else (Val (StatsOk s), w)
    | r => (Val r, w)
    end.

(** *** The test route that sends one message *)

Inductive test_response : Type :=
| TestError (code : Z) (error : string)
| TestSuccess (message : string)
| TestFailure (message : string).

Definition send_test_email_route (recipient : option string) : M test_response :=
  if negb (truthy_opt recipient) then
    ret (TestError 400 "Missing 'recipient' query parameter.")
  else
    let recipient := str_opt recipient in
    let test_company_data :=
      [("Company Name", VStr "TestCo via AppRoute"); ("Email", VStr recipient);
       ("Industry", VStr "Testing")] in
    let test_prompt :=
      "Generate a very brief test email for {Company Name} confirming the email system for {Email} is working." in
    email_body <- generate_email_content test_company_data test_prompt ;;
    log_email_attempt (VStr recipient) "Test Email from Flask App"
                      "Test - Attempted" "N/A (Test Route)" ;;
    let fallback :=
      PyStr.contains "Error:" email_body || PyStr.contains "Dummy" email_body in
    let email_subject :=
      if fallback then "Fallback Test Email from Flask App (Generator Issue)"
      else "Test Email from Flask App" in
    let email_body :=
      if fallback then
        "<p>Hello " ++ recipient ++ ",</p><p>This is a test email. Generator Output: "
        ++ email_body ++ "</p>"
      else email_body in
    '(success, message) <- send_email recipient email_subject email_body ;;
    log_email_attempt (VStr recipient) email_subject
                      (if success : bool then "Test - Sent" else "Test - Failed")
                      message ;;
    if success then ret (TestSuccess message) else ret (TestFailure message).

(** *** The preview route and the generation test route *)

Inductive view_response : Type :=
| ViewError (code : Z) (error : string)
| ViewEmpty (message : string)
| ViewData (data : list dict).

(** [os.path.exists(path)] *)
Definition path_exists (w : world) (path : string) : bool :=
  match read_file w path with
  | FileMissing => false
  | _ => true
  end.

(** [view_data_route], for the configured path [settings.CSV_FILE_PATH]. *)
Definition view_data_route (csv_path : string) : M view_response :=
  fun w =>
    if negb (path_exists w csv_path) then
      (Val (ViewError 404 ("CSV file not found at " ++ csv_path)), w)
    else
      (processed_data <- extract_data_from_csv csv_path ColDefault ColDefault ;;
       match processed_data with
       | [] =>
           fun w' =>
             if path_exists w' csv_path then
               (Val (ViewEmpty "CSV file processed, but no data was extracted."), w')
             else
               (Val (ViewError 500 "Failed to extract data from CSV or file is empty."),
                w')
       | _ => ret (ViewData processed_data)
       end) w.



End Program.

(** ** config.py *)

Module Config.

(** All the attributes of the class [Settings]: the ones the mailer reads,
    and the three of the web application. *)
Record AppSettings : Type := {
  SECRET_KEY : string;
  DEBUG : bool;
  CSV_FILE_PATH : string;
  mail : Settings
}.

(** [v.lower() in ('true', '1', 't')] *)
Definition flag (v : string) : bool :=
  existsb (String.eqb (PyStr.lower v)) ["true"; "1"; "t"].

(** [os.environ.get(name) or default] *)
Definition get_or (environ : pydict string) (name default : string) : string :=
  match dict_lookup environ name with
  | Some v => if String.eqb v "" then default else v
  | None => default
  end.

(** The body of the class, evaluated once at import, on the environment as
    it is after [load_dotenv].  [py_int] is [int] on a string; it is the
    only step that can raise. *)
Definition load (py_int : string -> result Z) (environ : pydict string)
  : result AppSettings :=
  let secret := get_or environ "SECRET_KEY" "a-secure-default-secret-key-please-change" in
  let debug := flag (dict_get environ "FLASK_DEBUG" "False") in
  match
    match dict_lookup environ "SMTP_PORT" with
    | Some v => py_int v
    | None => Val 587%Z
    end
  with
  | Exn e => Exn e
  | Val port =>
      Val {| SECRET_KEY := secret;
             DEBUG := debug;
             CSV_FILE_PATH := get_or environ "CSV_FILE_PATH" "export_50.csv";
             mail := {| GEMINI_API_KEY := dict_lookup environ "GEMINI_API_KEY";
                        SMTP_HOST := dict_lookup environ "SMTP_HOST";
                        SMTP_PORT := port;
                        SMTP_USERNAME := dict_lookup environ "SMTP_USERNAME";
                        SMTP_PASSWORD := dict_lookup environ "SMTP_PASSWORD";
                        SMTP_SENDER_EMAIL := dict_lookup environ "SMTP_SENDER_EMAIL";
                        SMTP_USE_TLS := flag (dict_get environ "SMTP_USE_TLS" "True") |} |}
  end.

(** The environment of the program once its settings are those loaded. *)
Definition with_settings (E : Env) (s : AppSettings) : Env :=
  {| settings := mail s;
     genai_available := genai_available E;
     genai_configure := genai_configure E;
     genai_GenerativeModel := genai_GenerativeModel E;
     genai_generate_content := genai_generate_content E;
     format_field_other := format_field_other E;
     mime_as_string := mime_as_string E;
     smtp := smtp E;
     now := now E;
     log_open_fails := log_open_fails E;
     secure_filename := secure_filename E;
     save_fails := save_fails E |}.

End Config.

(** ** A concrete environment, for the examples *)

Module Demo.

Definition complete_settings : Settings :=
  {| GEMINI_API_KEY := Some "secret-key";
     SMTP_HOST := Some "smtp.example.com";
     SMTP_PORT := 587;
     SMTP_USERNAME := Some "mailer";
     SMTP_PASSWORD := Some "hunter2";
     SMTP_SENDER_EMAIL := Some "sales@example.com";
     SMTP_USE_TLS := true |}.

(** The SMTP host is not set, as with an empty environment. *)
Definition no_host_settings : Settings :=
  {| GEMINI_API_KEY := Some "secret-key";
     SMTP_HOST := None;
     SMTP_PORT := 587;
     SMTP_USERNAME := None;
     SMTP_PASSWORD := None;
     SMTP_SENDER_EMAIL := Some "sales@example.com";
     SMTP_USE_TLS := true |}.

Definition no_key_settings : Settings :=
  {| GEMINI_API_KEY := None;
     SMTP_HOST := Some "smtp.example.com";
     SMTP_PORT := 587;
     SMTP_USERNAME := None;
     SMTP_PASSWORD := None;
     SMTP_SENDER_EMAIL := Some "sales@example.com";
     SMTP_USE_TLS := true |}.

Definition friendly_response : gen_response :=
  {| parts_raises := None;
     parts_nonempty := true;
     response_text := Val "Dear partner, we would love to work with you.";
     prompt_feedback := None |}.

(** Every service answers and nothing fails. *)
Definition env_with (s : Settings) : Env :=
  {| settings := s;
     genai_available := true;
     genai_configure := fun _ _ => None;
     genai_GenerativeModel := fun _ _ => None;
     genai_generate_content := fun _ _ => Val friendly_response;
     format_field_other := fun _ _ => Exn (ValueError "Invalid format string");
     mime_as_string := fun _ m => Val (mime_html m);
     smtp := fun _ _ => None;
     now := fun _ => "2024-05-01 09:30:00";
     log_open_fails := fun _ => None;
     secure_filename := fun name => name;
     save_fails := fun _ _ => None |}.

Definition env_ok : Env := env_with complete_settings.

Definition fresh : world := {| trace := []; log_file := None; files := [] |}.

Definition acme : dict := [("Email", VStr "a@x.com"); ("Company Name", VStr "Acme")].

Definition contacts_csv : csv_source :=
  FileRows [["Email"; "Company Name"; "Industry"];
            ["a@x.com"; "Acme"; "Tech"];
            [""; "NoEmail"; "Retail"]].



Definition contacts_upload : upload :=
  {| filename := "contacts.csv"; content := contacts_csv |}.

Definition contacts_request : request :=
  {| csv_file := Some contacts_upload; prompt := "Hello {Company Name}" |}.

(** A log with one delivery, one failure and one test send. *)
Definition logged : world :=
  {| trace := [];
     log_file :=
       Some [log_fieldnames;
             ["2024-05-01 09:00:00"; "a@x.com"; "Regarding Your Business, Acme";
              "Sent"; "Email sent successfully to a@x.com."];
             ["2024-05-01 09:00:05"; "N/A"; "Regarding Your Business, NoEmail";
              "Failed"; "Missing or invalid email address in CSV row."];
             ["2024-05-01 09:10:00"; "qa@x.com"; "Test Email from Flask App";
              "Test - Sent"; "Email sent successfully to qa@x.com."]];
     files := [] |}.

(** A text of 131073 characters, one more than [csv.reader] accepts in a
    cell. *)
Definition long_text : string := N.iter 131073 (String "x") "".



(** As [env_ok], with a server that refuses the login. *)
Definition refusing_env : Env :=
  {| settings := complete_settings;
     genai_available := true;
     genai_configure := fun _ _ => None;
     genai_GenerativeModel := fun _ _ => None;
     genai_generate_content := fun _ _ => Val friendly_response;
     format_field_other := fun _ _ => Exn (ValueError "Invalid format string");
     mime_as_string := fun _ m => Val (mime_html m);
     smtp := fun _ a =>
               match a with
               | SmtpLogin _ _ => Some (SMTPAuthenticationError "(535, b'bad credentials')")
               | _ => None
               end;
     now := fun _ => "2024-05-01 09:30:00";
     log_open_fails := fun _ => None;
     secure_filename := fun name => name;
     save_fails := fun _ _ => None |}.

(** A response whose parts cannot be read. *)
Definition unreadable_response : gen_response :=
  {| parts_raises := Some (ValueError "The response was blocked.");
     parts_nonempty := false;
     response_text := Exn (ValueError "The response was blocked.");
     prompt_feedback := Some ("SAFETY", "[]") |}.

(** As [env_ok], with a service whose answers cannot be read. *)
Definition unreadable_env : Env :=
  {| settings := complete_settings;
     genai_available := true;
     genai_configure := fun _ _ => None;
     genai_GenerativeModel := fun _ _ => None;
     genai_generate_content := fun _ _ => Val unreadable_response;
     format_field_other := fun _ _ => Exn (ValueError "Invalid format string");
     mime_as_string := fun _ m => Val (mime_html m);
     smtp := fun _ _ => None;
     now := fun _ => "2024-05-01 09:30:00";
     log_open_fails := fun _ => None;
     secure_filename := fun name => name;
     save_fails := fun _ _ => None |}.

End Demo.

(** ** The vocabulary of the specification *)

(** *** Contact Extractor *)

(** The columns the extractor recognises in a header, with the default
    candidate lists. *)
Definition recognized_email_col (names : list string) : option string :=
  find_column (normalized_fieldnames_map names) default_email_cols.

Definition recognized_company_col (names : list string) : option string :=
  find_column (normalized_fieldnames_map names) default_company_cols.

(** Pass-through of the other columns: every extracted contact is the
    record of a row of the file and holds each cell of that row that is
    under neither recognised column. *)
Definition columns_pass_through (src : csv_source) : Prop :=
  forall names data email_col,
    src = FileRows (names :: data) ->
    recognized_email_col names = Some email_col ->
    forall contact,
      In contact (extract_from_source src ColDefault ColDefault) ->
      exists row,
        In row (DictReader.entries (names :: data))
        /\ extract_row email_col (recognized_company_col names) row = Some contact
        /\ forall column cell,
            column <> email_col ->
            Some column <> recognized_company_col names ->
            dict_lookup row column = Some cell ->
            dict_lookup contact column = Some cell.

(** *** Mail Dispatcher *)

Inductive outcome : Type :=
| Delivered
| AuthenticationFailure
| ServerDisconnect
| ConnectionFailure
| TransportFailure
| Misconfigured.

(** How each outcome starts its message. *)
Definition outcome_prefix (k : outcome) : string :=
  match k with
  | Delivered => "Email sent successfully to "
  | AuthenticationFailure => "SMTP Authentication Error for user "
  | ServerDisconnect => "SMTP Server Disconnected: "
  | ConnectionFailure => "SMTP Connection Error: Could not connect to "
  | TransportFailure => "An unexpected error occurred while sending email via "
  | Misconfigured => "Error: SMTP configuration "
  end.

Definition has_kind (k : outcome) (message : string) : Prop :=
  PyStr.startswith (outcome_prefix k) message = true.

Definition is_delivered (k : outcome) : bool :=
  match k with Delivered => true | _ => false end.

(** The outcome that belongs to each way the [try] block can end. *)
Definition session_outcome {A} (r : result A) : outcome :=
  match r with
  | Val _ => Delivered
  | Exn (SMTPAuthenticationError _) => AuthenticationFailure
  | Exn (SMTPServerDisconnected _) => ServerDisconnect
  | Exn (SMTPConnectError _) => ConnectionFailure
  | Exn _ => TransportFailure
  end.

(** The five outcomes of the error taxonomy, and all six. *)
Definition taxonomy : list outcome :=
  [Delivered; AuthenticationFailure; ServerDisconnect; ConnectionFailure;
   TransportFailure].

Definition all_outcomes : list outcome := (taxonomy ++ [Misconfigured])%list.

(** [MIMEText(body, "html")] returns. *)
Definition mime_accepts (body : mail_body) : bool :=
  match body with
  | Encodable _ => true
  | Unencodable _ _ => false
  end.

(** [send_email] returns a pair, of kind [k]: the message starts as [k]
    does and as no other outcome does, and the flag says whether [k] is a
    delivery. *)
Definition returns_kind (k : outcome) (E : Env)
           (recipient_email subject : string) (body : mail_body) (w : world) : Prop :=
  exists success message,
    fst (send_email_body E recipient_email subject body w) = Val (success, message)
    /\ has_kind k message
    /\ success = is_delivered k
    /\ forall k', has_kind k' message -> k' = k.

(** The outcome to expect from the configuration and from the way the
    dialogue with the transport ends. *)
Definition expected_outcome (E : Env) (recipient_email subject : string)
           (body : mail_body) (w : world) : outcome :=
  if smtp_configured E then
    session_outcome
      (fst (smtp_session E recipient_email
              {| mime_subject := subject;
                 mime_from := str_opt (SMTP_SENDER_EMAIL (settings E));
                 mime_to := recipient_email;
                 mime_html := body_text body |}
              (snd (emit (EvCallSend recipient_email subject (body_text body)) w))))
  else Misconfigured.

(** *** Batch Orchestrator *)

(** The ways a contact's email field fails validation. *)
Inductive email_problem (contact : dict) : Prop :=
| EmailMissing :
    dict_lookup contact "Email" = None -> email_problem contact
| EmailNotString (v : value) :
    dict_lookup contact "Email" = Some v -> is_str v = false -> email_problem contact
| EmailWithoutAt (s : string) :
    dict_lookup contact "Email" = Some (VStr s) ->
    PyStr.mem_char "@" s = false -> email_problem contact.

(** The request passes the checks made before the file is read, and the
    upload can be saved. *)
Definition reaches_extraction (E : Env) (req : request) (file : upload) (w : world)
  : Prop :=
  csv_file req = Some file
  /\ filename file <> ""
  /\ prompt req <> ""
  /\ PyStr.endswith ".csv" (filename file) = true
  /\ save_fails E (trace w)
                (path_join UPLOAD_FOLDER (secure_filename E (filename file))) = None.

(** The events of a trace that enter the generator or the dispatcher. *)
Definition is_generate_or_send (ev : event) : bool :=
  match ev with
  | EvCallGenerate _ _ | EvCallSend _ _ _ => true
  | _ => false
  end.

(** The events of a trace that reach the generation service. *)
Definition is_genai_call (ev : event) : bool :=
  match ev with
  | EvGenaiConfigure _ | EvGenaiModel _ | EvGenaiGenerate _ => true
  | _ => false
  end.

(** The events of a trace that reach the mail transport. *)
Definition is_network_call (ev : event) : bool :=
  match ev with
  | EvSmtp _ => true
  | _ => false
  end.

Definition count_status (status : string) (details : list detail) : nat :=
  length (filter (fun d => String.eqb (d_status d) status) details).

(** *** Attempt Logger and stats *)

(** A log the logger itself has written: absent, empty, or the logger's
    header followed by rows of five cells. *)
Definition log_wf (log : option (list (list string))) : Prop :=
  match log with
  | None | Some [] => True
  | Some (header :: rows) =>
      header = log_fieldnames /\ Forall (fun row => length row = 5) rows
  end.

(** Every cell of the log is within the field limit of the reader. *)
Definition log_readable (log : option (list (list string))) : Prop :=
  Csv.rows_ok (rows_of log) = true.

(** The content of the log after one more row: the header comes first
    when the file was absent or empty. *)
Definition log_after (log : option (list (list string))) (row : list string)
  : list (list string) :=
  match log with
  | None | Some [] => [log_fieldnames; row]
  | Some rows => (rows ++ [row])%list
  end.

(** The rows of the log as the stats route reads them. *)
Definition log_entries_of (log : option (list (list string))) : list dict :=
  match log with
  | Some rows => DictReader.entries rows
  | None => []
  end.


(** The status of a log entry counts as a send: stripped and lowercased it
    is exactly [sent]. *)
Definition counts_as_sent (row : dict) : bool :=
  match dict_get row "status" (VStr "") with
  | VStr s => String.eqb (PyStr.lower (PyStr.strip s)) "sent"
  | _ => false
  end.

Definition stats_of (r : stats_response) : option stats :=
  match r with
  | StatsOk s | StatsEmpty _ s => Some s
  | StatsError _ _ => None
  end.

(** *** Traces *)

(** The trace only grows. *)
Definition extends (w w' : world) : Prop :=
  exists new, trace w' = (new ++ trace w)%list.

Definition monotone {A} (m : M A) : Prop :=
  forall w, extends w (snd (m w)).

(** *** Further vocabulary *)

(** A header or candidate name as it is compared: stripped, lowercased. *)
Definition norm (name : string) : string := PyStr.lower (PyStr.strip name).

(** The first character is white space; the last character is. *)
Definition starts_with_space (s : string) : bool :=
  match s with
  | EmptyString => false
  | String c _ => PyStr.is_space c
  end.

Fixpoint ends_with_space (s : string) : bool :=
  match s with
  | EmptyString => false
  | String c EmptyString => PyStr.is_space c
  | String _ r => ends_with_space r
  end.

(** The email cells that make a contact, stripped, in the order of the
    cells. *)
Fixpoint kept_emails (cells : list value) : list string :=
  match cells with
  | [] => []
  | VStr e :: rest =>
      if String.eqb (PyStr.strip e) "" then kept_emails rest
      else PyStr.strip e :: kept_emails rest
  | _ :: rest => kept_emails rest
  end.

(** The events of the generator and those of the dispatcher. *)
Definition is_generator_event (ev : event) : bool :=
  match ev with
  | EvCallGenerate _ _ | EvGenaiConfigure _ | EvGenaiModel _ | EvGenaiGenerate _ => true
  | _ => false
  end.

Definition is_sender_event (ev : event) : bool :=
  match ev with
  | EvCallSend _ _ _ | EvMimeAsString _ | EvSmtp _ => true
  | _ => false
  end.

(** The request to the generation service itself. *)
Definition is_generation_request (ev : event) : bool :=
  match ev with
  | EvGenaiGenerate _ => true
  | _ => false
  end.

Definition is_log_call (ev : event) : bool :=
  match ev with
  | EvCallLog _ _ _ _ => true
  | _ => false
  end.

(** A computation that adds only events accepted by [P] and leaves the
    log and the files as they are. *)
Definition emits_only (P : event -> bool) {A} (m : M A) : Prop :=
  forall w,
  exists new,
    trace (snd (m w)) = (new ++ trace w)%list
    /\ forallb P new = true
    /\ log_file (snd (m w)) = log_file w
    /\ files (snd (m w)) = files w.

(** The company and the subject the orchestrator uses for a contact. *)
Definition company_of (contact : dict) : value :=
  if truthy (dict_get contact "Company Name" VNone)
  then dict_get contact "Company Name" VNone
  else VStr "Valued Partner".

Definition subject_of (contact : dict) : string :=
  "Regarding Your Business, " ++ py_str (company_of contact).

Definition invalid_reason : string := "Missing or invalid email address in CSV row.".

(** The four ways one turn of the loop can go, with the tally and the
    world it leaves. *)
Inductive contact_turn (E : Env) (prompt_template : string) (t : tally)
          (contact : dict) (w : world) : tally -> world -> Prop :=
| TurnInvalid :
    invalid_email (dict_get contact "Email" VNone) = true ->
    contact_turn E prompt_template t contact w
      (add_failed t {| d_recipient := py_or (dict_get contact "Email" VNone) (VStr "N/A");
                       d_company := company_of contact;
                       d_status := "Failed";
                       d_note := Reason invalid_reason |})
      (snd (log_email_attempt E (py_or (dict_get contact "Email" VNone) (VStr "N/A"))
                              (subject_of contact) "Failed" invalid_reason w))
| TurnNotGenerated (email_body : string) (w1 : world) :
    invalid_email (dict_get contact "Email" VNone) = false ->
    generate_email_content E contact prompt_template w = (Val email_body, w1) ->
    generation_failed email_body = true ->
    contact_turn E prompt_template t contact w
      (add_failed t {| d_recipient := dict_get contact "Email" VNone;
                       d_company := company_of contact;
                       d_status := "Failed";
                       d_note := Reason ("Email content generation issue: "
                                         ++ email_body) |})
      (snd (log_email_attempt E (dict_get contact "Email" VNone) (subject_of contact)
                              "Failed"
                              ("Email content generation issue: " ++ email_body) w1))
| TurnSent (email_body : string) (w1 : world) (message : string) (w2 : world) :
    invalid_email (dict_get contact "Email" VNone) = false ->
    generate_email_content E contact prompt_template w = (Val email_body, w1) ->
    generation_failed email_body = false ->
    send_email E (py_str (dict_get contact "Email" VNone)) (subject_of contact)
               email_body w1 = (Val (true, message), w2) ->
    contact_turn E prompt_template t contact w
      (add_sent t {| d_recipient := dict_get contact "Email" VNone;
                     d_company := company_of contact;
                     d_status := "Sent";
                     d_note := Message message |})
      (snd (log_email_attempt E (dict_get contact "Email" VNone) (subject_of contact)
                              "Sent" message w2))
| TurnNotSent (email_body : string) (w1 : world) (message : string) (w2 : world) :
    invalid_email (dict_get contact "Email" VNone) = false ->
    generate_email_content E contact prompt_template w = (Val email_body, w1) ->
    generation_failed email_body = false ->
    send_email E (py_str (dict_get contact "Email" VNone)) (subject_of contact)
               email_body w1 = (Val (false, message), w2) ->
    contact_turn E prompt_template t contact w
      (add_failed t {| d_recipient := dict_get contact "Email" VNone;
                       d_company := company_of contact;
                       d_status := "Failed";
                       d_note := Reason message |})
      (snd (log_email_attempt E (dict_get contact "Email" VNone) (subject_of contact)
                              "Failed" message w2)).

(** The world once the upload is saved. *)
Definition saved (E : Env) (file : upload) (w : world) : world :=
  {| trace := trace w;
     log_file := log_file w;
     files := dict_set (files w)
                       (path_join UPLOAD_FOLDER (secure_filename E (filename file)))
                       (content file) |}.

(** The text of a detail, under whichever key it is stored. *)
Definition note_text (d : detail) : string :=
  match d_note d with
  | Reason text | Message text => text
  end.

(** The number of log entries that count as sent, and of the others. *)
Definition sent_rows (log : option (list (list string))) : nat :=
  length (filter counts_as_sent (log_entries_of log)).

Definition failed_rows (log : option (list (list string))) : nat :=
  length (filter (fun row => negb (counts_as_sent row)) (log_entries_of log)).

(** The calls of the logger in a list of events, as recipient, status and
    message, in the order of the list. *)
Fixpoint log_calls (events : list event) : list (value * string * string) :=
  match events with
  | [] => []
  | EvCallLog recipient _ status message :: rest =>
      (recipient, status, message) :: log_calls rest
  | _ :: rest => log_calls rest
  end.

(** What the log call for a detail carries. *)
Definition log_call_of (d : detail) : value * string * string :=
  (d_recipient d, d_status d, note_text d).

(** The dialogue with the mail transport that a configuration prescribes,
    in program order; [data] is the message as [as_string] returned it. *)
Definition smtp_script (s : Settings) (recipient_email : string) (message : mime_message)
           (data : string) : list event :=
  ((if SMTP_USE_TLS s then
      [EvSmtp (SmtpOpen (str_opt (SMTP_HOST s)) (SMTP_PORT s) 10);
       EvSmtp SmtpEhlo; EvSmtp SmtpStartTls; EvSmtp SmtpEhlo]
    else [EvSmtp (SmtpOpenSSL (str_opt (SMTP_HOST s)) (SMTP_PORT s) 10)])
   ++ (if truthy_opt (SMTP_USERNAME s) && truthy_opt (SMTP_PASSWORD s) then
         [EvSmtp (SmtpLogin (str_opt (SMTP_USERNAME s)) (str_opt (SMTP_PASSWORD s)))]
       else [])
   ++ [EvMimeAsString message;
       EvSmtp (SmtpSendmail (str_opt (SMTP_SENDER_EMAIL s)) recipient_email data);
       EvSmtp SmtpQuit])%list.


(** * Properties *)

(** ** The embedding on small inputs *)

Example strip_lower_header : PyStr.lower (PyStr.strip "  Company Name ") = "company name".
Proof. reflexivity. Qed.

(** Characters above 127: the no-break space (code point 160) is white
    space and is printed escaped; the capital E with acute (201) has a
    lowercase (233); the multiplication sign (215) has none. *)
Example strip_no_break_space :
  PyStr.strip (String (ascii_of_nat 160) "Email" ++ String (ascii_of_nat 160) "")
  = "Email".
Proof. reflexivity. Qed.

Example lower_above_ascii :
  PyStr.lower (String (ascii_of_nat 201) "MAIL") = String (ascii_of_nat 233) "mail"
  /\ PyStr.lower (String (ascii_of_nat 215) "") = String (ascii_of_nat 215) "".
Proof. split; reflexivity. Qed.

Example repr_no_break_space :
  PyStr.repr ("a" ++ String (ascii_of_nat 160) "b") = "'a\xa0b'"
  /\ PyStr.repr (String (ascii_of_nat 233) "") = String PyStr.quote
       (String (ascii_of_nat 233) (String PyStr.quote "")).
Proof. split; reflexivity. Qed.

Example header_padded_with_no_break_space :
  extract_from_source
    (FileRows [["Email" ++ String (ascii_of_nat 160) ""; "Company"];
               ["ann@acme.com"; String (ascii_of_nat 160) ""]])
    ColDefault ColDefault
  = [[("Email", VStr "ann@acme.com"); ("Company Name", VStr "N/A")]].
Proof. reflexivity. Qed.

Example str_of_int : PyStr.of_Z 0 = "0" /\ PyStr.of_Z 587 = "587".
Proof. split; reflexivity. Qed.

Example repr_of_a_dict :
  dict_repr [("Email", VStr "a@x.com"); ("n", VInt (-12)); ("k", VNone)]
  = "{'Email': 'a@x.com', 'n': -12, 'k': None}".
Proof. reflexivity. Qed.

Example format_fills_a_field :
  Format.format (fun _ _ => Exn (ValueError "")) Demo.acme "Hello {Company Name}!"
  = Val "Hello Acme!".
Proof. reflexivity. Qed.

Example format_doubled_braces :
  Format.format (fun _ _ => Exn (ValueError "")) Demo.acme "{{Email}} is {Email}"
  = Val "{Email} is a@x.com".
Proof. reflexivity. Qed.

Example format_missing_key :
  Format.format (fun _ _ => Exn (ValueError "")) Demo.acme "{Email} in {Industry}"
  = Exn (KeyError "Industry").
Proof. reflexivity. Qed.

Example format_single_brace :
  Format.format (fun _ _ => Exn (ValueError "")) Demo.acme "50% off} today"
  = Exn (ValueError "Single '}' encountered in format string").
Proof. reflexivity. Qed.

Example extraction_skips_blank_email :
  extract_from_source Demo.contacts_csv ColDefault ColDefault = [Demo.acme].
Proof. reflexivity. Qed.

Example extraction_without_email_column :
  extract_from_source (FileRows [["Name"; "Company"]; ["Ann"; "Acme"]])
                      ColDefault ColDefault = [].
Proof. reflexivity. Qed.

Example extraction_without_company_column :
  extract_from_source (FileRows [["E-mail"]; [" ann@acme.com "]]) ColDefault ColDefault
  = [[("Email", VStr "ann@acme.com"); ("Company Name", VStr "N/A")]].
Proof. reflexivity. Qed.

(** ** Strings and dictionaries *)

Lemma dict_lookup_set_same {V} (d : pydict V) k v :
  dict_lookup (dict_set d k v) k = Some v.
Proof.
  induction d as [|[k' v'] d IH]; simpl.
  - now rewrite String.eqb_refl.
  - destruct (String.eqb k' k) eqn:Hk; simpl; rewrite Hk; auto.
Qed.

Lemma contains_at_mem_char s : PyStr.contains "@" s = PyStr.mem_char "@" s.
Proof.
  induction s as [|c s IH]; [reflexivity|].
  cbn [PyStr.contains PyStr.startswith PyStr.mem_char].
  rewrite IH. destruct s; rewrite andb_true_r, Ascii.eqb_sym; reflexivity.
Qed.

Lemma startswith_app p s : PyStr.startswith p (p ++ s) = true.
Proof.
  induction p as [|c p IH]; simpl; [reflexivity|].
  now rewrite Ascii.eqb_refl.
Qed.

(** Two prefixes of one string: one is a prefix of the other. *)
Lemma startswith_comparable p q s :
  PyStr.startswith p s = true -> PyStr.startswith q s = true ->
  PyStr.startswith p q = true \/ PyStr.startswith q p = true.
Proof.
  revert q s; induction p as [|a p IH]; intros q s Hp Hq; [now left|].
  destruct q as [|b q]; [now right|].
  destruct s as [|c s]; [discriminate|].
  simpl in Hp, Hq.
  apply andb_true_iff in Hp as [Hac Hp], Hq as [Hbc Hq].
  apply Ascii.eqb_eq in Hac, Hbc. subst a b.
  simpl. rewrite Ascii.eqb_refl. simpl.
  eauto.
Qed.

(** ** Contact Extractor *)

Lemma extract_row_shape email_col company_col row contact :
  extract_row email_col company_col row = Some contact ->
  exists email company,
    contact = [("Email", VStr email); ("Company Name", VStr company)]
    /\ email <> "" /\ company <> "".
Proof.
  unfold extract_row.
  set (company := if truthy_opt company_col then _ else _).
  assert (Hc : company <> "").
  { subst company. destruct (truthy_opt company_col); [|discriminate].
    destruct (dict_get row (str_opt company_col) VNone) as [|s|z]; [discriminate| |].
    - simpl py_str. destruct (String.eqb_spec (PyStr.strip s) ""); [discriminate|auto].
    - destruct (String.eqb_spec (PyStr.strip (py_str (VInt z))) "");
        [discriminate|auto]. }
  destruct (dict_get row email_col VNone) as [|e|z]; try discriminate.
  destruct (negb (truthy (VStr e))); simpl; [discriminate|].
  destruct (String.eqb_spec (PyStr.strip e) ""); [discriminate|].
  intros [= <-]. eauto.
Qed.

Lemma extract_rows_In email_col company_col rows contact :
  In contact (extract_rows email_col company_col rows) ->
  exists row, In row rows /\ extract_row email_col company_col row = Some contact.
Proof.
  induction rows as [|row rows IH]; simpl; [tauto|].
  destruct (extract_row email_col company_col row) as [entry|] eqn:Hrow.
  - intros [<-|Hin]; [eauto|].
    destruct (IH Hin) as (r & ? & ?); eauto.
  - intros Hin. destruct (IH Hin) as (r & ? & ?); eauto.
Qed.

Lemma extract_from_source_In src eo co contact :
  In contact (extract_from_source src eo co) ->
  exists email_col company_col row,
    extract_row email_col company_col row = Some contact.
Proof.
  unfold extract_from_source.
  destruct src as [| |rows]; simpl; try tauto.
  destruct (DictReader.fieldnames rows) as [[|n names]|]; simpl; try tauto.
  destruct (negb (truthy_opt _)); simpl; [tauto|].
  destruct (negb (Csv.rows_ok rows)); simpl; [tauto|].
  intros Hin. apply extract_rows_In in Hin as (row & _ & Hrow). eauto.
Qed.

(** C1, as amended.  A contact extracted from a file, whatever the file
    and the candidate column names, has exactly two fields: [Email], a
    non-empty string, and [Company Name], a non-empty string.  No other
    column of the row is in the record. *)
Theorem extracted_contact_has_two_fields src eo co contact :
  In contact (extract_from_source src eo co) ->
  exists email company,
    contact = [("Email", VStr email); ("Company Name", VStr company)]
    /\ email <> "" /\ company <> ""
    /\ forall column,
        column <> "Email" -> column <> "Company Name" ->
        dict_lookup contact column = None.
Proof.
  intros Hin.
  apply extract_from_source_In in Hin as (ec & cc & row & Hrow).
  apply extract_row_shape in Hrow as (email & company & -> & He & Hc).
  exists email, company. repeat split; auto.
  intros column H1 H2. cbn [dict_lookup].
  destruct (String.eqb_spec "Email" column); [congruence|].
  destruct (String.eqb_spec "Company Name" column); [congruence|].
  reflexivity.
Qed.

Lemma extracted_contact_has_two_fields_witness :
  In Demo.acme (extract_from_source Demo.contacts_csv ColDefault ColDefault)
  /\ exists email company,
      Demo.acme = [("Email", VStr email); ("Company Name", VStr company)]
      /\ email <> "" /\ company <> ""
      /\ forall column,
          column <> "Email" -> column <> "Company Name" ->
          dict_lookup Demo.acme column = None.
Proof.
  assert (H : In Demo.acme (extract_from_source Demo.contacts_csv ColDefault ColDefault))
    by (vm_compute; auto).
  split; [exact H|].
  exact (extracted_contact_has_two_fields Demo.contacts_csv ColDefault ColDefault
                                           Demo.acme H).
Defined.

(** C1, as stated, fails: the file has a third column, [Industry], and the
    contact extracted from its first row does not have it. *)
Lemma extra_columns_are_dropped : ~ columns_pass_through Demo.contacts_csv.
Proof.
  intros H.
  destruct (H ["Email"; "Company Name"; "Industry"]
              [["a@x.com"; "Acme"; "Tech"]; [""; "NoEmail"; "Retail"]]
              "Email" eq_refl eq_refl Demo.acme)
    as (row & Hin & _ & Hcols).
  { vm_compute. auto. }
  destruct Hin as [<-|[<-|[]]].
  - specialize (Hcols "Industry" (VStr "Tech")). vm_compute in Hcols.
    assert (Hbad : @None value = Some (VStr "Tech")) by (apply Hcols; congruence).
    discriminate.
  - specialize (Hcols "Industry" (VStr "Retail")). vm_compute in Hcols.
    assert (Hbad : @None value = Some (VStr "Retail")) by (apply Hcols; congruence).
    discriminate.
Qed.

(** ** The monad *)

Ltac unfold_monad :=
  unfold bind, ret, raise, lift, try_except, emit, external, external_value in *.

(** Case analysis on the next thing a computation inspects. *)
Ltac step :=
  match goal with
  | |- context [match ?x with _ => _ end] =>
      match type of x with
      | sumbool _ _ => fail 1
      | _ => destruct x eqn:?
      end
  end.

Lemma extends_refl w : extends w w.
Proof. now exists []. Qed.

Lemma extends_trans w1 w2 w3 : extends w1 w2 -> extends w2 w3 -> extends w1 w3.
Proof.
  intros [n1 H1] [n2 H2]. exists (n2 ++ n1)%list.
  now rewrite H2, H1, app_assoc.
Qed.

Lemma monotone_ret {A} (a : A) : monotone (ret a).
Proof. intros w. apply extends_refl. Qed.

Lemma monotone_raise {A} e : monotone (@raise A e).
Proof. intros w. apply extends_refl. Qed.

Lemma monotone_lift {A} (r : result A) : monotone (lift r).
Proof. intros w. apply extends_refl. Qed.

Lemma monotone_emit ev : monotone (emit ev).
Proof. intros w. now exists [ev]. Qed.

Lemma monotone_bind {A B} (m : M A) (f : A -> M B) :
  monotone m -> (forall a, monotone (f a)) -> monotone (bind m f).
Proof.
  intros Hm Hf w. unfold bind. specialize (Hm w).
  destruct (m w) as [[a|e] w1]; cbn [snd] in *; [|exact Hm].
  exact (extends_trans _ _ _ Hm (Hf a w1)).
Qed.

Lemma monotone_try_except {A} (m : M A) handler :
  monotone m -> (forall e, monotone (handler e)) -> monotone (try_except m handler).
Proof.
  intros Hm Hh w. unfold try_except. specialize (Hm w).
  destruct (m w) as [[a|e] w1]; cbn [snd] in *; [exact Hm|].
  exact (extends_trans _ _ _ Hm (Hh e w1)).
Qed.

Lemma monotone_external ev answer : monotone (external ev answer).
Proof.
  intros w. unfold external. destruct (answer (trace w)); now exists [ev].
Qed.

Lemma monotone_external_value {A} ev (answer : list event -> result A) :
  monotone (external_value ev answer).
Proof. intros w. now exists [ev]. Qed.

Create HintDb monotone.
#[local] Hint Resolve monotone_ret monotone_raise monotone_lift monotone_emit
  monotone_external monotone_external_value : monotone.

(** Monotonicity of a computation written with the combinators. *)
Ltac monotone_steps :=
  repeat first
    [ progress auto with monotone
    | apply monotone_bind; [|intros]
    | apply monotone_try_except; [|intros]
    | match goal with
      | |- monotone (if ?b then _ else _) => destruct b
      | |- monotone (match ?x with _ => _ end) => destruct x
      end ].

(** ** Content Generator *)

(** C7.  When the client library could not be imported, or the credential
    is not configured, [generate_email_content] returns at once one of two
    fixed messages that say which; the only event is its own entry: nothing
    reaches the generation service. *)
Theorem generate_without_client_or_key E company_data user_prompt w :
  genai_available E = false \/ truthy_opt (GEMINI_API_KEY (settings E)) = false ->
  exists message,
    generate_email_content E company_data user_prompt w
    = (Val message,
       {| trace := EvCallGenerate company_data user_prompt :: trace w;
          log_file := log_file w;
          files := files w |})
    /\ (message = "Error: google-generativeai library is not installed or loaded."
        \/ message = "Error: GEMINI_API_KEY is not configured in settings.")
    /\ filter is_genai_call (EvCallGenerate company_data user_prompt :: trace w)
       = filter is_genai_call (trace w).
Proof.
  intros H. unfold generate_email_content. unfold_monad. cbn beta iota.
  destruct (genai_available E); cbn [negb].
  - destruct H as [H|H]; [discriminate|]. rewrite H. cbn [negb]. eauto.
  - eauto.
Qed.

Lemma generate_without_client_or_key_witness :
  exists message,
    generate_email_content (Demo.env_with Demo.no_key_settings) Demo.acme
                           "Hello {Company Name}" Demo.fresh
    = (Val message,
       {| trace := [EvCallGenerate Demo.acme "Hello {Company Name}"];
          log_file := None;
          files := [] |})
    /\ (message = "Error: google-generativeai library is not installed or loaded."
        \/ message = "Error: GEMINI_API_KEY is not configured in settings.")
    /\ filter is_genai_call [EvCallGenerate Demo.acme "Hello {Company Name}"] = [].
Proof.
  exact (generate_without_client_or_key (Demo.env_with Demo.no_key_settings)
           Demo.acme "Hello {Company Name}" Demo.fresh (or_intror eq_refl)).
Defined.

(** The generator never raises: its [except Exception] clause turns every
    failure, a missing placeholder included, into a returned string. *)
Lemma generate_email_content_returns E company_data user_prompt w :
  exists email_body w',
    generate_email_content E company_data user_prompt w = (Val email_body, w').
Proof.
  unfold generate_email_content. unfold_monad. cbn beta iota.
  repeat step; eauto.
Qed.

(** ** Mail Dispatcher *)

(** C3.  When the host, the port or the sender address is not configured,
    [send_email] returns [False] with the message that the SMTP
    configuration is incomplete, and the only event is its own entry: no
    call reaches the transport. *)
Theorem send_email_incomplete_configuration E recipient_email subject body w :
  truthy_opt (SMTP_HOST (settings E)) = false
  \/ SMTP_PORT (settings E) = 0%Z
  \/ truthy_opt (SMTP_SENDER_EMAIL (settings E)) = false ->
  send_email E recipient_email subject body w
  = (Val (false,
          "Error: SMTP configuration (HOST, PORT, SENDER_EMAIL) is incomplete in settings."),
     {| trace := EvCallSend recipient_email subject body :: trace w;
        log_file := log_file w;
        files := files w |})
  /\ filter is_network_call (EvCallSend recipient_email subject body :: trace w)
     = filter is_network_call (trace w).
Proof.
  intros H. split; [|reflexivity].
  unfold send_email, send_email_body. cbn [body_text]. unfold_monad. cbn beta iota.
  assert (Hc : smtp_configured E = false).
  { unfold smtp_configured.
    destruct H as [H|[H|H]]; rewrite H; cbn;
      rewrite ?andb_false_r; reflexivity. }
  rewrite Hc. reflexivity.
Qed.

Lemma send_email_incomplete_configuration_witness :
  send_email (Demo.env_with Demo.no_host_settings) "a@x.com" "Hello" "<p>Hi</p>" Demo.fresh
  = (Val (false,
          "Error: SMTP configuration (HOST, PORT, SENDER_EMAIL) is incomplete in settings."),
     {| trace := [EvCallSend "a@x.com" "Hello" "<p>Hi</p>"];
        log_file := None;
        files := [] |})
  /\ filter is_network_call [EvCallSend "a@x.com" "Hello" "<p>Hi</p>"] = [].
Proof.
  exact (send_email_incomplete_configuration (Demo.env_with Demo.no_host_settings)
           "a@x.com" "Hello" "<p>Hi</p>" Demo.fresh (or_introl eq_refl)).
Defined.

Lemma smtp_session_value E recipient_email message w x w' :
  smtp_session E recipient_email message w = (Val x, w') ->
  x = (true, "Email sent successfully to " ++ recipient_email ++ ".").
Proof.
  unfold smtp_session, smtp_call. unfold_monad.
  repeat step; congruence.
Qed.

Lemma smtp_failure_kind E e :
  fst (smtp_failure E e) = false
  /\ has_kind (session_outcome (@Exn unit e)) (snd (smtp_failure E e)).
Proof.
  destruct e; split; reflexivity.
Qed.

(** No message has two kinds: no prefix of one outcome is a prefix of
    another. *)
Lemma kind_unique k k' message :
  has_kind k message -> has_kind k' message -> k' = k.
Proof.
  unfold has_kind. intros H H'.
  destruct (startswith_comparable _ _ _ H H') as [Hc|Hc];
    destruct k, k'; try reflexivity; vm_compute in Hc; discriminate.
Qed.

(** C4, as amended.  On every configuration, recipient and subject, and
    on every body that the MIME assembly accepts, [send_email] returns a
    pair: no exception of the dialogue with the transport reaches the
    caller.  The pair is of one of six kinds: the five of the taxonomy,
    decided by the way the dialogue ends, and the incomplete
    configuration.  The six messages start differently, and the flag is
    [True] for a delivery only. *)
Theorem send_email_returns_a_pair E recipient_email subject body w :
  mime_accepts body = true ->
  returns_kind (expected_outcome E recipient_email subject body w)
               E recipient_email subject body w
  /\ In (expected_outcome E recipient_email subject body w) all_outcomes.
Proof.
  destruct body as [text|shown error]; [intros _|discriminate].
  split.
  - unfold returns_kind, expected_outcome, send_email_body. cbn [body_text].
    unfold bind at 1, try_except, ret.
    destruct (smtp_configured E); cbn [negb fst snd emit].
    + destruct (smtp_session E recipient_email _ _) as [[x|e] w'] eqn:Hs.
      * apply smtp_session_value in Hs. subst x.
        eexists _, _. cbn [fst session_outcome is_delivered].
        repeat split.
        intros k' Hk'.
        exact (kind_unique _ _ _ (startswith_app (outcome_prefix Delivered) _) Hk').
      * destruct (smtp_failure_kind E e) as [Hf Hk].
        destruct (smtp_failure E e) as [success message]; cbn [fst snd] in *.
        exists success, message. repeat split; auto.
        -- subst success. now destruct e.
        -- intros k' Hk'. exact (kind_unique _ _ _ Hk Hk').
    + eexists _, _. repeat split; eauto.
      intros k' Hk'. refine (kind_unique _ _ _ _ Hk'). reflexivity.
  - unfold expected_outcome.
    destruct (smtp_configured E); [|cbn; tauto].
    destruct (fst _) as [x|[]]; cbn; tauto.
Qed.

Lemma send_email_returns_a_pair_witness :
  mime_accepts (Encodable "<p>Hi</p>") = true
  /\ returns_kind Delivered Demo.env_ok "a@x.com" "Hello" (Encodable "<p>Hi</p>")
                  Demo.fresh
  /\ In Delivered all_outcomes.
Proof.
  split; [reflexivity|].
  exact (send_email_returns_a_pair Demo.env_ok "a@x.com" "Hello"
           (Encodable "<p>Hi</p>") Demo.fresh eq_refl).
Defined.

(** C4, as stated, fails: with no SMTP host configured the pair returned
    is of none of the five kinds of the taxonomy. *)
Lemma incomplete_configuration_is_a_sixth_outcome :
  ~ exists k,
      In k taxonomy
      /\ returns_kind k (Demo.env_with Demo.no_host_settings)
                      "a@x.com" "Hello" (Encodable "<p>Hi</p>") Demo.fresh.
Proof.
  intros (k & Hin & success & message & Hrun & Hk & _).
  vm_compute in Hrun. injection Hrun as _ <-.
  destruct Hin as [<-|[<-|[<-|[<-|[<-|[]]]]]]; vm_compute in Hk; discriminate.
Qed.



Lemma smtp_session_monotone E recipient_email message :
  monotone (smtp_session E recipient_email message).
Proof.
  unfold smtp_session, smtp_call. monotone_steps.
Qed.

Lemma send_email_returns E recipient_email subject body w :
  exists success message w',
    send_email E recipient_email subject body w = (Val (success, message), w').
Proof.
  unfold send_email, send_email_body. cbn [body_text]. unfold_monad. cbn beta iota.
  destruct (negb (smtp_configured E)); [eauto|].
  destruct (smtp_session E recipient_email _ _) as [[[success message]|e] w'].
  - eauto.
  - destruct (smtp_failure E e). eauto.
Qed.

(** ** Attempt Logger *)

Lemma log_email_attempt_run E recipient subject status message w :
  exists w',
    log_email_attempt E recipient subject status message w = (Val tt, w')
    /\ trace w' = EvCallLog recipient subject status message :: trace w
    /\ files w' = files w
    /\ log_file w'
       = match log_open_fails E (trace w) with
         | Some _ => log_file w
         | None => Some (log_after (log_file w)
                           [now E (trace w); csv_cell recipient; subject; status; message])
         end.
Proof.
  unfold log_email_attempt, log_after.
  destruct (log_open_fails E (trace w)).
  - eexists. repeat split.
  - eexists. repeat split. cbn [set_log log_file].
    destruct (log_file w) as [[|r rows]|]; reflexivity.
Qed.

(** ** Batch Orchestrator *)

Lemma email_problem_invalid contact :
  email_problem contact -> invalid_email (dict_get contact "Email" VNone) = true.
Proof.
  unfold invalid_email, dict_get.
  intros [H|v H Hv|s H Hs]; rewrite H.
  - reflexivity.
  - destruct v; [reflexivity|discriminate|apply orb_true_r].
  - rewrite contains_at_mem_char, Hs. apply orb_true_r.
Qed.

(** C5.  A contact whose email is missing, is not a string, or has no
    [@] is recorded as [Failed] with the reason "Missing or invalid email
    address in CSV row.", the failure counter grows by one, and the only
    event is the call of the logger with that status and reason: neither
    the generator nor the dispatcher is entered. *)
Theorem invalid_email_is_failed_without_calls E prompt_template t contact w :
  email_problem contact ->
  exists d subject w',
    process_contact E prompt_template t contact w = (Val (add_failed t d), w')
    /\ d_status d = "Failed"
    /\ d_note d = Reason "Missing or invalid email address in CSV row."
    /\ trace w'
       = EvCallLog (d_recipient d) subject "Failed"
                   "Missing or invalid email address in CSV row." :: trace w
    /\ filter is_generate_or_send (trace w') = filter is_generate_or_send (trace w).
Proof.
  intros H. apply email_problem_invalid in H.
  unfold process_contact. rewrite H. unfold bind at 1.
  match goal with
  | |- context [log_email_attempt E ?r ?s ?st ?m w] =>
      destruct (log_email_attempt_run E r s st m w) as (w' & -> & Htr & _)
  end.
  eexists _, _, w'. unfold ret. split; [reflexivity|].
  cbn [d_status d_note d_recipient]. rewrite Htr. auto.
Qed.

Lemma invalid_email_is_failed_without_calls_witness :
  email_problem [("Email", VStr "not-an-address"); ("Company Name", VStr "Acme")]
  /\ exists d subject w',
      process_contact Demo.env_ok "Hello {Company Name}" tally_start
        [("Email", VStr "not-an-address"); ("Company Name", VStr "Acme")] Demo.fresh
      = (Val (add_failed tally_start d), w')
      /\ d_status d = "Failed"
      /\ d_note d = Reason "Missing or invalid email address in CSV row."
      /\ trace w'
         = EvCallLog (d_recipient d) subject "Failed"
                     "Missing or invalid email address in CSV row." :: trace Demo.fresh
      /\ filter is_generate_or_send (trace w')
         = filter is_generate_or_send (trace Demo.fresh).
Proof.
  assert (H : email_problem
                [("Email", VStr "not-an-address"); ("Company Name", VStr "Acme")])
    by (apply EmailWithoutAt with (s := "not-an-address"); reflexivity).
  split; [exact H|].
  exact (invalid_email_is_failed_without_calls Demo.env_ok "Hello {Company Name}"
           tally_start _ Demo.fresh H).
Defined.

Lemma process_contact_returns E prompt_template t contact w :
  exists t' d w',
    process_contact E prompt_template t contact w = (Val t', w')
    /\ (t' = add_sent t d /\ d_status d = "Sent"
        \/ t' = add_failed t d /\ d_status d = "Failed")
    /\ d_recipient d = py_or (dict_get contact "Email" VNone) (VStr "N/A").
Proof.
  unfold process_contact.
  destruct (invalid_email (dict_get contact "Email" VNone)) eqn:Hinv.
  - unfold bind at 1.
    match goal with
    | |- context [log_email_attempt E ?r ?s ?st ?m w] =>
        destruct (log_email_attempt_run E r s st m w) as (w' & -> & _)
    end.
    eexists _, _, w'. split; [reflexivity|]. split; [right; split|]; reflexivity.
  - assert (Hrec : py_or (dict_get contact "Email" VNone) (VStr "N/A")
                   = dict_get contact "Email" VNone).
    { unfold py_or, invalid_email in *.
      destruct (truthy (dict_get contact "Email" VNone)); [reflexivity|discriminate]. }
    rewrite Hrec.
    unfold try_except_KeyError, try_except. unfold bind at 1 2.
    destruct (generate_email_content_returns E contact prompt_template w)
      as (email_body & w1 & ->).
    unfold ret at 1. cbn beta iota.
    destruct (generation_failed email_body).
    + unfold bind at 1.
      match goal with
      | |- context [log_email_attempt E ?r ?s ?st ?m w1] =>
          destruct (log_email_attempt_run E r s st m w1) as (w' & -> & _)
      end.
      eexists _, _, w'. split; [reflexivity|]. split; [right; split|]; reflexivity.
    + unfold bind at 1.
      match goal with
      | |- context [send_email E ?r ?s ?b w1] =>
          destruct (send_email_returns E r s b w1) as (success & message & w2 & ->)
      end.
      cbn beta iota. unfold bind at 1.
      match goal with
      | |- context [log_email_attempt E ?r ?s ?st ?m w2] =>
          destruct (log_email_attempt_run E r s st m w2) as (w' & -> & _)
      end.
      destruct success; eexists _, _, w'; unfold ret;
        (split; [reflexivity|]);
        (split; [first [left; split; reflexivity | right; split; reflexivity]
                |reflexivity]).
Qed.

Lemma count_status_app status ds ds' :
  count_status status (ds ++ ds') = count_status status ds + count_status status ds'.
Proof.
  unfold count_status. now rewrite filter_app, length_app.
Qed.

Lemma count_status_one status d :
  count_status status [d] = if String.eqb (d_status d) status then 1 else 0.
Proof.
  unfold count_status. cbn [filter]. now destruct (String.eqb _ _).
Qed.

(** The invariant of the loop: each turn appends one entry, for the
    contact of that turn, and adds one to the counter of its status. *)
Lemma process_contacts_invariant E prompt_template contacts :
  forall t w,
  exists ds t' w',
    process_contacts E prompt_template contacts t w = (Val t', w')
    /\ results t' = (results t ++ ds)%list
    /\ emails_sent_count t' = emails_sent_count t + count_status "Sent" ds
    /\ emails_failed_count t' = emails_failed_count t + count_status "Failed" ds
    /\ Forall2 (fun contact d =>
                  d_recipient d = py_or (dict_get contact "Email" VNone) (VStr "N/A")
                  /\ (d_status d = "Sent" \/ d_status d = "Failed"))
               contacts ds.
Proof.
  induction contacts as [|contact rest IH]; intros t w; cbn [process_contacts].
  - exists [], t, w. unfold ret. rewrite app_nil_r. cbn. repeat split; auto.
  - unfold bind.
    destruct (process_contact_returns E prompt_template t contact w)
      as (t1 & d & w1 & -> & [[-> Hst]|[-> Hst]] & Hrec);
      match goal with
      | |- context [process_contacts E prompt_template rest ?t2 w1] =>
          destruct (IH t2 w1) as (ds & t' & w' & -> & Hres & Hs & Hf & Hall)
      end;
      exists (d :: ds), t', w';
      rewrite Hres, Hs, Hf; cbn [add_sent add_failed results emails_sent_count
                                 emails_failed_count];
      rewrite <- app_assoc;
      change (d :: ds) with ([d] ++ ds)%list at 2 3;
      rewrite !count_status_app, !count_status_one, Hst;
      cbn [String.eqb Ascii.eqb Bool.eqb];
      repeat split; auto; lia.
Qed.

Lemma count_status_total ds :
  Forall (fun d => d_status d = "Sent" \/ d_status d = "Failed") ds ->
  count_status "Sent" ds + count_status "Failed" ds = length ds.
Proof.
  unfold count_status.
  induction 1 as [|d ds [Hd|Hd] _ IH]; cbn [filter length]; [reflexivity| |];
    rewrite Hd; cbn; lia.
Qed.

(** The route up to the extraction, for a request that gets there. *)
Ltac enter_route H :=
  let Hfile := fresh "Hfile" in
  let Hname := fresh "Hname" in
  let Hprompt := fresh "Hprompt" in
  let Hcsv := fresh "Hcsv" in
  let Hsave := fresh "Hsave" in
  destruct H as (Hfile & Hname & Hprompt & Hcsv & Hsave);
  unfold process_emails_route; rewrite Hfile;
  apply String.eqb_neq in Hname, Hprompt; rewrite Hname, Hprompt, Hcsv;
  unfold try_except; unfold bind at 1; unfold save_upload; rewrite Hsave;
  unfold bind at 1; unfold extract_data_from_csv, read_file, dict_get;
  cbn [files]; rewrite dict_lookup_set_same.


(** C9.  When the extraction yields at least one contact, the route
    answers with a summary: the total is the number of contacts and equals
    sent plus failed; the details have one entry per contact, in order,
    each for that contact's recipient and with the status "Sent" or
    "Failed"; and the two counters are the numbers of entries of each
    status.  Every turn of the loop returns, appends one entry and adds
    one to the counter of its status. *)
Theorem batch_summary_is_consistent E req file w contacts :
  reaches_extraction E req file w ->
  extract_from_source (content file) ColDefault ColDefault = contacts ->
  contacts <> [] ->
  exists sent failed details w',
    process_emails_route E req w
    = (Val (JsonSummary "Email processing complete."
                        (length contacts) sent failed details), w')
    /\ length contacts = sent + failed
    /\ length details = length contacts
    /\ Forall2 (fun contact d =>
                  d_recipient d = py_or (dict_get contact "Email" VNone) (VStr "N/A")
                  /\ (d_status d = "Sent" \/ d_status d = "Failed"))
               contacts details
    /\ sent = count_status "Sent" details
    /\ failed = count_status "Failed" details
    /\ forall t contact w0,
        exists t' d w1,
          process_contact E (prompt req) t contact w0 = (Val t', w1)
          /\ (t' = add_sent t d /\ d_status d = "Sent"
              \/ t' = add_failed t d /\ d_status d = "Failed").
Proof.
  intros H Hext Hne.
  assert (Hturn : forall t contact w0,
             exists t' d w1,
               process_contact E (prompt req) t contact w0 = (Val t', w1)
               /\ (t' = add_sent t d /\ d_status d = "Sent"
                   \/ t' = add_failed t d /\ d_status d = "Failed")).
  { intros t contact w0.
    destruct (process_contact_returns E (prompt req) t contact w0)
      as (t' & d & w1 & Hrun & Hcase & _).
    eauto. }
  enter_route H. rewrite Hext.
  destruct contacts as [|contact rest]; [congruence|].
  unfold bind at 1.
  match goal with
  | |- context [process_contacts E ?p ?cs tally_start ?w0] =>
      destruct (process_contacts_invariant E p cs tally_start w0)
        as (ds & t' & w' & -> & Hres & Hs & Hf & Hall)
  end.
  cbn [tally_start results emails_sent_count emails_failed_count app] in *.
  exists (emails_sent_count t'), (emails_failed_count t'), (results t'), w'.
  unfold ret. rewrite Hres, Hs, Hf. cbn [Nat.add].
  assert (Hlen : length ds = length (contact :: rest))
    by (symmetry; exact (Forall2_length Hall)).
  assert (Htot : count_status "Sent" ds + count_status "Failed" ds = length ds).
  { apply count_status_total.
    clear - Hall. induction Hall; constructor; tauto. }
  repeat split; auto. lia.
Qed.


Lemma batch_summary_is_consistent_witness :
  (reaches_extraction Demo.env_ok Demo.contacts_request Demo.contacts_upload Demo.fresh
   /\ extract_from_source (content Demo.contacts_upload) ColDefault ColDefault
      = [Demo.acme]
   /\ [Demo.acme] <> [])
  /\ exists sent failed details w',
      process_emails_route Demo.env_ok Demo.contacts_request Demo.fresh
      = (Val (JsonSummary "Email processing complete." 1 sent failed details), w')
      /\ 1 = sent + failed
      /\ length details = 1
      /\ Forall2 (fun contact d =>
                    d_recipient d
                    = py_or (dict_get contact "Email" VNone) (VStr "N/A")
                    /\ (d_status d = "Sent" \/ d_status d = "Failed"))
                 [Demo.acme] details
      /\ sent = count_status "Sent" details
      /\ failed = count_status "Failed" details
      /\ forall t contact w0,
          exists t' d w1,
            process_contact Demo.env_ok "Hello {Company Name}" t contact w0
            = (Val t', w1)
            /\ (t' = add_sent t d /\ d_status d = "Sent"
                \/ t' = add_failed t d /\ d_status d = "Failed").
Proof.
  assert (H : reaches_extraction Demo.env_ok Demo.contacts_request
                                 Demo.contacts_upload Demo.fresh)
    by (repeat split; try reflexivity; discriminate).
  assert (Hne : [Demo.acme] <> []) by discriminate.
  split; [split; [exact H|split; [reflexivity|exact Hne]]|].
  exact (batch_summary_is_consistent Demo.env_ok Demo.contacts_request
           Demo.contacts_upload Demo.fresh [Demo.acme] H eq_refl Hne).
Defined.

(** With the client loaded and the key configured, a placeholder without
    a field does not leave the generator as a [KeyError]: it comes back as
    a string that starts with "Error generating email content: ". *)
Lemma generator_swallows_missing_key E company_data user_prompt key w :
  genai_available E = true ->
  truthy_opt (GEMINI_API_KEY (settings E)) = true ->
  (forall h k, genai_configure E h k = None) ->
  (forall h name, genai_GenerativeModel E h name = None) ->
  Format.format (format_field_other E) company_data user_prompt = Exn (KeyError key) ->
  fst (generate_email_content E company_data user_prompt w)
  = Val ("Error generating email content: " ++ PyStr.repr key).
Proof.
  intros Hlib Hkey Hconf Hmodel Hfmt.
  unfold generate_email_content. unfold_monad. cbn beta iota.
  rewrite Hlib, Hkey. cbn [negb]. cbn beta.
  rewrite Hconf. unfold emit. cbn [trace]. rewrite Hmodel, Hfmt. reflexivity.
Qed.

Lemma send_email_is_recorded E recipient_email subject body w :
  In (EvCallSend recipient_email subject body)
     (trace (snd (send_email E recipient_email subject body w))).
Proof.
  unfold send_email, send_email_body, bind. cbn [body_text]. cbn [emit].
  match goal with
  | |- context [(if ?b then ?m1 else ?m2) ?w1] =>
      assert (Hm : monotone (if b then m1 else m2))
        by (destruct b; [apply monotone_ret|];
            apply monotone_try_except;
            [apply smtp_session_monotone|intros; apply monotone_ret]);
      destruct (Hm w1) as [new Hnew]
  end.
  rewrite Hnew. apply in_or_app. right. cbn. auto.
Qed.

(** Whatever the generator returns is taken for a body when it does not
    have the marks of a failure: the dispatcher is then entered with it. *)
Lemma unmarked_text_reaches_the_dispatcher E prompt_template t contact address text w :
  dict_lookup contact "Email" = Some (VStr address) ->
  invalid_email (VStr address) = false ->
  fst (generate_email_content E contact prompt_template w) = Val text ->
  generation_failed text = false ->
  exists subject,
    In (EvCallSend address subject text)
       (trace (snd (process_contact E prompt_template t contact w))).
Proof.
  intros Hmail Hvalid Hgen Hmark.
  unfold process_contact, dict_get. rewrite Hmail, Hvalid.
  unfold try_except_KeyError, try_except. unfold bind at 1 2.
  destruct (generate_email_content E contact prompt_template w) as [r w1].
  cbn [fst] in Hgen. subst r. unfold ret at 1. cbn beta iota.
  rewrite Hmark. unfold bind at 1. cbn [py_str].
  match goal with
  | |- context [send_email E ?r ?s ?b w1] =>
      pose proof (send_email_is_recorded E r s b w1) as Hrec;
      destruct (send_email E r s b w1) as [[[success message]|e] w2];
      exists s
  end; cbn [snd] in *.
  - unfold bind at 1.
    match goal with
    | |- context [log_email_attempt E ?r ?s ?st ?m w2] =>
        destruct (log_email_attempt_run E r s st m w2) as (w' & -> & Htr & _)
    end.
    destruct success; unfold ret; cbn [snd]; rewrite Htr; now right.
  - exact Hrec.
Qed.

(** Such a string is taken for a body whenever it does not contain
    "Error:": the dispatcher is then entered with it. *)
Lemma missing_key_reaches_the_dispatcher E prompt_template t contact address key w :
  dict_lookup contact "Email" = Some (VStr address) ->
  invalid_email (VStr address) = false ->
  fst (generate_email_content E contact prompt_template w)
  = Val ("Error generating email content: " ++ PyStr.repr key) ->
  generation_failed ("Error generating email content: " ++ PyStr.repr key) = false ->
  exists subject,
    In (EvCallSend address subject
                   ("Error generating email content: " ++ PyStr.repr key))
       (trace (snd (process_contact E prompt_template t contact w))).
Proof.
  intros Hmail Hvalid Hgen Hmark.
  unfold process_contact, dict_get. rewrite Hmail, Hvalid.
  unfold try_except_KeyError, try_except. unfold bind at 1 2.
  destruct (generate_email_content E contact prompt_template w) as [r w1].
  cbn [fst] in Hgen. subst r. unfold ret at 1. cbn beta iota.
  rewrite Hmark. unfold bind at 1. cbn [py_str].
  match goal with
  | |- context [send_email E ?r ?s ?b w1] =>
      pose proof (send_email_is_recorded E r s b w1) as Hrec;
      destruct (send_email E r s b w1) as [[[success message]|e] w2];
      exists s
  end; cbn [snd] in *.
  - unfold bind at 1.
    match goal with
    | |- context [log_email_attempt E ?r ?s ?st ?m w2] =>
        destruct (log_email_attempt_run E r s st m w2) as (w' & -> & Htr & _)
    end.
    destruct success; unfold ret; cbn [snd]; rewrite Htr; now right.
  - exact Hrec.
Qed.

(** C2 at a failing input.  The contact has the fields [Email] and
    [Company Name]; the prompt names [Industry].  With the client loaded
    and the key configured, the generator catches the [KeyError] itself and
    returns "Error generating email content: 'Industry'".  That text does
    not contain "Error:", so the orchestrator takes it for a body, calls
    [send_email] with it, and records the contact as [Sent]. *)
Theorem missing_placeholder_is_mailed :
  fst (generate_email_content Demo.env_ok Demo.acme "Hello {Industry}" Demo.fresh)
  = Val "Error generating email content: 'Industry'"
  /\ generation_failed "Error generating email content: 'Industry'" = false
  /\ exists w',
      process_contact Demo.env_ok "Hello {Industry}" tally_start Demo.acme Demo.fresh
      = (Val (add_sent tally_start
                {| d_recipient := VStr "a@x.com";
                   d_company := VStr "Acme";
                   d_status := "Sent";
                   d_note := Message "Email sent successfully to a@x.com." |}), w')
      /\ In (EvCallSend "a@x.com" "Regarding Your Business, Acme"
                        "Error generating email content: 'Industry'") (trace w')
      /\ In (EvCallLog (VStr "a@x.com") "Regarding Your Business, Acme" "Sent"
                       "Email sent successfully to a@x.com.") (trace w').
Proof.
  split; [reflexivity|]. split; [reflexivity|].
  eexists. split; [vm_compute; reflexivity|].
  split; cbn; tauto.
Qed.

(** ** Attempt Logger and stats *)

Lemma status_is_sent_counts row b :
  status_is_sent row = Val b -> counts_as_sent row = b.
Proof.
  unfold status_is_sent, counts_as_sent.
  destruct (dict_get row "status" (VStr "")); congruence.
Qed.

(** The counting loop adds to each counter the number of rows of its
    kind. *)
Lemma count_sends_filter log_entries :
  forall successful failed successful' failed',
    count_sends log_entries successful failed = Val (successful', failed') ->
    successful' = successful + length (filter counts_as_sent log_entries)
    /\ failed' = failed
                 + length (filter (fun row => negb (counts_as_sent row)) log_entries).
Proof.
  induction log_entries as [|row rest IH]; intros s f s' f'; cbn [count_sends filter].
  - intros [= <- <-]. cbn. lia.
  - destruct (status_is_sent row) as [[|]|e] eqn:Hrow; [| |discriminate];
      apply status_is_sent_counts in Hrow; rewrite Hrow; cbn [negb length];
      intros H; apply IH in H; lia.
Qed.

Lemma filter_partition_length {A} (p : A -> bool) (l : list A) :
  length (filter p l) + length (filter (fun x => negb (p x)) l) = length l.
Proof.
  induction l as [|x l IH]; [reflexivity|].
  cbn [filter]. destruct (p x); cbn [negb length]; lia.
Qed.

Lemma read_stats_ok log st :
  read_stats log = StatsOk st ->
  total_attempts st = length (log_entries_of log)
  /\ successful_sends st = length (filter counts_as_sent (log_entries_of log))
  /\ failed_sends st
     = length (filter (fun row => negb (counts_as_sent row)) (log_entries_of log)).
Proof.
  unfold read_stats, log_entries_of. cbv zeta.
  destruct log as [rows|]; [|discriminate].
  destruct (DictReader.fieldnames rows) as [names|]; [|discriminate].
  destruct (negb (Csv.row_ok names)); [discriminate|].
  destruct names as [|name names]; [discriminate|].
  destruct (negb (existsb _ _)); [discriminate|].
  destruct (negb (Csv.rows_ok rows)); [discriminate|].
  destruct (count_sends (DictReader.entries rows) 0 0) as [[s f]|e] eqn:Hc;
    [|discriminate].
  intros [= <-]. apply count_sends_filter in Hc as [-> ->].
  cbn [total_attempts successful_sends failed_sends]. auto.
Qed.

(** The counts of an empty log are all zero. *)
Lemma read_stats_empty log msg st :
  read_stats log = StatsEmpty msg st -> st = stats_zero.
Proof.
  unfold read_stats. cbv zeta.
  destruct log as [rows|]; [|discriminate].
  destruct (DictReader.fieldnames rows) as [names|]; [|now intros [= _ <-]].
  destruct (negb (Csv.row_ok names)); [discriminate|].
  destruct names as [|name names]; [now intros [= _ <-]|].
  destruct (negb (existsb _ _)); [discriminate|].
  destruct (negb (Csv.rows_ok rows)); [discriminate|].
  destruct (count_sends _ 0 0) as [[? ?]|]; discriminate.
Qed.

(** What the route returns is what it read. *)
Lemma stats_route_value w r :
  fst (stats_route w) = Val r -> read_stats (log_file w) = r.
Proof.
  unfold stats_route.
  destruct (read_stats (log_file w)) as [code msg|msg s|s]; cbn [fst];
    try (now intros [= <-]).
  destruct (DictReader.restkey_in_last 10 _); cbn [fst];
    [discriminate|now intros [= <-]].
Qed.

(** It returns the counts it read when no recent entry has the key
    [None]. *)
Lemma stats_route_counts w st :
  read_stats (log_file w) = StatsOk st ->
  DictReader.restkey_in_last 10 (rows_of (log_file w)) = false ->
  stats_route w = (Val (StatsOk st), w).
Proof. intros H1 H2. unfold stats_route. now rewrite H1, H2. Qed.

(** C10.  Whenever the stats route answers with counts, a row of the log
    is counted in [successful_sends] if and only if its status, stripped
    and lowercased, is exactly "sent", and in [failed_sends] otherwise, so
    that the total is the sum of the two.  The statuses written by the
    test route, "Test - Attempted", "Test - Sent" and "Test - Failed", are
    not "sent" and count as failed. *)
Theorem stats_count_exactly_sent w :
  (forall st,
      fst (stats_route w) = Val (StatsOk st) ->
      successful_sends st = length (filter counts_as_sent (log_entries_of (log_file w)))
      /\ failed_sends st
         = length (filter (fun row => negb (counts_as_sent row))
                          (log_entries_of (log_file w)))
      /\ total_attempts st = length (log_entries_of (log_file w)))
  /\ (forall r st,
         fst (stats_route w) = Val r -> stats_of r = Some st ->
         total_attempts st = successful_sends st + failed_sends st)
  /\ (forall row status,
         dict_lookup row "status" = Some (VStr status) ->
         counts_as_sent row = String.eqb (PyStr.lower (PyStr.strip status)) "sent")
  /\ (forall row status,
         dict_lookup row "status" = Some (VStr status) ->
         In status ["Test - Attempted"; "Test - Sent"; "Test - Failed"] ->
         counts_as_sent row = false).
Proof.
  split; [|split; [|split]].
  - intros st H. apply stats_route_value, read_stats_ok in H. tauto.
  - intros r st Hr Hst. apply stats_route_value in Hr.
    destruct r as [| msg s | s]; cbn in Hst; [discriminate| |]; injection Hst as ->.
    + apply read_stats_empty in Hr as ->. reflexivity.
    + apply read_stats_ok in Hr as (-> & -> & ->).
      symmetry. apply filter_partition_length.
  - intros row status H. unfold counts_as_sent, dict_get. now rewrite H.
  - intros row status H Hin. unfold counts_as_sent, dict_get. rewrite H.
    destruct Hin as [<-|[<-|[<-|[]]]]; reflexivity.
Qed.

Lemma entries_snoc header rows row :
  row <> [] ->
  DictReader.entries (header :: rows ++ [row])
  = (DictReader.entries (header :: rows) ++ [DictReader.row_dict header row])%list.
Proof.
  intros Hrow. unfold DictReader.entries.
  rewrite filter_app, map_app. cbn [filter].
  destruct row; [congruence|reflexivity].
Qed.

(** A row of five cells under the logger's header. *)
Lemma row_dict_log a b c d e :
  DictReader.row_dict log_fieldnames [a; b; c; d; e]
  = [("timestamp", VStr a); ("recipient", VStr b); ("subject", VStr c);
     ("status", VStr d); ("message", VStr e)].
Proof. reflexivity. Qed.

Lemma five_cells (row : list string) :
  length row = 5 -> exists a b c d e, row = [a; b; c; d; e].
Proof.
  destruct row as [|a [|b [|c [|d [|e [|x r]]]]]]; try discriminate.
  intros _. now exists a, b, c, d, e.
Qed.

Lemma status_is_sent_log_row row :
  length row = 5 ->
  exists b, status_is_sent (DictReader.row_dict log_fieldnames row) = Val b.
Proof.
  intros H. apply five_cells in H as (a & b & c & d & e & ->).
  rewrite row_dict_log. unfold status_is_sent. cbn. eauto.
Qed.

Lemma count_sends_returns log_entries :
  Forall (fun row => exists b, status_is_sent row = Val b) log_entries ->
  forall successful failed,
  exists counts, count_sends log_entries successful failed = Val counts.
Proof.
  induction 1 as [|row rest [b Hb] _ IH]; intros s f; cbn [count_sends].
  - eauto.
  - rewrite Hb. destruct b; apply IH.
Qed.

Lemma entries_of_log_rows rows :
  Forall (fun row => length row = 5) rows ->
  Forall (fun row => exists b, status_is_sent row = Val b)
         (DictReader.entries (log_fieldnames :: rows)).
Proof.
  unfold DictReader.entries.
  induction 1 as [|row rest Hrow _ IH]; cbn [filter map]; [constructor|].
  destruct row as [|c row]; [discriminate|]. cbn [DictReader.is_blank negb map].
  constructor; [now apply status_is_sent_log_row|exact IH].
Qed.

(** The stats route answers with counts on every log the logger wrote. *)
Lemma read_stats_log_wf rows :
  Forall (fun row => length row = 5) rows ->
  Csv.rows_ok rows = true ->
  exists st,
    read_stats (Some (log_fieldnames :: rows)) = StatsOk st
    /\ recent_entries st = last_n 10 (DictReader.entries (log_fieldnames :: rows)).
Proof.
  intros H Hok. unfold read_stats. cbv zeta.
  cbn [DictReader.fieldnames].
  change (negb (Csv.row_ok log_fieldnames)) with false. cbn iota.
  unfold log_fieldnames at 1.
  change (negb (existsb _ _)) with false. cbn iota.
  replace (Csv.rows_ok (log_fieldnames :: rows)) with true
    by (symmetry; exact Hok).
  cbn [negb].
  destruct (count_sends_returns _ (entries_of_log_rows rows H) 0 0) as [[s f] ->].
  eauto.
Qed.

Lemma skipn_In {A} n (l : list A) x : In x (skipn n l) -> In x l.
Proof.
  intros H. rewrite <- (firstn_skipn n l). apply in_or_app. now right.
Qed.

(** Rows no longer than the header have no surplus cell. *)
Lemma no_restkey n names data :
  Forall (fun row => length row <= length names) data ->
  DictReader.restkey_in_last n (names :: data) = false.
Proof.
  intros H. unfold DictReader.restkey_in_last.
  apply not_true_is_false. intros Hex.
  apply existsb_exists in Hex as (row & Hin & Hlong).
  apply skipn_In in Hin. apply filter_In in Hin as [Hin _].
  rewrite Forall_forall in H. apply H in Hin.
  unfold DictReader.has_restkey in Hlong. apply Nat.ltb_lt in Hlong. lia.
Qed.

Lemma no_restkey_in_log n rows :
  Forall (fun row => length row = 5) rows ->
  DictReader.restkey_in_last n (log_fieldnames :: rows) = false.
Proof.
  intros H. apply no_restkey. eapply Forall_impl; [|exact H].
  cbn. intros row ->. auto.
Qed.



Lemma log_after_wf log row :
  log_wf log -> length row = 5 ->
  exists rows,
    log_after log row = log_fieldnames :: rows ++ [row]
    /\ Forall (fun r => length r = 5) (rows ++ [row])
    /\ DictReader.entries (log_fieldnames :: rows) = log_entries_of log.
Proof.
  intros Hwf Hrow. unfold log_after, log_entries_of.
  destruct log as [[|header rows]|].
  - exists []. repeat split. now constructor.
  - destruct Hwf as [-> Hrows]. exists rows. repeat split.
    apply Forall_app. split; [exact Hrows|now constructor].
  - exists []. repeat split. now constructor.
Qed.

(** The logger keeps its log well formed. *)
Lemma log_email_attempt_preserves_wf E recipient subject status message w :
  log_wf (log_file w) ->
  log_wf (log_file (snd (log_email_attempt E recipient subject status message w))).
Proof.
  intros Hwf.
  destruct (log_email_attempt_run E recipient subject status message w)
    as (w' & -> & _ & _ & Hlog).
  cbn [snd]. rewrite Hlog.
  destruct (log_open_fails E (trace w)); [exact Hwf|].
  match goal with
  | |- log_wf (Some (log_after _ ?row)) =>
      destruct (log_after_wf (log_file w) row Hwf eq_refl) as (rows & -> & Hfive & _)
  end.
  split; [reflexivity|exact Hfive].
Qed.

(** The rows the test route writes count as failed, also when the message
    went out. *)
Example test_route_rows_count_as_failed :
  let '(r, w') := send_test_email_route Demo.env_ok (Some "qa@x.com") Demo.fresh in
  r = Val (TestSuccess "Email sent successfully to qa@x.com.")
  /\ exists recent,
      read_stats (log_file w')
      = StatsOk {| total_attempts := 2; successful_sends := 0; failed_sends := 2;
                   recent_entries := recent |}.
Proof. vm_compute. eauto. Qed.

(** The reader accepts exactly the cells of at most [field_limit]
    characters. *)
Lemma add_chars_length s :
  forall n,
    (n <= Csv.field_limit)%N ->
    Csv.add_chars n s = true
    <-> (n + N.of_nat (String.length s) <= Csv.field_limit)%N.
Proof.
  induction s as [|c s IH]; intros n Hn; cbn [Csv.add_chars String.length].
  - split; [intros _; lia|reflexivity].
  - destruct (N.leb_spec Csv.field_limit n) as [Hfull|Hroom].
    + split; [discriminate|lia].
    + rewrite IH by lia. lia.
Qed.

Lemma field_ok_length cell :
  Csv.field_ok cell = true
  <-> (N.of_nat (String.length cell) <= Csv.field_limit)%N.
Proof.
  unfold Csv.field_ok. rewrite add_chars_length by (unfold Csv.field_limit; lia).
  reflexivity.
Qed.

Example long_text_is_over_the_limit :
  N.of_nat (String.length Demo.long_text) = (Csv.field_limit + 1)%N
  /\ Csv.field_ok Demo.long_text = false.
Proof. split; vm_compute; reflexivity. Qed.






Lemma stats_count_exactly_sent_witness :
  exists st,
    fst (stats_route Demo.logged) = Val (StatsOk st)
    /\ successful_sends st = 1
    /\ failed_sends st = 2
    /\ total_attempts st = 3.
Proof.
  eexists. split; [vm_compute; reflexivity|].
  exact (proj1 (stats_count_exactly_sent Demo.logged) _ eq_refl).
Defined.

(** * Further properties of the code *)

(** ** Dictionaries and strings *)

Lemma dict_lookup_set {V} (d : pydict V) k k' v :
  dict_lookup (dict_set d k v) k'
  = if String.eqb k k' then Some v else dict_lookup d k'.
Proof.
  induction d as [|[k0 v0] d IH]; cbn [dict_set dict_lookup]; [reflexivity|].
  destruct (String.eqb_spec k0 k) as [->|Hk]; cbn [dict_lookup].
  - now destruct (String.eqb k k').
  - rewrite IH. destruct (String.eqb_spec k0 k') as [->|Hk'];
      [|reflexivity].
    destruct (String.eqb_spec k k'); [congruence|reflexivity].
Qed.

Lemma lstrip_head s :
  match PyStr.lstrip s with
  | EmptyString => True
  | String c _ => PyStr.is_space c = false
  end.
Proof.
  induction s as [|c s IH]; cbn [PyStr.lstrip]; [exact I|].
  destruct (PyStr.is_space c) eqn:Hc; [exact IH|exact Hc].
Qed.

Lemma rstrip_head c s :
  PyStr.is_space c = false ->
  exists r, PyStr.rstrip (String c s) = String c r.
Proof.
  intros Hc. cbn [PyStr.rstrip]. rewrite Hc.
  destruct (PyStr.rstrip s); eauto.
Qed.

Lemma rstrip_idempotent s : PyStr.rstrip (PyStr.rstrip s) = PyStr.rstrip s.
Proof.
  induction s as [|c s IH]; [reflexivity|].
  cbn [PyStr.rstrip].
  destruct (PyStr.rstrip s) as [|c' r] eqn:Hr.
  - destruct (PyStr.is_space c) eqn:Hc; [reflexivity|].
    cbn [PyStr.rstrip]. now rewrite Hc.
  - cbn [PyStr.rstrip] in *. now rewrite IH.
Qed.

(** [strip] leaves nothing to strip. *)
Lemma strip_idempotent s : PyStr.strip (PyStr.strip s) = PyStr.strip s.
Proof.
  unfold PyStr.strip.
  pose proof (lstrip_head s) as Hhead.
  destruct (PyStr.lstrip s) as [|c r]; [reflexivity|].
  destruct (rstrip_head c r Hhead) as [r' Hr]. rewrite Hr.
  cbn [PyStr.lstrip]. rewrite Hhead, <- Hr. apply rstrip_idempotent.
Qed.

(** ** Contact Extractor: the header *)

Lemma normalized_map_lookup names :
  forall (d : pydict string) k,
    dict_lookup (fold_left (fun d name => dict_set d (norm name) name) names d) k
    = None
    <-> (forall name, In name names -> norm name <> k) /\ dict_lookup d k = None.
Proof.
  induction names as [|n names IH]; intros d k; cbn [fold_left].
  - split; [intros H; split; [intros ? []|exact H]|tauto].
  - rewrite IH, dict_lookup_set. split.
    + intros [Hrest Hd].
      destruct (String.eqb_spec (norm n) k); [discriminate|].
      split; [|exact Hd]. intros name [<-|Hin]; auto.
    + intros [Hall Hd]. split; [intros; apply Hall; now right|].
      destruct (String.eqb_spec (norm n) k) as [Heq|]; [|exact Hd].
      exfalso. apply (Hall n); [now left|exact Heq].
Qed.

Lemma normalized_map_value names :
  forall (d : pydict string) k v,
    dict_lookup (fold_left (fun d name => dict_set d (norm name) name) names d) k
    = Some v ->
    (In v names /\ norm v = k) \/ dict_lookup d k = Some v.
Proof.
  induction names as [|n names IH]; intros d k v; cbn [fold_left]; [tauto|].
  intros H. apply IH in H as [[Hin Hv]|H]; [left; split; [now right|exact Hv]|].
  rewrite dict_lookup_set in H.
  destruct (String.eqb_spec (norm n) k) as [Heq|]; [|now right].
  injection H as <-. left. split; [now left|exact Heq].
Qed.

Lemma find_column_none nmap options :
  find_column nmap options = None
  <-> forall option, In option options -> dict_lookup nmap (norm option) = None.
Proof.
  induction options as [|o options IH]; cbn [find_column].
  - split; [intros _ ? []|reflexivity].
  - fold (norm o). destruct (dict_lookup nmap (norm o)) as [name|] eqn:Ho.
    + split; [discriminate|]. intros H. rewrite <- Ho. apply H. now left.
    + rewrite IH. split.
      * intros H option [<-|Hin]; auto.
      * intros H option Hin. apply H. now right.
Qed.

(** The candidate that decides: the first one, in the order of the list,
    that the header has. *)
Lemma find_column_some nmap options col :
  find_column nmap options = Some col ->
  exists before option after,
    options = (before ++ option :: after)%list
    /\ dict_lookup nmap (norm option) = Some col
    /\ forall earlier, In earlier before -> dict_lookup nmap (norm earlier) = None.
Proof.
  induction options as [|o options IH]; cbn [find_column]; [discriminate|].
  fold (norm o). destruct (dict_lookup nmap (norm o)) as [name|] eqn:Ho.
  - intros [= <-]. exists [], o, options. repeat split; auto. intros ? [].
  - intros H. destruct (IH H) as (before & option & after & -> & Hopt & Hbefore).
    exists (o :: before), option, after. repeat split; auto.
    intros earlier [<-|Hin]; auto.
Qed.

Lemma normalized_fieldnames_map_fold names :
  normalized_fieldnames_map names
  = fold_left (fun d name => dict_set d (norm name) name) names [].
Proof. reflexivity. Qed.

Lemma no_candidate_no_column names options :
  (forall name option, In name names -> In option options -> norm name <> norm option) ->
  find_column (normalized_fieldnames_map names) options = None.
Proof.
  intros H. apply find_column_none. intros option Hopt.
  rewrite normalized_fieldnames_map_fold. apply normalized_map_lookup.
  split; [|reflexivity]. intros name Hname. now apply H.
Qed.

(** X1.  A file whose header has no name equal, up to case and surrounding
    white space, to a candidate name for the email column gives no contact
    at all, whatever its rows. *)
Theorem no_email_column_no_contacts names data eo co :
  (forall name option,
      In name names -> In option (resolve_options default_email_cols eo) ->
      norm name <> norm option) ->
  extract_from_source (FileRows (names :: data)) eo co = [].
Proof.
  intros H. unfold extract_from_source. cbn [DictReader.fieldnames].
  destruct names as [|n names]; [reflexivity|].
  now rewrite (no_candidate_no_column _ _ H).
Qed.

Lemma no_email_column_no_contacts_witness :
  extract_from_source (FileRows [["Name"; "Company"]; ["Ann"; "Acme"]])
                      ColDefault ColDefault = [].
Proof.
  apply (no_email_column_no_contacts ["Name"; "Company"] [["Ann"; "Acme"]]
                                     ColDefault ColDefault).
  intros name option [<-|[<-|[]]] Hopt;
    repeat (destruct Hopt as [<-|Hopt]; [vm_compute; discriminate|]);
    destruct Hopt.
Defined.

(** X2.  The candidates are tried in the order of their list and compared
    with the header up to case and surrounding white space: when no
    candidate before [option] matches a header name and [option] matches
    one, the column chosen is a name of the header that matches [option]. *)
Theorem first_matching_candidate_wins names before option after name :
  In name names ->
  norm name = norm option ->
  (forall earlier header,
      In earlier before -> In header names -> norm header <> norm earlier) ->
  exists col,
    find_column (normalized_fieldnames_map names) (before ++ option :: after)
    = Some col
    /\ In col names
    /\ norm col = norm option.
Proof.
  intros Hname Hnorm Hbefore.
  induction before as [|e before IH]; cbn [app find_column].
  - fold (norm option).
    destruct (dict_lookup (normalized_fieldnames_map names) (norm option))
      as [col|] eqn:Hcol.
    + exists col. split; [reflexivity|].
      rewrite normalized_fieldnames_map_fold in Hcol.
      apply normalized_map_value in Hcol as [[Hin Hc]|Hcol]; [auto|discriminate].
    + rewrite normalized_fieldnames_map_fold in Hcol.
      apply normalized_map_lookup in Hcol as [Hall _].
      now destruct (Hall name Hname).
  - fold (norm e).
    assert (He : dict_lookup (normalized_fieldnames_map names) (norm e) = None).
    { rewrite normalized_fieldnames_map_fold. apply normalized_map_lookup.
      split; [|reflexivity]. intros header Hh. apply Hbefore; [now left|exact Hh]. }
    rewrite He. apply IH. intros earlier header He' Hh.
    apply Hbefore; [now right|exact Hh].
Qed.

Lemma first_matching_candidate_wins_witness :
  exists col,
    find_column (normalized_fieldnames_map ["Company"; " E-MAIL "; "email address"])
                (["Email"] ++ "Email Address" :: ["E-mail"; "email"])
    = Some col
    /\ In col ["Company"; " E-MAIL "; "email address"]
    /\ norm col = norm "Email Address".
Proof.
  apply (first_matching_candidate_wins ["Company"; " E-MAIL "; "email address"]
                                       ["Email"] "Email Address" ["E-mail"; "email"]
                                       "email address").
  - cbn. tauto.
  - reflexivity.
  - intros earlier header [<-|[]] [<-|[<-|[<-|[]]]]; vm_compute; discriminate.
Defined.

(** ** Contact Extractor: the rows *)

Lemma extract_row_email email_col company_col row :
  match extract_row email_col company_col row with
  | Some contact =>
      exists e,
        dict_get row email_col VNone = VStr e
        /\ PyStr.strip e <> ""
        /\ dict_lookup contact "Email" = Some (VStr (PyStr.strip e))
  | None => kept_emails [dict_get row email_col VNone] = []
  end.
Proof.
  unfold extract_row.
  destruct (dict_get row email_col VNone) as [|e|z]; try reflexivity.
  cbn [kept_emails].
  destruct (String.eqb_spec (PyStr.strip e) "") as [He|He].
  - now rewrite orb_true_r.
  - destruct (negb (truthy (VStr e))) eqn:Ht; cbn [orb].
    + exfalso. apply He. cbn in Ht.
      destruct (String.eqb_spec e ""); [now subst|discriminate].
    + exists e. auto.
Qed.

Lemma extract_rows_emails email_col company_col rows :
  map (fun contact => dict_get contact "Email" VNone)
      (extract_rows email_col company_col rows)
  = map VStr (kept_emails (map (fun row => dict_get row email_col VNone) rows)).
Proof.
  induction rows as [|row rows IH]; [reflexivity|].
  cbn [extract_rows map].
  pose proof (extract_row_email email_col company_col row) as Hrow.
  destruct (extract_row email_col company_col row) as [contact|].
  - destruct Hrow as (e & Hcell & Hne & Hmail). rewrite Hcell.
    cbn [kept_emails map]. apply String.eqb_neq in Hne. rewrite Hne.
    cbn [map]. unfold dict_get at 1. rewrite Hmail, IH. reflexivity.
  - cbn [kept_emails] in Hrow.
    destruct (dict_get row email_col VNone) as [|e|z]; cbn [kept_emails];
      try exact IH.
    destruct (String.eqb (PyStr.strip e) ""); [exact IH|discriminate Hrow].
Qed.

Lemma kept_emails_length cells : length (kept_emails cells) <= length cells.
Proof.
  induction cells as [|[|e|z] cells IH]; cbn [kept_emails length]; try lia.
  destruct (String.eqb _ _); cbn [length]; lia.
Qed.

(** X3.  When an email column is found and no cell of the file is over
    the field limit of [csv.reader], the contacts come out in the order of
    the file, one for each non-blank row whose email cell is not blank once
    stripped, with that stripped cell as [Email]; rows with a missing or
    blank email are dropped without a trace; so there are at most as many
    contacts as rows after the header. *)
Theorem extraction_keeps_file_order names data eo co col :
  find_column (normalized_fieldnames_map names)
              (resolve_options default_email_cols eo) = Some col ->
  col <> "" ->
  Csv.rows_ok (names :: data) = true ->
  map (fun contact => dict_get contact "Email" VNone)
      (extract_from_source (FileRows (names :: data)) eo co)
  = map VStr (kept_emails (map (fun row => dict_get row col VNone)
                               (DictReader.entries (names :: data))))
  /\ length (extract_from_source (FileRows (names :: data)) eo co) <= length data.
Proof.
  intros Hcol Hne Hok.
  assert (Hext : extract_from_source (FileRows (names :: data)) eo co
                 = extract_rows col
                     (find_column (normalized_fieldnames_map names)
                                  (resolve_options default_company_cols co))
                     (DictReader.entries (names :: data))).
  { unfold extract_from_source. cbn [DictReader.fieldnames].
    destruct names as [|n names].
    - rewrite (proj2 (find_column_none _ _)) in Hcol by reflexivity.
      discriminate.
    - rewrite Hcol, Hok. cbn [truthy_opt str_opt].
      apply String.eqb_neq in Hne. now rewrite Hne. }
  rewrite Hext. split; [apply extract_rows_emails|].
  rewrite <- (length_map (fun contact => dict_get contact "Email" VNone)).
  rewrite extract_rows_emails, length_map.
  etransitivity; [apply kept_emails_length|].
  rewrite length_map. unfold DictReader.entries. rewrite length_map.
  apply filter_length_le.
Qed.

Lemma extraction_keeps_file_order_witness :
  map (fun contact => dict_get contact "Email" VNone)
      (extract_from_source
         (FileRows [["Company"; " E-MAIL "];
                    ["Acme"; " ann@acme.com "]; []; ["Bolt"; "   "]; ["Core"];
                    ["Dune"; "dan@dune.org"]])
         ColDefault ColDefault)
  = map VStr ["ann@acme.com"; "dan@dune.org"]
  /\ length (extract_from_source
               (FileRows [["Company"; " E-MAIL "];
                          ["Acme"; " ann@acme.com "]; []; ["Bolt"; "   "]; ["Core"];
                          ["Dune"; "dan@dune.org"]])
               ColDefault ColDefault) <= 5.
Proof.
  apply (extraction_keeps_file_order
           ["Company"; " E-MAIL "]
           [["Acme"; " ann@acme.com "]; []; ["Bolt"; "   "]; ["Core"];
            ["Dune"; "dan@dune.org"]]
           ColDefault ColDefault " E-MAIL ").
  - reflexivity.
  - discriminate.
  - vm_compute. reflexivity.
Defined.

Lemma extract_row_company_default email_col row contact :
  extract_row email_col None row = Some contact ->
  dict_lookup contact "Company Name" = Some (VStr "N/A").
Proof.
  unfold extract_row. cbn [truthy_opt].
  destruct (dict_get row email_col VNone) as [|e|z]; try discriminate.
  destruct (_ || _); [discriminate|]. now intros [= <-].
Qed.

(** X4.  A file whose header has no name equal, up to case and
    surrounding white space, to a candidate name for the company column is
    not refused: every contact gets the placeholder company [N/A]. *)
Theorem no_company_column_gives_placeholder names data eo co contact :
  (forall name option,
      In name names -> In option (resolve_options default_company_cols co) ->
      norm name <> norm option) ->
  In contact (extract_from_source (FileRows (names :: data)) eo co) ->
  dict_lookup contact "Company Name" = Some (VStr "N/A").
Proof.
  intros H. unfold extract_from_source. cbn [DictReader.fieldnames].
  destruct names as [|n names]; [intros []|].
  rewrite (no_candidate_no_column _ _ H).
  destruct (negb (truthy_opt _)); [intros []|].
  destruct (negb (Csv.rows_ok _)); [intros []|].
  intros Hin. apply extract_rows_In in Hin as (row & _ & Hrow).
  exact (extract_row_company_default _ _ _ Hrow).
Qed.

Lemma no_company_column_gives_placeholder_witness :
  In [("Email", VStr "ann@acme.com"); ("Company Name", VStr "N/A")]
     (extract_from_source (FileRows [["E-mail"; "City"]; [" ann@acme.com "; "Oslo"]])
                          ColDefault ColDefault)
  /\ dict_lookup [("Email", VStr "ann@acme.com"); ("Company Name", VStr "N/A")]
                 "Company Name" = Some (VStr "N/A").
Proof.
  assert (Hin : In [("Email", VStr "ann@acme.com"); ("Company Name", VStr "N/A")]
                   (extract_from_source
                      (FileRows [["E-mail"; "City"]; [" ann@acme.com "; "Oslo"]])
                      ColDefault ColDefault))
    by (vm_compute; auto).
  split; [exact Hin|].
  refine (no_company_column_gives_placeholder
            ["E-mail"; "City"] [[" ann@acme.com "; "Oslo"]] ColDefault ColDefault
            _ _ Hin).
  intros name option [<-|[<-|[]]] Hopt;
    repeat (destruct Hopt as [<-|Hopt]; [vm_compute; discriminate|]);
    destruct Hopt.
Defined.

Lemma extract_row_stripped email_col company_col row contact :
  extract_row email_col company_col row = Some contact ->
  exists email company,
    contact = [("Email", VStr email); ("Company Name", VStr company)]
    /\ PyStr.strip email = email
    /\ PyStr.strip company = company.
Proof.
  unfold extract_row.
  set (company := if truthy_opt company_col then _ else _).
  assert (Hc : PyStr.strip company = company).
  { subst company. destruct (truthy_opt company_col); [|reflexivity].
    destruct (dict_get row (str_opt company_col) VNone) as [|s|z]; [reflexivity| |];
      (destruct (String.eqb _ _); [reflexivity|apply strip_idempotent]). }
  destruct (dict_get row email_col VNone) as [|e|z]; try discriminate.
  destruct (_ || _); [discriminate|].
  intros [= <-]. eexists _, _. split; [reflexivity|].
  split; [apply strip_idempotent|exact Hc].
Qed.

Lemma strip_no_space_at_start s : starts_with_space (PyStr.strip s) = false.
Proof.
  unfold PyStr.strip. pose proof (lstrip_head s) as H.
  destruct (PyStr.lstrip s) as [|c r]; [reflexivity|].
  destruct (rstrip_head c r H) as [r' ->]. exact H.
Qed.

Lemma rstrip_no_space_at_end s : ends_with_space (PyStr.rstrip s) = false.
Proof.
  induction s as [|c s IH]; [reflexivity|].
  cbn [PyStr.rstrip].
  destruct (PyStr.rstrip s) as [|c' r'].
  - destruct (PyStr.is_space c) eqn:Hc; [reflexivity|exact Hc].
  - exact IH.
Qed.

Lemma strip_no_space_at_end s : ends_with_space (PyStr.strip s) = false.
Proof. apply rstrip_no_space_at_end. Qed.

(** X5.  Both fields of every extracted contact are stripped: neither the
    email nor the company name starts or ends with a white-space
    character, whatever the cells of the file look like; stripping them
    again changes nothing. *)
Theorem extracted_fields_are_stripped src eo co contact :
  In contact (extract_from_source src eo co) ->
  exists email company,
    contact = [("Email", VStr email); ("Company Name", VStr company)]
    /\ starts_with_space email = false /\ ends_with_space email = false
    /\ starts_with_space company = false /\ ends_with_space company = false
    /\ PyStr.strip email = email
    /\ PyStr.strip company = company.
Proof.
  intros Hin. apply extract_from_source_In in Hin as (ec & cc & row & Hrow).
  destruct (extract_row_stripped _ _ _ _ Hrow) as (email & company & -> & He & Hc).
  exists email, company. split; [reflexivity|].
  rewrite <- He, <- Hc at 1 2.
  rewrite !strip_no_space_at_start, !strip_no_space_at_end.
  repeat split; assumption.
Qed.

Lemma extracted_fields_are_stripped_witness :
  In [("Email", VStr "ann@acme.com"); ("Company Name", VStr "Acme Ltd")]
     (extract_from_source
        (FileRows [["Email"; "Company"];
                   [String (ascii_of_nat 160) " ann@acme.com "; " Acme Ltd  "]])
        ColDefault ColDefault)
  /\ exists email company,
      [("Email", VStr "ann@acme.com"); ("Company Name", VStr "Acme Ltd")]
      = [("Email", VStr email); ("Company Name", VStr company)]
      /\ starts_with_space email = false /\ ends_with_space email = false
      /\ starts_with_space company = false /\ ends_with_space company = false
      /\ PyStr.strip email = email
      /\ PyStr.strip company = company.
Proof.
  assert (Hin : In [("Email", VStr "ann@acme.com"); ("Company Name", VStr "Acme Ltd")]
                   (extract_from_source
                      (FileRows [["Email"; "Company"];
                                 [String (ascii_of_nat 160) " ann@acme.com ";
                                  " Acme Ltd  "]])
                      ColDefault ColDefault))
    by (vm_compute; auto).
  split; [exact Hin|].
  exact (extracted_fields_are_stripped _ ColDefault ColDefault _ Hin).
Defined.

(** ** Frames: what a computation touches *)

Lemma emits_only_ret P {A} (a : A) : emits_only P (ret a).
Proof. intros w. exists []. repeat split. Qed.

Lemma emits_only_raise P {A} e : emits_only P (@raise A e).
Proof. intros w. exists []. repeat split. Qed.

Lemma emits_only_lift P {A} (r : result A) : emits_only P (lift r).
Proof. intros w. exists []. repeat split. Qed.

Lemma emits_only_emit (P : event -> bool) ev : P ev = true -> emits_only P (emit ev).
Proof. intros H w. exists [ev]. cbn. rewrite H. repeat split. Qed.

Lemma emits_only_external (P : event -> bool) ev answer :
  P ev = true -> emits_only P (external ev answer).
Proof.
  intros H w. exists [ev]. unfold external.
  destruct (answer (trace w)); cbn; rewrite H; repeat split.
Qed.

Lemma emits_only_external_value (P : event -> bool) {A} ev
      (answer : list event -> result A) :
  P ev = true -> emits_only P (external_value ev answer).
Proof. intros H w. exists [ev]. cbn. rewrite H. repeat split. Qed.

Lemma emits_only_compose P (w w1 w2 : world) new1 new2 :
  trace w1 = (new1 ++ trace w)%list /\ forallb P new1 = true
  /\ log_file w1 = log_file w /\ files w1 = files w ->
  trace w2 = (new2 ++ trace w1)%list /\ forallb P new2 = true
  /\ log_file w2 = log_file w1 /\ files w2 = files w1 ->
  trace w2 = ((new2 ++ new1) ++ trace w)%list /\ forallb P (new2 ++ new1) = true
  /\ log_file w2 = log_file w /\ files w2 = files w.
Proof.
  intros (Ht1 & Hp1 & Hl1 & Hf1) (Ht2 & Hp2 & Hl2 & Hf2).
  rewrite Ht2, Ht1, Hl2, Hl1, Hf2, Hf1, forallb_app, Hp1, Hp2, app_assoc.
  repeat split.
Qed.

Lemma emits_only_bind P {A B} (m : M A) (f : A -> M B) :
  emits_only P m -> (forall a, emits_only P (f a)) -> emits_only P (bind m f).
Proof.
  intros Hm Hf w. unfold bind. destruct (Hm w) as (new1 & H1).
  destruct (m w) as [[a|e] w1]; cbn [snd] in *; [|now exists new1].
  destruct (Hf a w1) as (new2 & H2).
  exists (new2 ++ new1)%list. exact (emits_only_compose P _ _ _ _ _ H1 H2).
Qed.

Lemma emits_only_try_except P {A} (m : M A) handler :
  emits_only P m -> (forall e, emits_only P (handler e)) ->
  emits_only P (try_except m handler).
Proof.
  intros Hm Hh w. unfold try_except. destruct (Hm w) as (new1 & H1).
  destruct (m w) as [[a|e] w1]; cbn [snd] in *; [now exists new1|].
  destruct (Hh e w1) as (new2 & H2).
  exists (new2 ++ new1)%list. exact (emits_only_compose P _ _ _ _ _ H1 H2).
Qed.

(** The frame of a computation written with the combinators. *)
Ltac emits_steps :=
  repeat first
    [ apply emits_only_ret
    | apply emits_only_raise
    | apply emits_only_lift
    | apply emits_only_emit; reflexivity
    | apply emits_only_external; reflexivity
    | apply emits_only_external_value; reflexivity
    | apply emits_only_bind; [|intros]
    | apply emits_only_try_except; [|intros]
    | match goal with
      | |- emits_only _ (if ?b then _ else _) => destruct b
      | |- emits_only _ (match ?x with _ => _ end) => destruct x
      end ].

(** The generator adds only its own events and writes nothing. *)
Lemma generate_email_content_frame E company_data user_prompt :
  emits_only is_generator_event (generate_email_content E company_data user_prompt).
Proof. unfold generate_email_content. emits_steps. Qed.

(** The dispatcher adds only its own events and writes nothing. *)
Lemma send_email_frame E recipient_email subject body :
  emits_only is_sender_event (send_email E recipient_email subject body).
Proof. unfold send_email, send_email_body, smtp_session, smtp_call. emits_steps. Qed.

(** ** Batch Orchestrator: one turn and the loop *)

Lemma log_email_attempt_value E recipient subject status message w :
  log_email_attempt E recipient subject status message w
  = (Val tt, snd (log_email_attempt E recipient subject status message w)).
Proof.
  destruct (log_email_attempt_run E recipient subject status message w)
    as (w' & -> & _). reflexivity.
Qed.

(** Every turn of the loop returns, in one of the four ways. *)
Lemma process_contact_turn E prompt_template t contact w :
  exists t' w',
    process_contact E prompt_template t contact w = (Val t', w')
    /\ contact_turn E prompt_template t contact w t' w'.
Proof.
  unfold process_contact. fold (company_of contact). fold (subject_of contact).
  fold invalid_reason.
  destruct (invalid_email (dict_get contact "Email" VNone)) eqn:Hinv.
  - unfold bind at 1. rewrite log_email_attempt_value. unfold ret.
    eexists _, _. split; [reflexivity|]. now apply TurnInvalid.
  - assert (Hrec : py_or (dict_get contact "Email" VNone) (VStr "N/A")
                   = dict_get contact "Email" VNone).
    { unfold py_or, invalid_email in *.
      destruct (truthy (dict_get contact "Email" VNone)); [reflexivity|discriminate]. }
    unfold try_except_KeyError, try_except. unfold bind at 1 2.
    destruct (generate_email_content_returns E contact prompt_template w)
      as (email_body & w1 & Hgen).
    rewrite Hgen. unfold ret at 1. cbn beta iota.
    destruct (generation_failed email_body) eqn:Hfail.
    + unfold bind at 1. rewrite log_email_attempt_value. unfold ret.
      eexists _, _. split; [reflexivity|]. now apply TurnNotGenerated.
    + unfold bind at 1.
      destruct (send_email_returns E (py_str (dict_get contact "Email" VNone))
                                   (subject_of contact) email_body w1)
        as (success & message & w2 & Hsend).
      rewrite Hsend. cbn beta iota. unfold bind at 1.
      rewrite log_email_attempt_value. unfold ret.
      destruct success; eexists _, _; (split; [reflexivity|]).
      * eapply TurnSent; eassumption.
      * eapply TurnNotSent; eassumption.
Qed.

(** An invariant of the turns, which may mention the contacts already
    done, is an invariant of the loop; and the loop always returns. *)
Lemma process_contacts_invariant_rule E prompt_template
      (I : list dict -> tally -> world -> Prop) contacts :
  forall done,
    (forall before contact after t w t' w',
        contacts = (before ++ contact :: after)%list ->
        I (done ++ before)%list t w ->
        contact_turn E prompt_template t contact w t' w' ->
        I (done ++ before ++ [contact])%list t' w') ->
    forall t w,
      I done t w ->
      exists t' w',
        process_contacts E prompt_template contacts t w = (Val t', w')
        /\ I (done ++ contacts)%list t' w'.
Proof.
  induction contacts as [|contact rest IH]; intros done Hstep t w Hi;
    cbn [process_contacts].
  - exists t, w. now rewrite app_nil_r.
  - unfold bind.
    destruct (process_contact_turn E prompt_template t contact w)
      as (t1 & w1 & -> & Hturn).
    replace (done ++ contact :: rest)%list with ((done ++ [contact]) ++ rest)%list
      by now rewrite <- app_assoc.
    apply IH.
    + intros before c after t0 w0 t0' w0' Heq Hi0 Hturn0.
      rewrite <- !app_assoc in *. cbn [app] in *.
      apply (Hstep (contact :: before) c after t0 w0); [now rewrite Heq|exact Hi0|
                                                          exact Hturn0].
    + specialize (Hstep [] contact rest t w t1 w1 eq_refl).
      rewrite app_nil_r in Hstep. exact (Hstep Hi Hturn).
Qed.

(** A request that reaches the extraction and finds contacts runs the loop
    on them, from the empty tally, and answers with the summary. *)
Lemma route_runs_the_loop E req file w (I : list dict -> tally -> world -> Prop) :
  reaches_extraction E req file w ->
  extract_from_source (content file) ColDefault ColDefault <> [] ->
  I [] tally_start (saved E file w) ->
  (forall before contact after t w0 t' w',
      extract_from_source (content file) ColDefault ColDefault
      = (before ++ contact :: after)%list ->
      I before t w0 -> contact_turn E (prompt req) t contact w0 t' w' ->
      I (before ++ [contact])%list t' w') ->
  exists t w',
    process_emails_route E req w
    = (Val (JsonSummary "Email processing complete."
                        (length (extract_from_source (content file)
                                                     ColDefault ColDefault))
                        (emails_sent_count t) (emails_failed_count t) (results t)),
       w')
    /\ I (extract_from_source (content file) ColDefault ColDefault) t w'.
Proof.
  intros H Hne Hstart Hstep. enter_route H.
  destruct (extract_from_source (content file) ColDefault ColDefault)
    as [|contact rest] eqn:Hext; [congruence|].
  unfold bind at 1.
  destruct (process_contacts_invariant_rule E (prompt req) I (contact :: rest) []
              Hstep tally_start (saved E file w) Hstart)
    as (t & w' & Hrun & Hi).
  unfold saved in Hrun. rewrite Hrun. unfold ret. eauto.
Qed.

Lemma frame_of_run P {A} (m : M A) w r w1 :
  emits_only P m -> m w = (r, w1) ->
  exists new,
    trace w1 = (new ++ trace w)%list /\ forallb P new = true
    /\ log_file w1 = log_file w /\ files w1 = files w.
Proof.
  intros Hm Hrun. destruct (Hm w) as (new & H). rewrite Hrun in H. now exists new.
Qed.

Lemma forallb_weaken {A} (P Q : A -> bool) l :
  (forall x, P x = true -> Q x = true) -> forallb P l = true -> forallb Q l = true.
Proof.
  intros H. rewrite !forallb_forall. auto.
Qed.

(** What every turn has in common: one detail, [Sent] or [Failed], added
    to the tally; then one call of the logger for it, made in a world that
    differs from the one of the start by events of the generator and of
    the dispatcher only. *)
Lemma contact_turn_shape E prompt_template t contact w t' w' :
  contact_turn E prompt_template t contact w t' w' ->
  exists d wl new,
    (t' = add_sent t d /\ d_status d = "Sent"
     \/ t' = add_failed t d /\ d_status d = "Failed")
    /\ d_recipient d = py_or (dict_get contact "Email" VNone) (VStr "N/A")
    /\ w' = snd (log_email_attempt E (d_recipient d) (subject_of contact)
                                   (d_status d) (note_text d) wl)
    /\ trace wl = (new ++ trace w)%list
    /\ forallb (fun ev => is_generator_event ev || is_sender_event ev) new = true
    /\ log_file wl = log_file w
    /\ files wl = files w.
Proof.
  assert (Hor : forall v, invalid_email v = false -> py_or v (VStr "N/A") = v).
  { intros v Hv. unfold py_or, invalid_email in *.
    destruct (truthy v); [reflexivity|discriminate]. }
  intros [Hinv|body w1 Hinv Hgen Hfail|body w1 message w2 Hinv Hgen Hfail Hsend
          |body w1 message w2 Hinv Hgen Hfail Hsend].
  - eexists _, w, []. split; [right; split; reflexivity|]. repeat split.
  - destruct (frame_of_run _ _ _ _ _ (generate_email_content_frame E _ _) Hgen)
      as (new & Htr & Hall & Hlog & Hfiles).
    eexists _, w1, new. split; [right; split; reflexivity|].
    cbn [d_recipient d_status]. rewrite (Hor _ Hinv). repeat split; auto.
    eapply forallb_weaken; [|exact Hall]. intros ev ->. reflexivity.
  - destruct (frame_of_run _ _ _ _ _ (generate_email_content_frame E _ _) Hgen)
      as (new1 & Htr1 & Hall1 & Hlog1 & Hfiles1).
    destruct (frame_of_run _ _ _ _ _ (send_email_frame E _ _ _) Hsend)
      as (new2 & Htr2 & Hall2 & Hlog2 & Hfiles2).
    eexists _, w2, (new2 ++ new1)%list. split; [left; split; reflexivity|].
    cbn [d_recipient d_status]. rewrite (Hor _ Hinv).
    rewrite Htr2, Htr1, Hlog2, Hlog1, Hfiles2, Hfiles1, forallb_app, app_assoc.
    repeat split; auto. apply andb_true_iff. split.
    + eapply forallb_weaken; [|exact Hall2]. intros ev ->. apply orb_true_r.
    + eapply forallb_weaken; [|exact Hall1]. intros ev ->. reflexivity.
  - destruct (frame_of_run _ _ _ _ _ (generate_email_content_frame E _ _) Hgen)
      as (new1 & Htr1 & Hall1 & Hlog1 & Hfiles1).
    destruct (frame_of_run _ _ _ _ _ (send_email_frame E _ _ _) Hsend)
      as (new2 & Htr2 & Hall2 & Hlog2 & Hfiles2).
    eexists _, w2, (new2 ++ new1)%list. split; [right; split; reflexivity|].
    cbn [d_recipient d_status]. rewrite (Hor _ Hinv).
    rewrite Htr2, Htr1, Hlog2, Hlog1, Hfiles2, Hfiles1, forallb_app, app_assoc.
    repeat split; auto. apply andb_true_iff. split.
    + eapply forallb_weaken; [|exact Hall2]. intros ev ->. apply orb_true_r.
    + eapply forallb_weaken; [|exact Hall1]. intros ev ->. reflexivity.
Qed.

(** One more row in a well-formed log: one more entry, read back as
    written. *)
Lemma log_entries_after log a b c d e :
  log_wf log ->
  log_wf (Some (log_after log [a; b; c; d; e]))
  /\ log_entries_of (Some (log_after log [a; b; c; d; e]))
     = (log_entries_of log
          ++ [[("timestamp", VStr a); ("recipient", VStr b); ("subject", VStr c);
               ("status", VStr d); ("message", VStr e)]])%list.
Proof.
  intros Hwf.
  destruct (log_after_wf log [a; b; c; d; e] Hwf eq_refl)
    as (rows & Hafter & Hfive & Hold).
  rewrite Hafter. split; [split; [reflexivity|exact Hfive]|].
  cbn [log_entries_of]. rewrite entries_snoc by discriminate.
  now rewrite Hold, row_dict_log.
Qed.

(** The invariant of the log along a batch, when the log can always be
    opened: it stays well formed, and gains one entry per contact, counted
    as sent exactly when the counter of sent was raised. *)
Lemma turn_keeps_log_in_step E prompt_template t contact w t' w' :
  (forall h, log_open_fails E h = None) ->
  contact_turn E prompt_template t contact w t' w' ->
  log_wf (log_file w) ->
  log_wf (log_file w')
  /\ sent_rows (log_file w') + emails_sent_count t
     = sent_rows (log_file w) + emails_sent_count t'
  /\ failed_rows (log_file w') + emails_failed_count t
     = failed_rows (log_file w) + emails_failed_count t'
  /\ length (log_entries_of (log_file w')) = length (log_entries_of (log_file w)) + 1.
Proof.
  intros Hopen Hturn Hwf.
  destruct (contact_turn_shape _ _ _ _ _ _ _ Hturn)
    as (d & wl & new & Hcase & _ & -> & _ & _ & Hlog & _).
  destruct (log_email_attempt_run E (d_recipient d) (subject_of contact)
                                  (d_status d) (note_text d) wl)
    as (w' & -> & _ & _ & Hlog').
  cbn [snd]. rewrite Hopen, Hlog in Hlog'. rewrite Hlog'.
  destruct (log_entries_after (log_file w) (now E (trace wl))
              (csv_cell (d_recipient d)) (subject_of contact) (d_status d)
              (note_text d) Hwf) as [Hwf' Hent].
  split; [exact Hwf'|].
  unfold sent_rows, failed_rows. rewrite Hent, !filter_app, !length_app.
  destruct Hcase as [[-> Hst]|[-> Hst]]; rewrite Hst;
    cbn [add_sent add_failed emails_sent_count emails_failed_count filter];
    match goal with
    | |- context [counts_as_sent ?row] =>
        let b := eval vm_compute in (counts_as_sent row) in
        replace (counts_as_sent row) with b by (vm_compute; reflexivity)
    end;
    cbn [negb length]; repeat split; lia.
Qed.

(** On a log the logger wrote, with every cell within the field limit,
    the stats route answers with counts. *)
Lemma stats_route_answers w :
  log_wf (log_file w) -> log_readable (log_file w) ->
  log_entries_of (log_file w) <> [] ->
  exists st, fst (stats_route w) = Val (StatsOk st).
Proof.
  intros Hwf Hread Hne.
  destruct (log_file w) as [[|header rows]|] eqn:Hlog;
    try (now destruct Hne).
  destruct Hwf as [-> Hfive].
  destruct (read_stats_log_wf rows Hfive Hread) as (st & Hst & _).
  exists st. rewrite (stats_route_counts w st); [reflexivity| |]; rewrite Hlog;
    [exact Hst|].
  cbn [rows_of]. now apply no_restkey_in_log.
Qed.

(** X6.  After a batch that found contacts, on a log the logger wrote and
    can open, the log has grown by exactly the numbers of the summary: the
    entries that count as sent by [emails_sent], the others by
    [emails_failed], all of them by [total_contacts_processed].  Whenever
    the stats route then answers with counts, these are the counts before
    the batch plus the numbers of the summary; and it does answer with
    counts when no cell of the log is over the field limit of
    [csv.reader]. *)
Theorem summary_agrees_with_stats E req file w :
  reaches_extraction E req file w ->
  extract_from_source (content file) ColDefault ColDefault <> [] ->
  log_wf (log_file w) ->
  (forall h, log_open_fails E h = None) ->
  exists total sent failed details w',
    process_emails_route E req w
    = (Val (JsonSummary "Email processing complete." total sent failed details), w')
    /\ sent_rows (log_file w') = sent_rows (log_file w) + sent
    /\ failed_rows (log_file w') = failed_rows (log_file w) + failed
    /\ length (log_entries_of (log_file w'))
       = length (log_entries_of (log_file w)) + total
    /\ (forall st,
          fst (stats_route w') = Val (StatsOk st) ->
          successful_sends st = sent_rows (log_file w) + sent
          /\ failed_sends st = failed_rows (log_file w) + failed
          /\ total_attempts st = length (log_entries_of (log_file w)) + total)
    /\ (log_readable (log_file w') ->
        exists st, fst (stats_route w') = Val (StatsOk st)).
Proof.
  intros Hreach Hne Hwf Hopen.
  destruct (route_runs_the_loop E req file w
              (fun done t w0 =>
                 log_wf (log_file w0)
                 /\ sent_rows (log_file w0) = sent_rows (log_file w) + emails_sent_count t
                 /\ failed_rows (log_file w0)
                    = failed_rows (log_file w) + emails_failed_count t
                 /\ length (log_entries_of (log_file w0))
                    = length (log_entries_of (log_file w)) + length done)
              Hreach Hne)
    as (t & w' & Hrun & Hwf' & Hs & Hf & Hlen).
  - cbn. repeat split; auto.
  - intros before contact after t w0 t' w1 _ (Hwf0 & Hs0 & Hf0 & Hl0) Hturn.
    destruct (turn_keeps_log_in_step E _ _ _ _ _ _ Hopen Hturn Hwf0)
      as (Hwf1 & Hs1 & Hf1 & Hl1).
    rewrite length_app. cbn [length]. repeat split; auto; lia.
  - set (contacts := extract_from_source (content file) ColDefault ColDefault) in *.
    assert (Hpos : 0 < length contacts) by (destruct contacts; [congruence|cbn; lia]).
    eexists _, _, _, _, w'. split; [exact Hrun|].
    split; [exact Hs|]. split; [exact Hf|]. split; [exact Hlen|]. split.
    + intros st Hst. apply stats_route_value, read_stats_ok in Hst
        as (Htot & Hsucc & Hfail).
      unfold sent_rows, failed_rows in *. rewrite Hsucc, Hfail, Htot.
      repeat split; assumption.
    + intros Hread. apply stats_route_answers; auto.
      intros Hnil. rewrite Hnil in Hlen. cbn [length] in Hlen. lia.
Qed.

Lemma summary_agrees_with_stats_witness :
  exists total sent failed details w',
    process_emails_route Demo.env_ok Demo.contacts_request Demo.logged
    = (Val (JsonSummary "Email processing complete." total sent failed details), w')
    /\ sent_rows (log_file w') = sent_rows (log_file Demo.logged) + sent
    /\ failed_rows (log_file w') = failed_rows (log_file Demo.logged) + failed
    /\ length (log_entries_of (log_file w'))
       = length (log_entries_of (log_file Demo.logged)) + total
    /\ (forall st,
          fst (stats_route w') = Val (StatsOk st) ->
          successful_sends st = sent_rows (log_file Demo.logged) + sent
          /\ failed_sends st = failed_rows (log_file Demo.logged) + failed
          /\ total_attempts st = length (log_entries_of (log_file Demo.logged)) + total)
    /\ (log_readable (log_file w') ->
        exists st, fst (stats_route w') = Val (StatsOk st)).
Proof.
  apply (summary_agrees_with_stats Demo.env_ok Demo.contacts_request
                                   Demo.contacts_upload Demo.logged).
  - repeat split; try reflexivity; discriminate.
  - vm_compute. discriminate.
  - split; [reflexivity|repeat constructor].
  - reflexivity.
Defined.

(** ** Batch Orchestrator: what a batch cannot do *)

Lemma filter_frame {A} (P Q : A -> bool) new l :
  forallb P new = true ->
  (forall x, P x = true -> Q x = false) ->
  filter Q (new ++ l) = filter Q l.
Proof.
  intros Hall Hpq. rewrite filter_app.
  replace (filter Q new) with (@nil A); [reflexivity|].
  induction new as [|x new IH]; [reflexivity|].
  cbn in Hall. apply andb_true_iff in Hall as [Hx Hall].
  cbn [filter]. rewrite (Hpq x Hx). now apply IH.
Qed.

Lemma log_calls_frame new l :
  forallb (fun ev => is_generator_event ev || is_sender_event ev) new = true ->
  log_calls (new ++ l) = log_calls l.
Proof.
  induction new as [|ev new IH]; [reflexivity|].
  cbn [forallb]. intros H. apply andb_true_iff in H as [Hev Hall].
  cbn [app log_calls]. destruct ev; try discriminate; now apply IH.
Qed.

Lemma generate_email_content_unconfigured E company_data user_prompt w :
  genai_available E = false \/ truthy_opt (GEMINI_API_KEY (settings E)) = false ->
  exists email_body,
    fst (generate_email_content E company_data user_prompt w) = Val email_body
    /\ generation_failed email_body = true.
Proof.
  intros H. unfold generate_email_content. unfold_monad. cbn beta iota.
  destruct (genai_available E); cbn [negb].
  - destruct H as [H|H]; [discriminate|]. rewrite H. cbn [negb fst]. eauto.
  - cbn [fst]. eauto.
Qed.

Lemma smtp_unconfigured E :
  truthy_opt (SMTP_HOST (settings E)) = false
  \/ SMTP_PORT (settings E) = 0%Z
  \/ truthy_opt (SMTP_SENDER_EMAIL (settings E)) = false ->
  smtp_configured E = false.
Proof.
  unfold smtp_configured.
  intros [H|[H|H]]; rewrite H; cbn; rewrite ?andb_false_r; reflexivity.
Qed.

Lemma send_email_unconfigured E recipient_email subject body w :
  smtp_configured E = false ->
  send_email E recipient_email subject body w
  = (Val (false, smtp_incomplete_msg),
     snd (emit (EvCallSend recipient_email subject body) w)).
Proof.
  intros H. unfold send_email, send_email_body. cbn [body_text]. unfold_monad. cbn beta iota. now rewrite H.
Qed.

Lemma send_email_message_kind E recipient_email subject body w success message w' :
  send_email E recipient_email subject body w = (Val (success, message), w') ->
  exists k, has_kind k message.
Proof.
  unfold send_email, send_email_body. cbn [body_text]. unfold bind at 1, try_except, ret. cbn [emit].
  destruct (negb (smtp_configured E)).
  - intros [= _ <- _]. now exists Misconfigured.
  - destruct (smtp_session E recipient_email _ _) as [[x|e] w1] eqn:Hs.
    + apply smtp_session_value in Hs. subst x. intros [= _ <- _].
      exists Delivered. apply (startswith_app (outcome_prefix Delivered)).
    + destruct (smtp_failure_kind E e) as [_ Hk].
      destruct (smtp_failure E e) as [s m]. intros [= _ <- _].
      eexists. exact Hk.
Qed.

(** X7.  When the client library is not loaded or the credential is not
    configured, a batch sends nothing: every contact is counted as failed,
    none as sent, and the dispatcher is never entered, so that no call
    reaches the mail transport. *)
Theorem unconfigured_generator_fails_the_batch E req file w :
  genai_available E = false \/ truthy_opt (GEMINI_API_KEY (settings E)) = false ->
  reaches_extraction E req file w ->
  extract_from_source (content file) ColDefault ColDefault <> [] ->
  exists details w',
    process_emails_route E req w
    = (Val (JsonSummary "Email processing complete."
                        (length (extract_from_source (content file)
                                                     ColDefault ColDefault))
                        0
                        (length (extract_from_source (content file)
                                                     ColDefault ColDefault))
                        details), w')
    /\ filter is_sender_event (trace w') = filter is_sender_event (trace w).
Proof.
  intros Hcfg Hreach Hne.
  destruct (route_runs_the_loop E req file w
              (fun done t w0 =>
                 emails_sent_count t = 0
                 /\ emails_failed_count t = length done
                 /\ filter is_sender_event (trace w0)
                    = filter is_sender_event (trace w))
              Hreach Hne)
    as (t & w' & Hrun & Hs & Hf & Htr).
  - repeat split.
  - intros before contact after t w0 t' w1 _ (Hs0 & Hf0 & Htr0) Hturn.
    rewrite length_app. cbn [length].
    destruct Hturn as [Hinv|body w2 Hinv Hgen Hfail|body w2 message w3 Hinv Hgen Hfail Hsend
                      |body w2 message w3 Hinv Hgen Hfail Hsend];
      try (destruct (generate_email_content_unconfigured E contact (prompt req) w0 Hcfg)
            as (body' & Hbody & Hfailed);
           rewrite Hgen in Hbody; cbn [fst] in Hbody; congruence).
    + match goal with
      | |- context [log_email_attempt E ?r ?s ?st ?m w0] =>
          destruct (log_email_attempt_run E r s st m w0) as (w' & -> & Htr' & _)
      end.
      cbn [snd add_failed emails_sent_count emails_failed_count].
      rewrite Htr'. cbn [filter is_sender_event]. repeat split; auto; lia.
    + destruct (frame_of_run _ _ _ _ _ (generate_email_content_frame E _ _) Hgen)
        as (new & Htr2 & Hall & _).
      match goal with
      | |- context [log_email_attempt E ?r ?s ?st ?m w2] =>
          destruct (log_email_attempt_run E r s st m w2) as (w' & -> & Htr' & _)
      end.
      cbn [snd add_failed emails_sent_count emails_failed_count].
      rewrite Htr', Htr2. cbn [filter is_sender_event].
      rewrite (filter_frame is_generator_event is_sender_event new _ Hall)
        by (intros [] ?; try reflexivity; discriminate).
      repeat split; auto; lia.
  - exists (results t), w'. rewrite Hs, Hf in Hrun. split; [exact Hrun|exact Htr].
Qed.

Lemma unconfigured_generator_fails_the_batch_witness :
  exists details w',
    process_emails_route (Demo.env_with Demo.no_key_settings) Demo.contacts_request
                         Demo.fresh
    = (Val (JsonSummary "Email processing complete." 1 0 1 details), w')
    /\ filter is_sender_event (trace w') = [].
Proof.
  apply (unconfigured_generator_fails_the_batch
           (Demo.env_with Demo.no_key_settings) Demo.contacts_request
           Demo.contacts_upload Demo.fresh).
  - right. reflexivity.
  - repeat split; try reflexivity; discriminate.
  - vm_compute. discriminate.
Defined.

(** X8.  When the SMTP host, port or sender address is not configured, a
    batch still runs to its summary: no contact is counted as sent, every
    contact is counted and recorded as failed, and no call reaches the
    mail transport. *)
Theorem unconfigured_transport_fails_the_batch E req file w :
  truthy_opt (SMTP_HOST (settings E)) = false
  \/ SMTP_PORT (settings E) = 0%Z
  \/ truthy_opt (SMTP_SENDER_EMAIL (settings E)) = false ->
  reaches_extraction E req file w ->
  extract_from_source (content file) ColDefault ColDefault <> [] ->
  exists details w',
    process_emails_route E req w
    = (Val (JsonSummary "Email processing complete."
                        (length (extract_from_source (content file)
                                                     ColDefault ColDefault))
                        0
                        (length (extract_from_source (content file)
                                                     ColDefault ColDefault))
                        details), w')
    /\ Forall (fun d => d_status d = "Failed") details
    /\ filter is_network_call (trace w') = filter is_network_call (trace w).
Proof.
  intros Hcfg Hreach Hne. apply smtp_unconfigured in Hcfg.
  destruct (route_runs_the_loop E req file w
              (fun done t w0 =>
                 emails_sent_count t = 0
                 /\ emails_failed_count t = length done
                 /\ Forall (fun d => d_status d = "Failed") (results t)
                 /\ filter is_network_call (trace w0)
                    = filter is_network_call (trace w))
              Hreach Hne)
    as (t & w' & Hrun & Hs & Hf & Hall & Htr).
  - repeat split. constructor.
  - intros before contact after t w0 t' w1 _ (Hs0 & Hf0 & Hall0 & Htr0) Hturn.
    rewrite length_app. cbn [length].
    destruct Hturn as [Hinv|body w2 Hinv Hgen Hfail|body w2 message w3 Hinv Hgen Hfail Hsend
                      |body w2 message w3 Hinv Hgen Hfail Hsend];
      try (rewrite (send_email_unconfigured E _ _ _ _ Hcfg) in Hsend);
      try discriminate;
      try (destruct (frame_of_run _ _ _ _ _ (generate_email_content_frame E _ _) Hgen)
            as (new & Htr2 & Hnew & _));
      match goal with
      | |- context [log_email_attempt E ?r ?s ?st ?m ?wl] =>
          destruct (log_email_attempt_run E r s st m wl) as (w' & -> & Htr' & _)
      end;
      cbn [snd add_failed emails_sent_count emails_failed_count results];
      rewrite Htr'; cbn [filter is_network_call].
    + repeat split; auto; try lia.
      apply Forall_app. split; [exact Hall0|now constructor].
    + rewrite Htr2.
      rewrite (filter_frame is_generator_event is_network_call new _ Hnew)
        by (intros [] ?; try reflexivity; discriminate).
      repeat split; auto; try lia.
      apply Forall_app. split; [exact Hall0|now constructor].
    + injection Hsend as _ <-. cbn [snd emit trace filter is_network_call].
      rewrite Htr2.
      rewrite (filter_frame is_generator_event is_network_call new _ Hnew)
        by (intros [] ?; try reflexivity; discriminate).
      repeat split; auto; try lia.
      apply Forall_app. split; [exact Hall0|now constructor].
  - exists (results t), w'. rewrite Hs, Hf in Hrun. auto.
Qed.

Lemma unconfigured_transport_fails_the_batch_witness :
  exists details w',
    process_emails_route (Demo.env_with Demo.no_host_settings) Demo.contacts_request
                         Demo.fresh
    = (Val (JsonSummary "Email processing complete." 1 0 1 details), w')
    /\ Forall (fun d => d_status d = "Failed") details
    /\ filter is_network_call (trace w') = [].
Proof.
  apply (unconfigured_transport_fails_the_batch
           (Demo.env_with Demo.no_host_settings) Demo.contacts_request
           Demo.contacts_upload Demo.fresh).
  - left. reflexivity.
  - repeat split; try reflexivity; discriminate.
  - vm_compute. discriminate.
Defined.

Lemma kind_is_not_prompt_error k message :
  has_kind k message -> PyStr.startswith "Prompt formatting error" message = false.
Proof.
  intros Hk.
  destruct (PyStr.startswith "Prompt formatting error" message) eqn:Hp;
    [|reflexivity].
  destruct (startswith_comparable _ _ _ Hk Hp) as [Hc|Hc];
    destruct k; vm_compute in Hc; discriminate.
Qed.

(** X9.  No entry of a summary ever carries the reason "Prompt formatting
    error: Missing key ...": the generator turns a missing key into a
    returned string, so the clause of the route that would report it is
    never taken. *)
Theorem prompt_formatting_error_is_never_reported E req file w :
  reaches_extraction E req file w ->
  extract_from_source (content file) ColDefault ColDefault <> [] ->
  exists total sent failed details w',
    process_emails_route E req w
    = (Val (JsonSummary "Email processing complete." total sent failed details), w')
    /\ Forall (fun d =>
                 PyStr.startswith "Prompt formatting error" (note_text d) = false)
              details.
Proof.
  intros Hreach Hne.
  destruct (route_runs_the_loop E req file w
              (fun done t w0 =>
                 Forall (fun d =>
                           PyStr.startswith "Prompt formatting error" (note_text d)
                           = false) (results t))
              Hreach Hne)
    as (t & w' & Hrun & Hall).
  - constructor.
  - intros before contact after t w0 t' w1 _ Hall0 Hturn.
    destruct Hturn as [Hinv|body w2 Hinv Hgen Hfail|body w2 message w3 Hinv Hgen Hfail Hsend
                      |body w2 message w3 Hinv Hgen Hfail Hsend];
      cbn [add_sent add_failed results];
      (apply Forall_app; split; [exact Hall0|]); constructor; try constructor;
      unfold note_text; cbn [d_note]; try reflexivity;
      destruct (send_email_message_kind _ _ _ _ _ _ _ _ Hsend) as [k Hk];
      exact (kind_is_not_prompt_error k message Hk).
  - eexists _, _, _, _, w'. split; [exact Hrun|exact Hall].
Qed.

Lemma prompt_formatting_error_is_never_reported_witness :
  exists total sent failed details w',
    process_emails_route Demo.env_ok
      {| csv_file := Some Demo.contacts_upload; prompt := "Hello {Industry}" |}
      Demo.fresh
    = (Val (JsonSummary "Email processing complete." total sent failed details), w')
    /\ Forall (fun d =>
                 PyStr.startswith "Prompt formatting error" (note_text d) = false)
              details.
Proof.
  apply (prompt_formatting_error_is_never_reported Demo.env_ok
           {| csv_file := Some Demo.contacts_upload; prompt := "Hello {Industry}" |}
           Demo.contacts_upload Demo.fresh).
  - repeat split; try reflexivity; discriminate.
  - vm_compute. discriminate.
Defined.

(** X10.  A batch calls the logger exactly once per contact, in the order
    of the contacts, and each call carries the recipient, the status and
    the text of the entry the summary has for that contact. *)
Theorem one_log_call_per_contact E req file w :
  reaches_extraction E req file w ->
  extract_from_source (content file) ColDefault ColDefault <> [] ->
  exists total sent failed details w',
    process_emails_route E req w
    = (Val (JsonSummary "Email processing complete." total sent failed details), w')
    /\ log_calls (trace w') = (rev (map log_call_of details) ++ log_calls (trace w))%list
    /\ length details = length (extract_from_source (content file)
                                                    ColDefault ColDefault).
Proof.
  intros Hreach Hne.
  destruct (route_runs_the_loop E req file w
              (fun done t w0 =>
                 log_calls (trace w0)
                 = (rev (map log_call_of (results t)) ++ log_calls (trace w))%list
                 /\ length (results t) = length done)
              Hreach Hne)
    as (t & w' & Hrun & Hcalls & Hlen).
  - split; reflexivity.
  - intros before contact after t w0 t' w1 _ [Hcalls0 Hlen0] Hturn.
    destruct (contact_turn_shape _ _ _ _ _ _ _ Hturn)
      as (d & wl & new & Hcase & _ & -> & Htrl & Hnew & _).
    destruct (log_email_attempt_run E (d_recipient d) (subject_of contact)
                                    (d_status d) (note_text d) wl)
      as (w' & -> & Htr' & _).
    cbn [snd]. rewrite Htr', Htrl. cbn [log_calls].
    rewrite (log_calls_frame new _ Hnew), Hcalls0.
    assert (Hres : results t' = (results t ++ [d])%list)
      by (destruct Hcase as [[-> _]|[-> _]]; reflexivity).
    rewrite Hres, map_app, rev_app_distr, !length_app, Hlen0.
    split; reflexivity.
  - eexists _, _, _, _, w'. split; [exact Hrun|]. split; assumption.
Qed.

Lemma one_log_call_per_contact_witness :
  exists total sent failed details w',
    process_emails_route Demo.env_ok Demo.contacts_request Demo.fresh
    = (Val (JsonSummary "Email processing complete." total sent failed details), w')
    /\ log_calls (trace w')
       = (rev (map log_call_of details) ++ log_calls (trace Demo.fresh))%list
    /\ length details = length (extract_from_source (content Demo.contacts_upload)
                                                    ColDefault ColDefault).
Proof.
  apply (one_log_call_per_contact Demo.env_ok Demo.contacts_request
                                  Demo.contacts_upload Demo.fresh).
  - repeat split; try reflexivity; discriminate.
  - vm_compute. discriminate.
Defined.

(** X11.  For a contact that comes from the extractor, the entry of the
    summary always names the extracted email as recipient, never "N/A",
    and the extracted company, never the stand-in "Valued Partner": the
    extractor has already put "N/A" where the file has no company. *)
Theorem extracted_contact_keeps_its_fields src eo co contact :
  In contact (extract_from_source src eo co) ->
  exists email company,
    contact = [("Email", VStr email); ("Company Name", VStr company)]
    /\ forall E prompt_template t w,
      exists d w',
        (process_contact E prompt_template t contact w = (Val (add_sent t d), w')
         \/ process_contact E prompt_template t contact w = (Val (add_failed t d), w'))
        /\ d_recipient d = VStr email
        /\ d_company d = VStr company.
Proof.
  intros Hin. apply extract_from_source_In in Hin as (ec & cc & row & Hrow).
  apply extract_row_shape in Hrow as (email & company & -> & He & Hc).
  exists email, company. split; [reflexivity|].
  intros E prompt_template t w.
  apply String.eqb_neq in He, Hc.
  assert (Hcompany : company_of [("Email", VStr email); ("Company Name", VStr company)]
                     = VStr company).
  { unfold company_of, dict_get. cbn. now rewrite Hc. }
  assert (Hmail : py_or (VStr email) (VStr "N/A") = VStr email).
  { unfold py_or. cbn. now rewrite He. }
  destruct (process_contact_turn
              E prompt_template t
              [("Email", VStr email); ("Company Name", VStr company)] w)
    as (t' & w' & Hrun & Hturn).
  rewrite Hrun.
  destruct Hturn; eexists _, _;
    (split; [first [left; reflexivity|right; reflexivity]|]);
    cbn [d_recipient d_company]; rewrite Hcompany; split; auto.
Qed.

Lemma extracted_contact_keeps_its_fields_witness :
  In [("Email", VStr "ann@acme.com"); ("Company Name", VStr "N/A")]
     (extract_from_source (FileRows [["E-mail"]; [" ann@acme.com "]])
                          ColDefault ColDefault)
  /\ exists email company,
      [("Email", VStr "ann@acme.com"); ("Company Name", VStr "N/A")]
      = [("Email", VStr email); ("Company Name", VStr company)]
      /\ forall E prompt_template t w,
        exists d w',
          (process_contact E prompt_template t
             [("Email", VStr "ann@acme.com"); ("Company Name", VStr "N/A")] w
           = (Val (add_sent t d), w')
           \/ process_contact E prompt_template t
                [("Email", VStr "ann@acme.com"); ("Company Name", VStr "N/A")] w
              = (Val (add_failed t d), w'))
          /\ d_recipient d = VStr email
          /\ d_company d = VStr company.
Proof.
  assert (Hin : In [("Email", VStr "ann@acme.com"); ("Company Name", VStr "N/A")]
                   (extract_from_source (FileRows [["E-mail"]; [" ann@acme.com "]])
                                        ColDefault ColDefault))
    by (vm_compute; auto).
  split; [exact Hin|].
  exact (extracted_contact_keeps_its_fields _ ColDefault ColDefault _ Hin).
Defined.

(** ** Batch Orchestrator: the requests that do not start a batch *)

(** X12.  A request without a file, with an empty file name, with an empty
    prompt, or with a file name that does not end in [.csv] is answered
    with an error 400 and leaves everything as it was: nothing is saved,
    nothing is logged, and no collaborator is called. *)
Theorem rejected_request_changes_nothing E req w :
  csv_file req = None
  \/ (exists file,
         csv_file req = Some file
         /\ (filename file = "" \/ prompt req = ""
             \/ PyStr.endswith ".csv" (filename file) = false)) ->
  exists error, process_emails_route E req w = (Val (JsonError 400 error), w).
Proof.
  unfold process_emails_route.
  intros [->|(file & -> & H)]; [now eexists|].
  destruct (String.eqb_spec (filename file) ""); [now eexists|].
  destruct (String.eqb_spec (prompt req) ""); [now eexists|].
  destruct H as [H|[H|H]]; [congruence|congruence|].
  rewrite H. now eexists.
Qed.

Lemma rejected_request_changes_nothing_witness :
  exists error,
    process_emails_route Demo.env_ok
      {| csv_file := Some {| filename := "contacts.xlsx"; content := Demo.contacts_csv |};
         prompt := "Hello {Company Name}" |}
      Demo.logged
    = (Val (JsonError 400 error), Demo.logged).
Proof.
  apply (rejected_request_changes_nothing Demo.env_ok).
  right. eexists. split; [reflexivity|]. right. right. reflexivity.
Defined.

(** X13.  The route never raises.  It answers with the error 500 only when
    saving the upload fails; the error then quotes the text of the
    exception, and the failure is logged once as "Batch Processing
    Error". *)
Theorem only_a_failed_save_gives_500 E req w :
  exists r w',
    process_emails_route E req w = (Val r, w')
    /\ forall error,
      r = JsonError 500 error ->
      exists file e,
        csv_file req = Some file
        /\ save_fails E (trace w)
                      (path_join UPLOAD_FOLDER (secure_filename E (filename file)))
           = Some e
        /\ error = "An unexpected error occurred during processing: " ++ exn_str e
        /\ trace w' = EvCallLog (VStr "N/A") "Batch Processing Error" "Failed"
                                (exn_str e) :: trace w.
Proof.
  destruct (csv_file req) as [file|] eqn:Hfile;
    [|unfold process_emails_route; rewrite Hfile; eexists _, _;
      split; [reflexivity|discriminate]].
  destruct (String.eqb_spec (filename file) "") as [Hname|Hname];
    [unfold process_emails_route; rewrite Hfile, Hname; eexists _, _;
     split; [reflexivity|discriminate]|].
  destruct (String.eqb_spec (prompt req) "") as [Hprompt|Hprompt];
    [unfold process_emails_route; rewrite Hfile;
     rewrite (proj2 (String.eqb_neq _ _) Hname), Hprompt; eexists _, _;
     split; [reflexivity|discriminate]|].
  destruct (PyStr.endswith ".csv" (filename file)) eqn:Hcsv;
    [|unfold process_emails_route; rewrite Hfile;
      rewrite (proj2 (String.eqb_neq _ _) Hname),
              (proj2 (String.eqb_neq _ _) Hprompt), Hcsv;
      eexists _, _; split; [reflexivity|discriminate]].
  destruct (save_fails E (trace w)
                       (path_join UPLOAD_FOLDER (secure_filename E (filename file))))
    as [e|] eqn:Hsave.
  - unfold process_emails_route. rewrite Hfile.
    rewrite (proj2 (String.eqb_neq _ _) Hname),
            (proj2 (String.eqb_neq _ _) Hprompt), Hcsv.
    unfold try_except. unfold bind at 1. unfold save_upload. rewrite Hsave.
    unfold bind at 1.
    destruct (log_email_attempt_run E (VStr "N/A") "Batch Processing Error" "Failed"
                                    (exn_str e) w) as (w' & -> & Htr & _).
    unfold ret. eexists _, w'. split; [reflexivity|].
    intros error [= <-]. exists file, e. auto.
  - assert (Hreach : reaches_extraction E req file w) by (repeat split; assumption).
    destruct (extract_from_source (content file) ColDefault ColDefault)
      as [|contact rest] eqn:Hext.
    + enter_route Hreach. rewrite Hext. unfold bind at 1.
      rewrite log_email_attempt_value. unfold ret.
      eexists _, _. split; [reflexivity|discriminate].
    + destruct (route_runs_the_loop E req file w (fun _ _ _ => True) Hreach)
        as (t & w' & Hrun & _); [rewrite Hext; discriminate|exact I|auto|].
      rewrite Hrun. eexists _, w'. split; [reflexivity|discriminate].
Qed.

Lemma only_a_failed_save_gives_500_witness :
  exists r w',
    process_emails_route Demo.env_ok Demo.contacts_request Demo.fresh = (Val r, w')
    /\ forall error,
      r = JsonError 500 error ->
      exists file e,
        csv_file Demo.contacts_request = Some file
        /\ save_fails Demo.env_ok (trace Demo.fresh)
                      (path_join UPLOAD_FOLDER
                                 (secure_filename Demo.env_ok (filename file)))
           = Some e
        /\ error = "An unexpected error occurred during processing: " ++ exn_str e
        /\ trace w' = EvCallLog (VStr "N/A") "Batch Processing Error" "Failed"
                                (exn_str e) :: trace Demo.fresh.
Proof.
  exact (only_a_failed_save_gives_500 Demo.env_ok Demo.contacts_request Demo.fresh).
Defined.

(** ** Content Generator *)

(** Case analysis on the innermost thing a computation inspects. *)
Ltac inner_step :=
  match goal with
  | |- context [match ?x with _ => _ end] =>
      lazymatch x with
      | context [match _ with _ => _ end] => fail
      | _ => destruct x eqn:?
      end
  end.

(** X14.  The generator never raises, whatever the client and the service
    do.  What it returns is either the text of a response of the service
    that has parts, or a string that starts with "Error". *)
Theorem generator_returns_text_or_error E company_data user_prompt w :
  exists email_body w',
    generate_email_content E company_data user_prompt w = (Val email_body, w')
    /\ (PyStr.startswith "Error" email_body = true
        \/ exists h request response,
            genai_generate_content E h request = Val response
            /\ parts_nonempty response = true
            /\ response_text response = Val email_body).
Proof.
  unfold generate_email_content, blocked_message. unfold_monad. cbn beta iota.
  repeat (inner_step; cbn [fst snd] in * );
    eexists _, _; (split; [reflexivity|]);
    try (left; reflexivity);
    right; eauto 6.
Qed.

(** X15.  A template that does not format, for a missing key or for any
    other reason, never costs a request to the generation service. *)
Theorem template_error_costs_no_request E company_data user_prompt e w :
  Format.format (format_field_other E) company_data user_prompt = Exn e ->
  filter is_generation_request
         (trace (snd (generate_email_content E company_data user_prompt w)))
  = filter is_generation_request (trace w).
Proof.
  intros Hfmt. unfold generate_email_content, external, external_value.
  unfold_monad. rewrite Hfmt. cbn beta iota.
  repeat (inner_step; cbn [fst snd] in * );
    repeat match goal with
           | H : (_, _) = (_, _) |- _ => injection H as <- <-
           end;
    try discriminate; reflexivity.
Qed.

Lemma template_error_costs_no_request_witness :
  filter is_generation_request
         (trace (snd (generate_email_content Demo.env_ok Demo.acme "Hello {Industry}"
                                             Demo.fresh)))
  = filter is_generation_request (trace Demo.fresh).
Proof.
  exact (template_error_costs_no_request Demo.env_ok Demo.acme "Hello {Industry}"
           (KeyError "Industry") Demo.fresh eq_refl).
Defined.


(** The run of the generator when the client is loaded, the key is set,
    and neither the configuration nor the model raises: the template is
    formatted and, when it formats, one request is made. *)
Lemma generate_email_content_request E company_data user_prompt prompt_for_api w :
  genai_available E = true ->
  truthy_opt (GEMINI_API_KEY (settings E)) = true ->
  (forall h k, genai_configure E h k = None) ->
  (forall h name, genai_GenerativeModel E h name = None) ->
  Format.format (format_field_other E) company_data user_prompt = Val prompt_for_api ->
  exists h w1,
    trace w1 = EvGenaiGenerate (full_prompt company_data prompt_for_api) :: h
    /\ generate_email_content E company_data user_prompt w
       = (match genai_generate_content E h (full_prompt company_data prompt_for_api) with
          | Val response =>
              match parts_raises response with
              | Some e => Val ("Error generating email content: " ++ exn_str e)
              | None =>
                  if parts_nonempty response then
                    match response_text response with
                    | Val text => Val text
                    | Exn e => Val ("Error generating email content: " ++ exn_str e)
                    end
                  else Val (blocked_message response)
              end
          | Exn e => Val ("Error generating email content: " ++ exn_str e)
          end, w1).
Proof.
  intros Hlib Hkey Hconf Hmodel Hfmt.
  unfold generate_email_content, external, external_value. unfold_monad.
  rewrite Hlib, Hkey, Hfmt. cbn [negb]. cbn beta.
  rewrite Hconf. cbn [trace]. rewrite Hmodel. cbn [trace snd].
  exists (EvGenaiModel "gemini-1.0-pro"
            :: EvGenaiConfigure (str_opt (GEMINI_API_KEY (settings E)))
            :: EvCallGenerate company_data user_prompt :: trace w).
  eexists. split; cycle 1.
  - destruct (genai_generate_content E _ _) as [response|e0]; [|reflexivity].
    destruct (parts_raises response); [reflexivity|].
    destruct (parts_nonempty response); [|reflexivity].
    destruct (response_text response); reflexivity.
  - reflexivity.
Qed.





(** X27.  A response whose parts cannot be read is not a failure for
    the orchestrator.  The generator catches the exception and returns
    "Error generating email content: " followed by its text; unless that
    text happens to contain "Error:", the orchestrator takes the string
    for a body and enters the dispatcher with it. *)
Theorem unreadable_parts_are_mailed
        E prompt_template prompt_for_api response e t contact address w :
  dict_lookup contact "Email" = Some (VStr address) ->
  invalid_email (VStr address) = false ->
  genai_available E = true ->
  truthy_opt (GEMINI_API_KEY (settings E)) = true ->
  (forall h k, genai_configure E h k = None) ->
  (forall h name, genai_GenerativeModel E h name = None) ->
  Format.format (format_field_other E) contact prompt_template = Val prompt_for_api ->
  (forall h, genai_generate_content E h (full_prompt contact prompt_for_api)
             = Val response) ->
  parts_raises response = Some e ->
  generation_failed ("Error generating email content: " ++ exn_str e) = false ->
  fst (generate_email_content E contact prompt_template w)
  = Val ("Error generating email content: " ++ exn_str e)
  /\ exists subject,
      In (EvCallSend address subject ("Error generating email content: " ++ exn_str e))
         (trace (snd (process_contact E prompt_template t contact w))).
Proof.
  intros Hmail Hvalid Hlib Hkey Hconf Hmodel Hfmt Hresp Hparts Hmark.
  destruct (generate_email_content_request E contact prompt_template prompt_for_api w
              Hlib Hkey Hconf Hmodel Hfmt) as (h & w1 & _ & Hrun).
  rewrite Hresp, Hparts in Hrun.
  assert (Hgen : fst (generate_email_content E contact prompt_template w)
                 = Val ("Error generating email content: " ++ exn_str e))
    by now rewrite Hrun.
  split; [exact Hgen|].
  exact (unmarked_text_reaches_the_dispatcher E prompt_template t contact address _ w
           Hmail Hvalid Hgen Hmark).
Qed.

Lemma unreadable_parts_are_mailed_witness :
  fst (generate_email_content Demo.unreadable_env Demo.acme "Hello {Company Name}"
                              Demo.fresh)
  = Val "Error generating email content: The response was blocked."
  /\ exists subject,
      In (EvCallSend "a@x.com" subject
                     "Error generating email content: The response was blocked.")
         (trace (snd (process_contact Demo.unreadable_env "Hello {Company Name}"
                                      tally_start Demo.acme Demo.fresh))).
Proof.
  exact (unreadable_parts_are_mailed
           Demo.unreadable_env "Hello {Company Name}" "Hello Acme"
           Demo.unreadable_response (ValueError "The response was blocked.")
           tally_start Demo.acme "a@x.com" Demo.fresh
           eq_refl eq_refl eq_refl eq_refl (fun _ _ => eq_refl) (fun _ _ => eq_refl)
           eq_refl (fun _ => eq_refl) eq_refl eq_refl).
Defined.

(** ** Mail Dispatcher: the dialogue *)

Ltac pick_prefix_at n :=
  first
    [ exists n, ""; split;
      [reflexivity|intros ? ?; first [discriminate|reflexivity]]
    | eexists n, _; split;
      [reflexivity|intros ? ?; first [discriminate|reflexivity]] ].

Ltac pick_prefix :=
  first [ pick_prefix_at 0 | pick_prefix_at 1 | pick_prefix_at 2 | pick_prefix_at 3
        | pick_prefix_at 4 | pick_prefix_at 5 | pick_prefix_at 6 | pick_prefix_at 7
        | pick_prefix_at 8 ].

(** With a complete configuration, the calls made are the first [n] of
    the script, and all of them when the result is a success. *)
Lemma send_email_dialogue E recipient_email subject body w :
  smtp_configured E = true ->
  exists n data,
    trace (snd (send_email E recipient_email subject body w))
    = (rev (firstn n (smtp_script (settings E) recipient_email
                                  {| mime_subject := subject;
                                     mime_from := str_opt (SMTP_SENDER_EMAIL (settings E));
                                     mime_to := recipient_email;
                                     mime_html := body |} data))
       ++ EvCallSend recipient_email subject body :: trace w)%list
    /\ forall message,
      fst (send_email E recipient_email subject body w) = Val (true, message) ->
      n = length (smtp_script (settings E) recipient_email
                              {| mime_subject := subject;
                                 mime_from := str_opt (SMTP_SENDER_EMAIL (settings E));
                                 mime_to := recipient_email;
                                 mime_html := body |} data).
Proof.
  intros Hcfg.
  unfold send_email, send_email_body, smtp_session, smtp_call, smtp_failure, smtp_script,
    external, external_value.
  unfold_monad. rewrite Hcfg. cbn [negb]. cbn beta iota.
  destruct (SMTP_USE_TLS (settings E));
    destruct (truthy_opt (SMTP_USERNAME (settings E))
              && truthy_opt (SMTP_PASSWORD (settings E)));
    repeat (inner_step; cbn [fst snd trace] in * );
    repeat match goal with
           | H : (_, _) = (_, _) |- _ => injection H as <- <-
           | H : (_, _) = (_, _) |- _ => injection H as <-
           end;
    try discriminate; cbn [fst snd trace app]; pick_prefix.
Qed.

(** X18.  With a complete configuration, [send_email] follows one fixed
    script: open the connection (plain, then EHLO, STARTTLS, EHLO; or over
    SSL), log in if and only if both the user name and the password are
    set, serialise the message, submit it, quit.  The calls it makes are
    always a beginning of that script, cut at the first call that raises,
    and the whole of it whenever it reports a success. *)
Theorem send_email_follows_the_script E recipient_email subject body w :
  smtp_configured E = true ->
  exists n data,
    trace (snd (send_email E recipient_email subject body w))
    = (rev (firstn n (smtp_script (settings E) recipient_email
                                  {| mime_subject := subject;
                                     mime_from := str_opt (SMTP_SENDER_EMAIL (settings E));
                                     mime_to := recipient_email;
                                     mime_html := body |} data))
       ++ EvCallSend recipient_email subject body :: trace w)%list
    /\ forall message,
      fst (send_email E recipient_email subject body w) = Val (true, message) ->
      n = length (smtp_script (settings E) recipient_email
                              {| mime_subject := subject;
                                 mime_from := str_opt (SMTP_SENDER_EMAIL (settings E));
                                 mime_to := recipient_email;
                                 mime_html := body |} data).
Proof. exact (send_email_dialogue E recipient_email subject body w). Qed.

Lemma send_email_follows_the_script_witness :
  exists n data,
    trace (snd (send_email Demo.refusing_env "a@x.com" "Hello" "<p>Hi</p>" Demo.fresh))
    = (rev (firstn n (smtp_script Demo.complete_settings "a@x.com"
                                  {| mime_subject := "Hello";
                                     mime_from := "sales@example.com";
                                     mime_to := "a@x.com";
                                     mime_html := "<p>Hi</p>" |} data))
       ++ EvCallSend "a@x.com" "Hello" "<p>Hi</p>" :: trace Demo.fresh)%list
    /\ forall message,
      fst (send_email Demo.refusing_env "a@x.com" "Hello" "<p>Hi</p>" Demo.fresh)
      = Val (true, message) ->
      n = length (smtp_script Demo.complete_settings "a@x.com"
                              {| mime_subject := "Hello";
                                 mime_from := "sales@example.com";
                                 mime_to := "a@x.com";
                                 mime_html := "<p>Hi</p>" |} data).
Proof.
  exact (send_email_follows_the_script Demo.refusing_env "a@x.com" "Hello" "<p>Hi</p>"
           Demo.fresh eq_refl).
Defined.



(** ** Attempt Logger: nothing is lost *)

(** X20.  The logger never raises and never touches what the log already
    holds: the rows of before are the first rows of after.  It adds at
    most the header and the row, each of five cells, and nothing at all
    when the file cannot be opened. *)
Theorem log_is_append_only E recipient subject status message w :
  exists w' added,
    log_email_attempt E recipient subject status message w = (Val tt, w')
    /\ rows_of (log_file w') = (rows_of (log_file w) ++ added)%list
    /\ length added <= 2
    /\ Forall (fun row => length row = 5) added
    /\ (log_open_fails E (trace w) <> None -> log_file w' = log_file w).
Proof.
  destruct (log_email_attempt_run E recipient subject status message w)
    as (w' & Hrun & _ & _ & Hlog).
  destruct (log_open_fails E (trace w)) as [e|].
  - exists w', []. rewrite Hlog, app_nil_r. repeat split; auto; cbn; lia.
  - exists w'. rewrite Hlog. unfold log_after.
    destruct (log_file w) as [[|row rows]|]; cbn [rows_of];
      eexists; (split; [exact Hrun|]);
      (split; [cbn [app]; reflexivity|]);
      (split; [cbn; lia|]);
      (split; [repeat constructor|congruence]).
Qed.

(** ** Stats *)

Lemma read_stats_recent log st :
  read_stats log = StatsOk st ->
  recent_entries st = last_n 10 (log_entries_of log).
Proof.
  unfold read_stats, log_entries_of. cbv zeta.
  destruct log as [rows|]; [|discriminate].
  destruct (DictReader.fieldnames rows) as [names|]; [|discriminate].
  destruct (negb (Csv.row_ok names)); [discriminate|].
  destruct names as [|name names]; [discriminate|].
  destruct (negb (existsb _ _)); [discriminate|].
  destruct (negb (Csv.rows_ok rows)); [discriminate|].
  destruct (count_sends (DictReader.entries rows) 0 0) as [[s f]|e];
    [|discriminate].
  now intros [= <-].
Qed.

(** X21.  The stats route returns at most ten entries, and they are the
    last ones of the log, in the order of the log: as many as there are
    attempts when there are fewer than ten. *)
Theorem recent_entries_are_the_last_ten log st :
  read_stats log = StatsOk st ->
  length (recent_entries st) = Nat.min 10 (total_attempts st)
  /\ exists older, log_entries_of log = (older ++ recent_entries st)%list.
Proof.
  intros H. pose proof (read_stats_recent log st H) as Hrecent.
  apply read_stats_ok in H as (Htot & _). rewrite Hrecent, Htot.
  unfold last_n. split.
  - rewrite length_skipn. lia.
  - exists (firstn (length (log_entries_of log) - 10) (log_entries_of log)).
    symmetry. apply firstn_skipn.
Qed.

Lemma recent_entries_are_the_last_ten_witness :
  exists st,
    read_stats (log_file Demo.logged) = StatsOk st
    /\ length (recent_entries st) = Nat.min 10 (total_attempts st)
    /\ exists older, log_entries_of (log_file Demo.logged)
                     = (older ++ recent_entries st)%list.
Proof.
  eexists. split; [vm_compute; reflexivity|].
  exact (recent_entries_are_the_last_ten (log_file Demo.logged) _ eq_refl).
Defined.

Lemma zip_into_lookup names :
  forall d row k,
    ~ In k names ->
    dict_lookup (DictReader.zip_into d names row) k = dict_lookup d k.
Proof.
  induction names as [|n names IH]; intros d row k Hk; [reflexivity|].
  destruct row as [|v row]; [reflexivity|].
  cbn [DictReader.zip_into]. rewrite IH by (intros ?; apply Hk; now right).
  rewrite dict_lookup_set.
  destruct (String.eqb_spec n k); [|reflexivity].
  exfalso. apply Hk. now left.
Qed.

Lemma fill_lookup names :
  forall (d : dict) k,
    ~ In k names ->
    dict_lookup (fold_left (fun d k' => dict_set d k' VNone) names d) k
    = dict_lookup d k.
Proof.
  induction names as [|n names IH]; intros d k Hk; [reflexivity|].
  cbn [fold_left]. rewrite IH by (intros ?; apply Hk; now right).
  rewrite dict_lookup_set.
  destruct (String.eqb_spec n k); [|reflexivity].
  exfalso. apply Hk. now left.
Qed.

(** A row has no key that the header does not have. *)
Lemma row_dict_lookup names row k :
  ~ In k names -> dict_lookup (DictReader.row_dict names row) k = None.
Proof.
  intros Hk. unfold DictReader.row_dict.
  rewrite fill_lookup.
  - now rewrite zip_into_lookup.
  - intros Hin. apply Hk. revert Hin. generalize (length row). clear.
    intros n. revert names. induction n as [|n IH]; intros [|x names]; cbn; auto.
Qed.

Lemma count_sends_all_failed log_entries :
  Forall (fun row => dict_lookup row "status" = None) log_entries ->
  forall successful failed,
    count_sends log_entries successful failed
    = Val (successful, failed + length log_entries).
Proof.
  induction 1 as [|row rest Hrow _ IH]; intros s f; cbn [count_sends length].
  - now rewrite Nat.add_0_r.
  - unfold status_is_sent, dict_get. rewrite Hrow.
    change (String.eqb (PyStr.lower (PyStr.strip "")) "sent") with false.
    cbn iota. rewrite IH. f_equal. f_equal. lia.
Qed.

(** X22.  The format check of the stats route compares the header names
    stripped and lowercased, but the rows are read under the exact key
    [status].  So a log whose status column is headed, say, [Status]
    passes the check, and then every one of its rows is counted as failed,
    whatever its status says.  This is for a log the route can read and
    return: no cell over the field limit of [csv.reader], no row longer
    than the header. *)
Theorem misspelt_status_header_counts_all_failed names data w :
  log_file w = Some (names :: data) ->
  existsb (String.eqb "status") (map norm names) = true ->
  ~ In "status" names ->
  Csv.rows_ok (names :: data) = true ->
  Forall (fun row => length row <= length names) data ->
  exists st,
    fst (stats_route w) = Val (StatsOk st)
    /\ successful_sends st = 0
    /\ failed_sends st = total_attempts st.
Proof.
  intros Hlog Hcheck Hkey Hok Hshort.
  assert (Hread : exists st,
             read_stats (Some (names :: data)) = StatsOk st
             /\ successful_sends st = 0
             /\ failed_sends st = total_attempts st).
  { unfold read_stats. cbv zeta. cbn [DictReader.fieldnames].
    pose proof Hok as Hnames. cbn [Csv.rows_ok forallb] in Hnames.
    apply andb_true_iff in Hnames as [Hnames _]. rewrite Hnames, Hok. cbn [negb].
    destruct names as [|n names]; [discriminate|].
    change (map (fun name => PyStr.lower (PyStr.strip name)) (n :: names))
      with (map norm (n :: names)).
    rewrite Hcheck. cbn [negb].
    rewrite count_sends_all_failed.
    - eexists. split; [reflexivity|]. split; reflexivity.
    - unfold DictReader.entries. apply Forall_forall. intros row Hin.
      apply in_map_iff in Hin as (r & <- & _). now apply row_dict_lookup. }
  destruct Hread as (st & Hst & Hzero & Hall).
  exists st. split; [|auto].
  rewrite (stats_route_counts w st); [reflexivity| |]; rewrite Hlog;
    [exact Hst|].
  cbn [rows_of]. now apply no_restkey.
Qed.

Lemma misspelt_status_header_counts_all_failed_witness :
  exists st,
    fst (stats_route
           {| trace := [];
              log_file :=
                Some [["timestamp"; "recipient"; "subject"; "Status"; "message"];
                      ["2024-05-01 09:00:00"; "a@x.com"; "Hello"; "Sent"; "ok"]];
              files := [] |})
    = Val (StatsOk st)
    /\ successful_sends st = 0
    /\ failed_sends st = total_attempts st.
Proof.
  apply (misspelt_status_header_counts_all_failed
           ["timestamp"; "recipient"; "subject"; "Status"; "message"]
           [["2024-05-01 09:00:00"; "a@x.com"; "Hello"; "Sent"; "ok"]]).
  - reflexivity.
  - reflexivity.
  - intros [H|[H|[H|[H|[H|[]]]]]]; discriminate.
  - vm_compute. reflexivity.
  - repeat constructor.
Defined.

(** ** The test routes *)

Lemma log_email_attempt_entries E recipient subject status message w :
  (forall h, log_open_fails E h = None) ->
  log_wf (log_file w) ->
  exists w',
    log_email_attempt E recipient subject status message w = (Val tt, w')
    /\ trace w' = EvCallLog recipient subject status message :: trace w
    /\ log_wf (log_file w')
    /\ log_entries_of (log_file w')
       = (log_entries_of (log_file w)
            ++ [[("timestamp", VStr (now E (trace w)));
                 ("recipient", VStr (csv_cell recipient)); ("subject", VStr subject);
                 ("status", VStr status); ("message", VStr message)]])%list.
Proof.
  intros Hopen Hwf.
  destruct (log_email_attempt_run E recipient subject status message w)
    as (w' & Hrun & Htr & _ & Hlog).
  rewrite Hopen in Hlog.
  destruct (log_entries_after (log_file w) (now E (trace w)) (csv_cell recipient)
                              subject status message Hwf) as [Hwf' Hent].
  exists w'. rewrite Hlog. auto.
Qed.

(** X23.  The route that sends one test message never raises, always
    enters the dispatcher, also when the generation failed, and logs two
    rows, one before and one after the dispatch.  Neither row counts as a
    successful send in the stats, even when the message went out: both
    count as failed. *)
Theorem test_send_never_counts_as_sent E recipient w :
  recipient <> "" ->
  log_wf (log_file w) ->
  (forall h, log_open_fails E h = None) ->
  exists r w' subject body,
    send_test_email_route E (Some recipient) w = (Val r, w')
    /\ In (EvCallSend recipient subject body) (trace w')
    /\ log_wf (log_file w')
    /\ sent_rows (log_file w') = sent_rows (log_file w)
    /\ failed_rows (log_file w') = failed_rows (log_file w) + 2.
Proof.
  intros Hrec Hwf Hopen. apply String.eqb_neq in Hrec.
  unfold send_test_email_route. cbn [truthy_opt str_opt]. rewrite Hrec. cbn [negb].
  unfold bind at 1.
  match goal with
  | |- context [generate_email_content E ?c ?p w] =>
      destruct (generate_email_content_returns E c p w) as (email_body & w1 & Hgen);
      destruct (frame_of_run _ _ _ _ _ (generate_email_content_frame E c p) Hgen)
        as (new1 & _ & _ & Hlog1 & _);
      rewrite Hgen
  end.
  unfold bind at 1.
  rewrite <- Hlog1 in Hwf.
  destruct (log_email_attempt_entries E (VStr recipient) "Test Email from Flask App"
                                      "Test - Attempted" "N/A (Test Route)" w1
                                      Hopen Hwf)
    as (w2 & -> & _ & Hwf2 & Hent2).
  cbn beta iota zeta. unfold bind at 1.
  match goal with
  | |- context [send_email E ?r ?s ?b w2] =>
      destruct (send_email_returns E r s b w2) as (success & message & w3 & Hsend);
      destruct (frame_of_run _ _ _ _ _ (send_email_frame E r s b) Hsend)
        as (new3 & _ & _ & Hlog3 & _);
      pose proof (send_email_is_recorded E r s b w2) as Hcall;
      rewrite Hsend in Hcall |- *; cbn [snd] in Hcall
  end.
  rewrite <- Hlog3 in Hwf2.
  destruct success; cbn beta iota; unfold bind at 1;
    match goal with
    | |- context [log_email_attempt E ?r ?s ?st ?m w3] =>
        destruct (log_email_attempt_entries E r s st m w3 Hopen Hwf2)
          as (w4 & -> & Htr4 & Hwf4 & Hent4)
    end;
    eexists _, w4, _, _;
    (split; [reflexivity|]);
    (split; [rewrite Htr4; right; exact Hcall|]);
    (split; [exact Hwf4|]);
    unfold sent_rows, failed_rows;
    rewrite Hent4, Hlog3, Hent2, Hlog1, !filter_app, !length_app;
    cbn [filter];
    repeat match goal with
           | |- context [counts_as_sent ?row] =>
               let b := eval vm_compute in (counts_as_sent row) in
               replace (counts_as_sent row) with b by (vm_compute; reflexivity)
           end;
    cbn [negb length]; split; lia.
Qed.

Lemma test_send_never_counts_as_sent_witness :
  exists r w' subject body,
    send_test_email_route Demo.env_ok (Some "qa@x.com") Demo.logged = (Val r, w')
    /\ In (EvCallSend "qa@x.com" subject body) (trace w')
    /\ log_wf (log_file w')
    /\ sent_rows (log_file w') = sent_rows (log_file Demo.logged)
    /\ failed_rows (log_file w') = failed_rows (log_file Demo.logged) + 2.
Proof.
  apply (test_send_never_counts_as_sent Demo.env_ok "qa@x.com" Demo.logged).
  - discriminate.
  - split; [reflexivity|repeat constructor].
  - reflexivity.
Defined.






(** ** The preview route *)

(** X25.  The preview route changes nothing and never answers 500: the
    file is missing and the answer is 404, or the file is there and the
    answer is the extracted contacts, or the message that none was
    extracted.  What it shows is what a batch on the same file would
    process. *)
Theorem preview_never_fails csv_path w :
  exists r,
    view_data_route csv_path w = (Val r, w)
    /\ match r with
       | ViewError code _ => code = 404%Z /\ read_file w csv_path = FileMissing
       | ViewEmpty _ =>
           read_file w csv_path <> FileMissing
           /\ extract_from_source (read_file w csv_path) ColDefault ColDefault = []
       | ViewData data =>
           data <> []
           /\ data = extract_from_source (read_file w csv_path) ColDefault ColDefault
       end.
Proof.
  unfold view_data_route, path_exists, bind, extract_data_from_csv.
  destruct (read_file w csv_path) as [|why|rows] eqn:Hfile; cbn [negb].
  - eexists. split; [reflexivity|]. split; reflexivity.
  - cbn. rewrite Hfile. eexists. split; [reflexivity|].
    split; [discriminate|reflexivity].
  - destruct (extract_from_source (FileRows rows) ColDefault ColDefault)
      as [|contact rest] eqn:Hext; cbn beta iota; rewrite ?Hfile;
      eexists; (split; [reflexivity|]); (split; [discriminate|reflexivity]).
Qed.

(** ** Settings *)

(** X26.  An environment that does not set [SMTP_PORT] always loads, with
    the port 587.  What it leaves out degrades at call time instead of
    stopping the program: without a host or a sender address every send
    returns the incomplete-configuration failure and reaches no server;
    without the generation key every generation returns a failure string
    that the orchestrator recognises, and reaches no service. *)
Theorem missing_settings_degrade_to_failures py_int environ E :
  dict_lookup environ "SMTP_PORT" = None ->
  exists s,
    Config.load py_int environ = Val s
    /\ SMTP_PORT (Config.mail s) = 587%Z
    /\ (truthy_opt (dict_lookup environ "SMTP_HOST") = false
        \/ truthy_opt (dict_lookup environ "SMTP_SENDER_EMAIL") = false ->
        forall recipient_email subject body w,
          send_email (Config.with_settings E s) recipient_email subject body w
          = (Val (false, smtp_incomplete_msg),
             snd (emit (EvCallSend recipient_email subject body) w)))
    /\ (truthy_opt (dict_lookup environ "GEMINI_API_KEY") = false ->
        forall company_data user_prompt w,
        exists email_body,
          generate_email_content (Config.with_settings E s) company_data user_prompt w
          = (Val email_body, snd (emit (EvCallGenerate company_data user_prompt) w))
          /\ generation_failed email_body = true).
Proof.
  intros Hport. unfold Config.load. rewrite Hport.
  eexists. split; [reflexivity|]. split; [reflexivity|]. split.
  - intros H recipient_email subject body w.
    apply send_email_unconfigured. apply smtp_unconfigured.
    cbn [Config.with_settings settings Config.mail SMTP_HOST SMTP_SENDER_EMAIL].
    tauto.
  - intros H company_data user_prompt w.
    unfold generate_email_content. unfold_monad. cbn beta iota.
    cbn [Config.with_settings settings Config.mail GEMINI_API_KEY genai_available].
    rewrite H. cbn [negb].
    destruct (genai_available E); cbn [negb]; eexists; split; reflexivity.
Qed.

Lemma missing_settings_degrade_to_failures_witness :
  exists s,
    Config.load (fun _ => Exn (ValueError "invalid literal for int()"))
                [("SMTP_SENDER_EMAIL", "sales@example.com"); ("FLASK_DEBUG", "1")]
    = Val s
    /\ SMTP_PORT (Config.mail s) = 587%Z
    /\ (truthy_opt (dict_lookup [("SMTP_SENDER_EMAIL", "sales@example.com");
                                 ("FLASK_DEBUG", "1")] "SMTP_HOST") = false
        \/ truthy_opt (dict_lookup [("SMTP_SENDER_EMAIL", "sales@example.com");
                                    ("FLASK_DEBUG", "1")] "SMTP_SENDER_EMAIL") = false ->
        forall recipient_email subject body w,
          send_email (Config.with_settings Demo.env_ok s) recipient_email subject body w
          = (Val (false, smtp_incomplete_msg),
             snd (emit (EvCallSend recipient_email subject body) w)))
    /\ (truthy_opt (dict_lookup [("SMTP_SENDER_EMAIL", "sales@example.com");
                                 ("FLASK_DEBUG", "1")] "GEMINI_API_KEY") = false ->
        forall company_data user_prompt w,
        exists email_body,
          generate_email_content (Config.with_settings Demo.env_ok s)
                                 company_data user_prompt w
          = (Val email_body, snd (emit (EvCallGenerate company_data user_prompt) w))
          /\ generation_failed email_body = true).
Proof.
  exact (missing_settings_degrade_to_failures
           (fun _ => Exn (ValueError "invalid literal for int()"))
           [("SMTP_SENDER_EMAIL", "sales@example.com"); ("FLASK_DEBUG", "1")]
           Demo.env_ok eq_refl).
Defined.
